(** * cTCP connection engine (ctcp.c): a shallow embedding and its properties

    The engine of [ctcp.c] is embedded as pure functions over explicit
    records.  Machine integers are [Z] with their wrap-around written out,
    the two linked lists are Rocq lists (append at the back, removal at the
    front), and the host connection object [conn_t] is a record holding the
    source script, the sink and the log of datagrams handed to [conn_send]. *)

From Stdlib Require Import Strings.Byte Strings.String.
From Stdlib Require Import ZArith List Bool Lia.
Import ListNotations.
Open Scope Z_scope.

(** ** Machine integers *)

Definition wrap8 (z : Z) : Z := z mod 2 ^ 8.
Definition wrap16 (z : Z) : Z := z mod 2 ^ 16.
Definition wrap32 (z : Z) : Z := z mod 2 ^ 32.

Definition byte_of_Z (z : Z) : byte :=
  match Byte.of_N (Z.to_N (z mod 256)) with
  | Some b => b
  | None => x00
  end.

Definition Z_of_byte (b : byte) : Z := Z.of_N (Byte.to_N b).

(** Network byte order images of 16 and 32 bit fields. *)
Definition be16 (z : Z) : list byte :=
  [byte_of_Z (Z.shiftr z 8); byte_of_Z z].

Definition be32 (z : Z) : list byte :=
  [byte_of_Z (Z.shiftr z 24); byte_of_Z (Z.shiftr z 16);
   byte_of_Z (Z.shiftr z 8); byte_of_Z z].

(** ** The host interface (ctcp.h, ctcp_sys.h, ctcp_utils.h)

    [ctcp.c] takes the flag masks [FIN] and [ACK], the payload bound
    [MAX_SEG_DATA_SIZE] and the checksum routine [cksum] from headers that
    are not part of the file; they are the parameters of the development.
    [cksum] stands for the value of the C routine read in network order. *)
Class ctcp_sys := {
  FIN : Z;
  ACK : Z;
  MAX_SEG_DATA_SIZE : Z;
  cksum : list byte -> Z
}.

(** ** Data model *)

(** Modelled from the spec: the wire segment [ctcp_segment_t] of ctcp_sys.h,
    a 32-bit sequence number, a 32-bit acknowledgement number, a 16-bit
    total length, a 16-bit checksum, 32 bits of flags and a 16-bit window,
    followed by the payload.  Numeric fields hold the value that [ntohl] or
    [ntohs] reads from the field.  [sizeof(ctcp_segment_t)] is 18 bytes. *)
Record ctcp_segment_t := mk_segment {
  seg_seqno : Z;
  seg_ackno : Z;
  seg_len : Z;
  seg_cksum : Z;
  seg_flags : Z;
  seg_window : Z;
  seg_data : list byte
}.

Definition sizeof_segment : Z := 18.

Inductive Segment_type := DATA_SEG | ACK_SEG | FIN_WITH_ACK | FIN_WITH_NO_ACK.

Inductive Teardown_state := NO_CLOSE | ACTIVE_CLOSE | PASSIVE_CLOSE.

Record ACK_state := mk_ack_state {
  time_out_num : Z;
  counter : Z;
  timer_overflow : Z;
  time_out : bool
}.

Record Conn_state := mk_conn_state {
  seqno : Z;
  next_seqno : Z;
  ackno : Z;
  last_ackno : Z;
  send_window : Z;
  send_window_used : Z;
  rcv_window : Z;
  rcv_window_used : Z
}.

(** [buffer_size] is the length of the flexible array member. *)
Record TX_state := mk_tx {
  segment_next_seqno : Z;
  tx_buffer : list byte
}.

Definition buffer_size (t : TX_state) : Z := Z.of_nat (length (tx_buffer t)).

Record RX_state := mk_rx {
  byte_used : Z;
  byte_left : Z;
  rx_buffer : list byte
}.

(** What one call of [conn_input] hands back: bytes (a positive count),
    nothing for now (0) or end of input (-1). *)
Inductive input_result :=
| In_bytes (bs : list byte)
| In_none
| In_eof.

(** Modelled from the spec: the host connection object behind [conn_input],
    [conn_output], [conn_bufspace] and [conn_send] of ctcp_sys.h.  The source
    is a script of successive [conn_input] results, the sink records the
    bytes written and its free space, and [c_sent] logs every datagram given
    to [conn_send], oldest first. *)
Record conn_t := mk_conn {
  c_input : list input_result;
  c_bufspace : Z;
  c_output : list byte;
  c_eof : bool;
  c_sent : list ctcp_segment_t
}.

Record ctcp_state := mk_state {
  conn : conn_t;
  conn_state : Conn_state;
  tx_state : list TX_state;
  rx_state : list RX_state;
  ack_state : ACK_state;
  segment_teardown : Teardown_state
}.

(** Modelled from the spec: the configuration [ctcp_config_t] of
    ctcp_sys.h, the two windows in bytes, the tick period and the
    retransmission timeout in milliseconds. *)
Record ctcp_config_t := mk_config {
  cfg_recv_window : Z;
  cfg_send_window : Z;
  cfg_timer : Z;
  cfg_rt_timeout : Z
}.

(** Field updates. *)
Definition set_conn (c : conn_t) (s : ctcp_state) : ctcp_state :=
  mk_state c (conn_state s) (tx_state s) (rx_state s) (ack_state s)
    (segment_teardown s).
Definition set_conn_state (cs : Conn_state) (s : ctcp_state) : ctcp_state :=
  mk_state (conn s) cs (tx_state s) (rx_state s) (ack_state s)
    (segment_teardown s).
Definition set_tx_state (q : list TX_state) (s : ctcp_state) : ctcp_state :=
  mk_state (conn s) (conn_state s) q (rx_state s) (ack_state s)
    (segment_teardown s).
Definition set_rx_state (q : list RX_state) (s : ctcp_state) : ctcp_state :=
  mk_state (conn s) (conn_state s) (tx_state s) q (ack_state s)
    (segment_teardown s).
Definition set_ack_state (a : ACK_state) (s : ctcp_state) : ctcp_state :=
  mk_state (conn s) (conn_state s) (tx_state s) (rx_state s) a
    (segment_teardown s).
Definition set_teardown (t : Teardown_state) (s : ctcp_state) : ctcp_state :=
  mk_state (conn s) (conn_state s) (tx_state s) (rx_state s) (ack_state s) t.

Definition set_seqno (v : Z) (c : Conn_state) : Conn_state :=
  mk_conn_state v (next_seqno c) (ackno c) (last_ackno c) (send_window c)
    (send_window_used c) (rcv_window c) (rcv_window_used c).
Definition set_next_seqno (v : Z) (c : Conn_state) : Conn_state :=
  mk_conn_state (seqno c) v (ackno c) (last_ackno c) (send_window c)
    (send_window_used c) (rcv_window c) (rcv_window_used c).
Definition set_ackno (v : Z) (c : Conn_state) : Conn_state :=
  mk_conn_state (seqno c) (next_seqno c) v (last_ackno c) (send_window c)
    (send_window_used c) (rcv_window c) (rcv_window_used c).
Definition set_last_ackno (v : Z) (c : Conn_state) : Conn_state :=
  mk_conn_state (seqno c) (next_seqno c) (ackno c) v (send_window c)
    (send_window_used c) (rcv_window c) (rcv_window_used c).
Definition set_send_window_used (v : Z) (c : Conn_state) : Conn_state :=
  mk_conn_state (seqno c) (next_seqno c) (ackno c) (last_ackno c)
    (send_window c) v (rcv_window c) (rcv_window_used c).
Definition set_rcv_window_used (v : Z) (c : Conn_state) : Conn_state :=
  mk_conn_state (seqno c) (next_seqno c) (ackno c) (last_ackno c)
    (send_window c) (send_window_used c) (rcv_window c) v.

Definition set_time_out (b : bool) (a : ACK_state) : ACK_state :=
  mk_ack_state (time_out_num a) (counter a) (timer_overflow a) b.
Definition set_counter (v : Z) (a : ACK_state) : ACK_state :=
  mk_ack_state (time_out_num a) v (timer_overflow a) (time_out a).
Definition set_time_out_num (v : Z) (a : ACK_state) : ACK_state :=
  mk_ack_state v (counter a) (timer_overflow a) (time_out a).

Definition set_seg_cksum (v : Z) (g : ctcp_segment_t) : ctcp_segment_t :=
  mk_segment (seg_seqno g) (seg_ackno g) (seg_len g) v (seg_flags g)
    (seg_window g) (seg_data g).

(** ** Linked list primitives

    Modelled from the spec: the queue operations of ctcp_linked_list.h,
    append at the back, inspect the front, count. *)

Definition ll_add {A} (l : list A) (x : A) : list A := l ++ [x].
Definition ll_front {A} (l : list A) : option A := hd_error l.
Definition ll_length {A} (l : list A) : Z := Z.of_nat (length l).

(** ** Host capabilities *)

(** Modelled from the spec: [conn_send] of ctcp_sys.h, taken to send the
    whole datagram in one call, so that the retry loop around it runs
    once. *)
Definition conn_send (c : conn_t) (g : ctcp_segment_t) : conn_t :=
  mk_conn (c_input c) (c_bufspace c) (c_output c) (c_eof c) (c_sent c ++ [g]).

(** Modelled from the spec: [conn_bufspace] of ctcp_sys.h, the bytes the
    sink accepts at present. *)
Definition conn_bufspace (c : conn_t) : Z := c_bufspace c.

(** Modelled from the spec: [conn_output] of ctcp_sys.h.  A zero length
    signals end of stream to the sink; otherwise the sink takes the whole
    buffer, which the caller has checked against [conn_bufspace], and has
    that much less room.  The result pairs the count written with the
    connection. *)
Definition conn_output (c : conn_t) (bs : list byte) : Z * conn_t :=
  match bs with
  | [] => (0, mk_conn (c_input c) (c_bufspace c) (c_output c) true (c_sent c))
  | _ => (Z.of_nat (length bs),
          mk_conn (c_input c) (c_bufspace c - Z.of_nat (length bs))
            (c_output c ++ bs) (c_eof c) (c_sent c))
  end.

Definition set_input (i : list input_result) (c : conn_t) : conn_t :=
  mk_conn i (c_bufspace c) (c_output c) (c_eof c) (c_sent c).

Section Engine.

Context {sys : ctcp_sys}.

(** ** Segment codec *)

(** The bytes of a segment as they sit in the send buffer. *)
Definition segment_bytes (g : ctcp_segment_t) : list byte :=
  be32 (seg_seqno g) ++ be32 (seg_ackno g) ++ be16 (seg_len g) ++
  be16 (seg_cksum g) ++ be32 (seg_flags g) ++ be16 (seg_window g) ++
  seg_data g.

(** [cksum] returns a [uint16_t]. *)
Definition cksum16 (bs : list byte) : Z := wrap16 (cksum bs).

(** [x->cksum = 0; x->cksum = cksum(x, len);] *)
Definition fill_cksum (g : ctcp_segment_t) : ctcp_segment_t :=
  let g0 := set_seg_cksum 0 g in
  set_seg_cksum (cksum16 (segment_bytes g0)) g0.

(** The advertised window of both kinds of outgoing segment. *)
Definition advertised_window (c : Conn_state) : Z :=
  wrap16 (MAX_SEG_DATA_SIZE *
          Z.quot (rcv_window c - rcv_window_used c) MAX_SEG_DATA_SIZE).

(** ** Sending *)

Definition ctcp_send_flags (state : ctcp_state) (ack : Z) (fl : Z)
  : ctcp_state :=
  let g := fill_cksum
             (mk_segment (seqno (conn_state state)) ack sizeof_segment 0 fl
                (advertised_window (conn_state state)) []) in
  set_conn (conn_send (conn state) g) state.

(** [ctcp_send_data_segment] on a queue node: the node comes back with its
    tag rewritten. *)
Definition ctcp_send_data_segment (state : ctcp_state) (node : TX_state)
  : ctcp_state * TX_state :=
  let cs := conn_state state in
  let next := wrap32 (next_seqno cs + buffer_size node) in
  let g := fill_cksum
             (mk_segment (next_seqno cs) (ackno cs)
                (wrap16 (sizeof_segment + buffer_size node)) 0 0
                (advertised_window cs) (tx_buffer node)) in
  let state1 := set_conn_state (set_next_seqno next cs) state in
  let state2 := set_conn (conn_send (conn state1) g) state1 in
  (set_ack_state (set_time_out true (ack_state state2)) state2,
   mk_tx next (tx_buffer node)).

(** The walk of [ctcp_send_possible_data_segment] over the queue nodes. The
    queue is rebuilt with the rewritten tags. *)
Fixpoint send_walk (state : ctcp_state) (nodes : list TX_state)
  : ctcp_state * list TX_state :=
  match nodes with
  | [] => (state, [])
  | node :: rest =>
      if send_window (conn_state state)
           <? buffer_size node + send_window_used (conn_state state)
      then (state, nodes)
      else
        let '(state1, node1) := ctcp_send_data_segment state node in
        let cs1 := conn_state state1 in
        let state2 :=
          set_conn_state
            (set_send_window_used
               (wrap16 (send_window_used cs1 + buffer_size node)) cs1)
            state1 in
        let '(state3, rest3) := send_walk state2 rest in
        (state3, node1 :: rest3)
  end.

Definition ctcp_send_possible_data_segment (state : ctcp_state)
  : ctcp_state :=
  let cs := conn_state state in
  let cs1 := set_next_seqno (seqno cs) (set_send_window_used 0 cs) in
  let '(state1, q) := send_walk (set_conn_state cs1 state) (tx_state state) in
  set_tx_state q state1.

(** ** Lifetime *)

(** What a handler leaves behind: the engine, or, after [ctcp_destroy], only
    the host connection that was handed to [conn_remove]. *)
Inductive result :=
| Alive (state : ctcp_state)
| Destroyed (c : conn_t).

Definition ctcp_destroy (state : ctcp_state) : result := Destroyed (conn state).

(** The state that [ctcp_init] fills in.  The C expression for
    [timer_overflow] divides by [cfg->timer]: with a tick period of 0 the
    division traps and no engine is made.  The definition has a value there
    as well, so a statement about a run of an engine that [ctcp_init] made
    assumes a tick period other than 0. *)
Definition new_engine (c : conn_t) (cfg : ctcp_config_t) : ctcp_state :=
  let overflow :=
    if Z.rem (cfg_rt_timeout cfg) (cfg_timer cfg) =? 0
    then Z.quot (cfg_rt_timeout cfg) (cfg_timer cfg)
    else Z.quot (cfg_rt_timeout cfg) (cfg_timer cfg) + 1 in
  mk_state c
    (mk_conn_state 1 1 1 1 (cfg_send_window cfg) 0 (cfg_recv_window cfg) 0)
    [] []
    (mk_ack_state 0 0 (wrap8 overflow) false)
    NO_CLOSE.

Definition ctcp_init (c : option conn_t) (cfg : ctcp_config_t)
  (state_list : list ctcp_state) : option ctcp_state * list ctcp_state :=
  match c with
  | None => (None, state_list)
  | Some c => (Some (new_engine c cfg), new_engine c cfg :: state_list)
  end.

(** ** Delivery to the sink *)

(** The loop of [ctcp_output] over the receive queue; it gives back the
    nodes still queued. *)
Fixpoint output_walk (state : ctcp_state) (nodes : list RX_state)
  : ctcp_state * list RX_state :=
  match nodes with
  | [] => (state, [])
  | node :: rest =>
      let avai_space := conn_bufspace (conn state) in
      if (avai_space =? 0) || (avai_space <? byte_left node)
      then (state, nodes)
      else
        let '(byte_sent, c1) :=
          conn_output (conn state)
            (firstn (Z.to_nat (byte_left node))
               (skipn (Z.to_nat (byte_used node)) (rx_buffer node))) in
        let node1 :=
          mk_rx (byte_used node + byte_sent) (byte_left node - byte_sent)
            (rx_buffer node) in
        let cs := conn_state state in
        let state1 :=
          set_conn_state
            (set_rcv_window_used (wrap16 (rcv_window_used cs - byte_sent)) cs)
            (set_conn c1 state) in
        if byte_left node1 <=? 0
        then output_walk
               (ctcp_send_flags state1 (ackno (conn_state state1)) ACK) rest
        else (state1, node1 :: rest)
  end.

Definition ctcp_output (state : ctcp_state) : ctcp_state :=
  let '(state1, q) := output_walk state (rx_state state) in
  set_rx_state q state1.

(** ** Receiving *)

(** The byte count [len] that comes with a received segment. *)
Definition received_len (g : ctcp_segment_t) : Z :=
  sizeof_segment + Z.of_nat (length (seg_data g)).

(** The guarded block of [ctcp_receive_data_segment] that takes the segment
    into the receive window. *)
Definition accept_data (state : ctcp_state) (segment : ctcp_segment_t)
  : ctcp_state :=
  let data_seg_len := received_len segment - sizeof_segment in
  let cs := conn_state state in
  let cs1 := set_last_ackno (ackno cs) cs in
  let cs2 :=
    set_ackno (wrap32 (seg_seqno segment + seg_len segment - sizeof_segment))
      cs1 in
  let node := mk_rx 0 data_seg_len (seg_data segment) in
  let cs3 :=
    set_rcv_window_used (wrap16 (rcv_window_used cs2 + data_seg_len)) cs2 in
  set_rx_state (ll_add (rx_state state) node) (set_conn_state cs3 state).

Definition fits_rcv_window (state : ctcp_state) (segment : ctcp_segment_t)
  : bool :=
  rcv_window_used (conn_state state) + (received_len segment - sizeof_segment)
    <=? rcv_window (conn_state state).

Definition ctcp_receive_data_segment (state : ctcp_state)
  (segment : ctcp_segment_t) : ctcp_state :=
  ctcp_output
    (if fits_rcv_window state segment then accept_data state segment
     else state).

(** [while(q->length > 0);] has an empty body: nothing it reads changes
    while it runs. [None] is an exhausted step budget. *)
Fixpoint busy_wait (fuel : nat) (length : Z) : option unit :=
  match fuel with
  | O => None
  | S fuel' => if 0 <? length then busy_wait fuel' length else Some tt
  end.

(** The passive-close block of [ctcp_receive_fin_with_no_ack]: end of
    stream to the sink, the ACK, the wait for the receive queue, our FIN. *)
Definition fin_passive_close (fuel : nat) (state : ctcp_state)
  : option result :=
  let state2 := set_conn (snd (conn_output (conn state) [])) state in
  let state3 := ctcp_send_flags state2 (ackno (conn_state state2)) ACK in
  match busy_wait fuel (ll_length (rx_state state3)) with
  | None => None
  | Some _ =>
      let state4 := ctcp_send_flags state3 (ackno (conn_state state3)) FIN in
      Some (Alive
              (set_teardown PASSIVE_CLOSE
                 (set_ack_state (set_time_out true (ack_state state4))
                    state4)))
  end.

Definition ctcp_receive_fin_with_no_ack (fuel : nat) (state : ctcp_state)
  (segment : ctcp_segment_t) : option result :=
  let cs := conn_state state in
  let cs1 :=
    set_ackno (wrap32 (seg_seqno segment + 1)) (set_last_ackno (ackno cs) cs) in
  let state1 := set_conn_state cs1 state in
  match segment_teardown state1 with
  | ACTIVE_CLOSE =>
      Some (ctcp_destroy
              (ctcp_send_flags state1 (ackno (conn_state state1)) ACK))
  | _ => fin_passive_close fuel state1
  end.

(** The cumulative acknowledgement loop: heads of the send queue are dropped
    while their tag is positive and not above the acknowledgement number. *)
Fixpoint ack_drain (segment_ackno : Z) (cs : Conn_state)
  (nodes : list TX_state) : Conn_state * list TX_state :=
  match nodes with
  | [] => (cs, [])
  | node :: rest =>
      if (segment_next_seqno node <=? segment_ackno)
         && (0 <? segment_next_seqno node)
      then
        ack_drain segment_ackno
          (set_send_window_used
             (wrap16 (send_window_used cs - buffer_size node))
             (set_seqno (segment_next_seqno node) cs))
          rest
      else (cs, nodes)
  end.

Definition has_flag (segment : ctcp_segment_t) (mask : Z) : bool :=
  negb (Z.land (seg_flags segment) mask =? 0).

Definition segment_type (segment : ctcp_segment_t) : Segment_type :=
  if has_flag segment FIN
  then if has_flag segment ACK then FIN_WITH_ACK else FIN_WITH_NO_ACK
  else if has_flag segment ACK then ACK_SEG else DATA_SEG.

(** The first test of [ctcp_receive]. *)
Definition is_duplicate (state : ctcp_state) (segment : ctcp_segment_t)
  : bool :=
  negb (seg_seqno segment =? ackno (conn_state state))
  && (seg_seqno segment =? last_ackno (conn_state state))
  && negb (has_flag segment ACK).

Definition cksum_matches (segment : ctcp_segment_t) : bool :=
  seg_cksum segment =? cksum16 (segment_bytes (set_seg_cksum 0 segment)).

Definition receive_ack (state : ctcp_state) (segment : ctcp_segment_t)
  : result :=
  match segment_teardown state with
  | PASSIVE_CLOSE => ctcp_destroy state
  | _ =>
      match ll_front (tx_state state) with
      | None => Alive state
      | Some front =>
          let segment_ackno := seg_ackno segment in
          if segment_next_seqno front <=? segment_ackno
          then
            let '(cs1, q) :=
              ack_drain segment_ackno (conn_state state) (tx_state state) in
            let a := ack_state state in
            let a1 :=
              if segment_ackno =? next_seqno cs1 then set_time_out false a
              else a in
            Alive
              (set_ack_state (set_time_out_num 0 (set_counter 0 a1))
                 (set_tx_state q (set_conn_state cs1 state)))
          else Alive state
      end
  end.

Definition ctcp_receive (fuel : nat) (state : ctcp_state)
  (segment : ctcp_segment_t) : option result :=
  if is_duplicate state segment
  then Some (Alive
               (ctcp_send_flags state (last_ackno (conn_state state)) ACK))
  else if negb (received_len segment =? seg_len segment)
  then Some (Alive state)
  else if negb (cksum_matches segment)
  then Some (Alive state)
  else
    match segment_type segment with
    | DATA_SEG => Some (Alive (ctcp_receive_data_segment state segment))
    | ACK_SEG => Some (receive_ack state segment)
    | FIN_WITH_ACK =>
        let cs := conn_state state in
        let state1 :=
          set_conn_state (set_ackno (wrap32 (seg_seqno segment + 1)) cs)
            state in
        Some (ctcp_destroy
                (ctcp_send_flags state1 (ackno (conn_state state1)) ACK))
    | FIN_WITH_NO_ACK => ctcp_receive_fin_with_no_ack fuel state segment
    end.

(** ** Reading the source *)

Definition truncate_sentinel : list byte :=
  list_byte_of_string "###truncate###"%string.

Definition bytes_eqb (a b : list byte) : bool :=
  if list_eq_dec Byte.byte_eq_dec a b then true else false.

Definition is_truncate_message (bs : list byte) : bool :=
  (14 <? Z.of_nat (length bs)) && bytes_eqb (firstn 14 bs) truncate_sentinel.

(** The read loop of [ctcp_read]; [script] is what the successive calls of
    [conn_input] are going to return, and a script that has run out returns
    0.  Each call takes its entry off the script of the connection. *)
Fixpoint read_loop (fuel : nat) (script : list input_result)
  (state : ctcp_state) : option ctcp_state :=
  match script with
  | [] => Some state
  | r :: script' =>
      let state0 := set_conn (set_input script' (conn state)) state in
      match r with
      | In_none => Some state0
      | In_bytes [] => Some state0
      | In_eof =>
          match busy_wait fuel (ll_length (rx_state state0)) with
          | None => None
          | Some _ =>
              match busy_wait fuel (ll_length (tx_state state0)) with
              | None => None
              | Some _ =>
                  let state1 := set_teardown ACTIVE_CLOSE state0 in
                  let state2 :=
                    ctcp_send_flags state1 (ackno (conn_state state1)) FIN in
                  Some (set_ack_state
                          (set_time_out true (ack_state state2)) state2)
              end
          end
      | In_bytes bs =>
          if is_truncate_message bs then Some state0
          else
            read_loop fuel script'
              (set_tx_state (ll_add (tx_state state0) (mk_tx 0 bs)) state0)
      end
  end.

Definition ctcp_read (fuel : nat) (state : ctcp_state) : option ctcp_state :=
  match read_loop fuel (c_input (conn state)) state with
  | None => None
  | Some state1 => Some (ctcp_send_possible_data_segment state1)
  end.

(** ** The timer *)

(** One pass through the body of the loop of [ctcp_timer] for the engine
    under the cursor. The flag tells whether the pass reached
    [cur_state = cur_state->next]. *)
Definition timer_body (cur_state : ctcp_state) : ctcp_state * bool :=
  let a := ack_state cur_state in
  if time_out a then
    let a1 := set_counter (wrap8 (counter a + 1)) a in
    if counter a1 =? timer_overflow a1 then
      let a2 := set_counter 0 a1 in
      let a3 := set_time_out_num (wrap8 (time_out_num a2 + 1)) a2 in
      let state3 := set_ack_state a3 cur_state in
      if time_out_num a3 =? 6 then
        let state4 :=
          ctcp_send_flags state3 (ackno (conn_state state3)) FIN in
        (set_teardown ACTIVE_CLOSE
           (set_ack_state (set_time_out true (ack_state state4)) state4),
         false)
      else
        match segment_teardown state3 with
        | NO_CLOSE => (ctcp_send_possible_data_segment state3, true)
        | _ =>
            (ctcp_send_flags state3 (last_ackno (conn_state state3)) FIN,
             true)
        end
    else (set_ack_state a1 cur_state, true)
  else
    let state1 := ctcp_send_possible_data_segment cur_state in
    if 0 <? ll_length (rx_state state1)
    then (ctcp_output state1, true)
    else (state1, true).

(** The traversal of the registry: [visited] are the engines behind the
    cursor, [pending] starts with the engine under it. A pass that does not
    advance the cursor runs the body on the same engine again. *)
Fixpoint timer_loop (fuel : nat) (visited pending : list ctcp_state)
  : option (list ctcp_state) :=
  match fuel with
  | O => None
  | S fuel' =>
      match pending with
      | [] => Some visited
      | cur_state :: rest =>
          let '(cur1, advance) := timer_body cur_state in
          if advance then timer_loop fuel' (visited ++ [cur1]) rest
          else timer_loop fuel' visited (cur1 :: rest)
      end
  end.

Definition ctcp_timer (fuel : nat) (state_list : list ctcp_state)
  : option (list ctcp_state) :=
  timer_loop fuel [] state_list.

(** ** Observations and invariants *)

Definition result_conn (r : result) : conn_t :=
  match r with
  | Alive state => conn state
  | Destroyed c => c
  end.

(** A segment verifies when the checksum recomputed over its bytes with the
    checksum field zeroed is the one it carries. *)
Definition cksum_verifies (g : ctcp_segment_t) : Prop :=
  seg_cksum g = cksum16 (segment_bytes (set_seg_cksum 0 g)).

(** [c'] is [c] after some more datagrams were sent, all of which verify. *)
Definition sends_verified (c c' : conn_t) : Prop :=
  exists new, c_sent c' = c_sent c ++ new /\ Forall cksum_verifies new.

(** Tags of a run of transmitted nodes: each is the previous one plus the
    node's payload length, in 32-bit arithmetic, starting from [base]. *)
Fixpoint tags_from (base : Z) (sent : list TX_state) : Prop :=
  match sent with
  | [] => True
  | node :: rest =>
      segment_next_seqno node = wrap32 (base + buffer_size node)
      /\ tags_from (segment_next_seqno node) rest
  end.

Definition payload_total (q : list TX_state) : Z :=
  fold_right (fun node acc => buffer_size node + acc) 0 q.

Definition held_total (q : list RX_state) : Z :=
  fold_right (fun node acc => byte_left node + acc) 0 q.

(** A node that was never transmitted. *)
Definition untagged (node : TX_state) : Prop := segment_next_seqno node = 0.

(** The send queue is a transmitted prefix, tagged from [seqno] and
    accounted for in [send_window_used], followed by nodes that were never
    transmitted and still carry the tag 0 of their allocation. *)
Definition tx_queue_inv (state : ctcp_state) : Prop :=
  exists sent unsent,
    tx_state state = sent ++ unsent
    /\ tags_from (seqno (conn_state state)) sent
    /\ Forall untagged unsent
    /\ send_window_used (conn_state state) = payload_total sent.

(** Nodes of the receive queue are whole payloads, and [rcv_window_used]
    counts their bytes. *)
Definition whole_payload (node : RX_state) : Prop :=
  byte_used node = 0 /\ byte_left node = Z.of_nat (length (rx_buffer node)).

Definition rx_queue_inv (state : ctcp_state) : Prop :=
  Forall whole_payload (rx_state state)
  /\ rcv_window_used (conn_state state) = held_total (rx_state state).

Definition engine_inv (state : ctcp_state) : Prop :=
  0 <= send_window (conn_state state) < 2 ^ 16
  /\ 0 <= rcv_window (conn_state state) < 2 ^ 16
  /\ send_window_used (conn_state state) <= send_window (conn_state state)
  /\ rcv_window_used (conn_state state) <= rcv_window (conn_state state)
  /\ tx_queue_inv state
  /\ rx_queue_inv state.

(** A segment with the ACK bit and without the FIN bit. *)
Definition pure_ack (segment : ctcp_segment_t) : Prop :=
  has_flag segment ACK = true /\ has_flag segment FIN = false.

(** A segment that gets past the length and checksum tests. *)
Definition well_received (segment : ctcp_segment_t) : bool :=
  (received_len segment =? seg_len segment) && cksum_matches segment.

(** The counters after the cumulative acknowledgement loop has dropped the
    nodes [dropped]: [seqno] is the tag of the last one of them and
    [send_window_used] has lost their payload lengths. *)
Definition drain_counters (cs : Conn_state) (dropped : list TX_state)
  : Conn_state :=
  match dropped with
  | [] => cs
  | _ =>
      set_send_window_used
        (wrap16 (send_window_used cs - payload_total dropped))
        (set_seqno (last (map segment_next_seqno dropped) (seqno cs)) cs)
  end.

(** A tag that an acknowledgement number covers. *)
Definition acked_by (segment_ackno : Z) (node : TX_state) : Prop :=
  0 < segment_next_seqno node <= segment_ackno.

(** The loop stops in front of [kept]. *)
Definition drain_stops (segment_ackno : Z) (kept : list TX_state) : Prop :=
  match kept with
  | [] => True
  | node :: _ => ~ acked_by segment_ackno node
  end.

(** The conditions under which [ctcp_receive] takes a DATA segment into the
    receive queue. *)
Definition accepts_data (state : ctcp_state) (segment : ctcp_segment_t)
  : bool :=
  negb (is_duplicate state segment) && well_received segment
  && fits_rcv_window state segment.

(** ** Two engines over a lossless, in-order carrier *)

(** Modelled from the spec: the host that drives the engines, which is not
    part of ctcp.c.  Side A and side B each run one engine.  The carrier
    hands every datagram of one side's send log to the other side, once and
    in order; [a_delivered] and [b_delivered] count the datagrams of each
    log that have been handed over. *)
Record network := mk_network {
  side_a : result;
  side_b : result;
  a_delivered : nat;
  b_delivered : nat;
  ticks : nat
}.

Definition set_bufspace (space : Z) (c : conn_t) : conn_t :=
  mk_conn (c_input c) space (c_output c) (c_eof c) (c_sent c).

Definition is_destroyed (r : result) : bool :=
  match r with
  | Destroyed _ => true
  | Alive _ => false
  end.

(** Modelled from the spec: the sink has emptied and accepts [space] bytes
    again. *)
Definition drain_sink (space : Z) (r : result) : result :=
  match r with
  | Alive state => Alive (set_conn (set_bufspace space (conn state)) state)
  | Destroyed c => Destroyed c
  end.

(** Modelled from the spec: the datagram-received event; a destroyed
    engine receives nothing. *)
Definition receive_at (fuel : nat) (r : result) (g : ctcp_segment_t)
  : option result :=
  match r with
  | Alive state => ctcp_receive fuel state g
  | Destroyed c => Some (Destroyed c)
  end.

(** Modelled from the spec: the source-readable event; the source is
    readable while its script has an entry left. *)
Definition read_at (fuel : nat) (r : result) : option result :=
  match r with
  | Alive state =>
      match c_input (conn state) with
      | [] => Some (Alive state)
      | _ => option_map Alive (ctcp_read fuel state)
      end
  | Destroyed c => Some (Destroyed c)
  end.

(** Modelled from the spec: the timer-tick event; the registry of a host
    holds its engine, or nothing once the engine is destroyed. *)
Definition timer_at (fuel : nat) (r : result) : option result :=
  match r with
  | Alive state =>
      match ctcp_timer fuel [state] with
      | Some [state'] => Some (Alive state')
      | _ => None
      end
  | Destroyed c =>
      match ctcp_timer fuel [] with
      | Some _ => Some (Destroyed c)
      | None => None
      end
  end.

Definition next_for_b (n : network) : option ctcp_segment_t :=
  nth_error (c_sent (result_conn (side_a n))) (a_delivered n).

Definition next_for_a (n : network) : option ctcp_segment_t :=
  nth_error (c_sent (result_conn (side_b n))) (b_delivered n).

(** Modelled from the spec: the carrier delivers the pending datagrams,
    those for B first, until none is left; [steps] bounds the number of
    deliveries. *)
Fixpoint settle (fuel steps : nat) (n : network) : option network :=
  match next_for_b n, next_for_a n with
  | None, None => Some n
  | Some g, _ =>
      match steps with
      | O => None
      | S steps' =>
          match receive_at fuel (side_b n) g with
          | None => None
          | Some b =>
              settle fuel steps'
                (mk_network (side_a n) b (S (a_delivered n)) (b_delivered n)
                   (ticks n))
          end
      end
  | None, Some g =>
      match steps with
      | O => None
      | S steps' =>
          match receive_at fuel (side_a n) g with
          | None => None
          | Some a =>
              settle fuel steps'
                (mk_network a (side_b n) (a_delivered n) (S (b_delivered n))
                   (ticks n))
          end
      end
  end.

(** Modelled from the spec: one round of the host: the sinks make room, the
    timer ticks on both sides, side A reads, and the carrier delivers until
    it is empty. *)
Definition round (fuel steps : nat) (space : Z) (n : network)
  : option network :=
  match timer_at fuel (drain_sink space (side_a n)),
        timer_at fuel (drain_sink space (side_b n)) with
  | Some a1, Some b1 =>
      match read_at fuel a1 with
      | Some a2 =>
          settle fuel steps
            (mk_network a2 b1 (a_delivered n) (b_delivered n) (S (ticks n)))
      | None => None
      end
  | _, _ => None
  end.

(** Modelled from the spec: rounds until both engines are destroyed, at most
    [rounds] of them. *)
Fixpoint run (fuel steps rounds : nat) (space : Z) (n : network)
  : option network :=
  match rounds with
  | O => Some n
  | S rounds' =>
      if is_destroyed (side_a n) && is_destroyed (side_b n) then Some n
      else
        match round fuel steps space n with
        | Some n' => run fuel steps rounds' space n'
        | None => None
        end
  end.

(** Two fresh engines; side A is given the source script. *)
Definition connect (script : list input_result) (space : Z)
  (cfg_a cfg_b : ctcp_config_t) : network :=
  mk_network
    (Alive (new_engine (mk_conn script space [] false []) cfg_a))
    (Alive (new_engine (mk_conn [] space [] false []) cfg_b))
    0 0 0.

(** The byte stream a source script feeds. *)
Definition source_bytes (script : list input_result) : list byte :=
  flat_map (fun r => match r with
                     | In_bytes bs => bs
                     | _ => []
                     end) script.

(** A stream given in rounds: the reads of each round, then nothing more
    for that round, and after the last round the end of the input in a round
    of its own. *)
Definition paced_script (rounds : list (list (list byte)))
  : list input_result :=
  flat_map (fun reads => map In_bytes reads ++ [In_none]) rounds ++ [In_eof].

(** ** States and segments of a paced transfer

    [sent] counts the payload bytes side A has sent and side B has
    acknowledged. *)

Definition flag_bits_distinct : Prop :=
  FIN <> 0 /\ ACK <> 0 /\ Z.land FIN ACK = 0.

Definition idle_sender (script : list input_result) (space : Z)
  (log : list ctcp_segment_t) (sw rw ov sent : Z) : ctcp_state :=
  mk_state (mk_conn script space [] false log)
    (mk_conn_state (1 + sent) (1 + sent) 1 1 sw 0 rw 0)
    [] [] (mk_ack_state 0 0 ov false) NO_CLOSE.

(** The payload bytes of a run of reads. *)
Definition bytes_of (payloads : list (list byte)) : Z :=
  Z.of_nat (length (concat payloads)).

(** The send queue for [payloads] once transmitted from sequence number
    [base]. *)
Fixpoint tagged (base : Z) (payloads : list (list byte)) : list TX_state :=
  match payloads with
  | [] => []
  | payload :: rest =>
      mk_tx (base + Z.of_nat (length payload)) payload
      :: tagged (base + Z.of_nat (length payload)) rest
  end.

Definition nonempty {A} (l : list A) : bool :=
  match l with
  | [] => false
  | _ => true
  end.

(** Side A with [payloads] transmitted and not yet acknowledged. *)
Definition sending (script : list input_result) (space : Z)
  (log : list ctcp_segment_t) (sw rw ov sent : Z)
  (payloads : list (list byte)) : ctcp_state :=
  mk_state (mk_conn script space [] false log)
    (mk_conn_state (1 + sent) (1 + sent + bytes_of payloads) 1 1 sw
       (bytes_of payloads) rw 0)
    (tagged (1 + sent) payloads) []
    (mk_ack_state 0 0 ov (nonempty payloads)) NO_CLOSE.

Definition closing_sender (space : Z) (log : list ctcp_segment_t)
  (sw rw ov sent : Z) : ctcp_state :=
  mk_state (mk_conn [] space [] false log)
    (mk_conn_state (1 + sent) (1 + sent) 1 1 sw 0 rw 0)
    [] [] (mk_ack_state 0 0 ov true) ACTIVE_CLOSE.

Definition idle_receiver (space : Z) (out : list byte)
  (log : list ctcp_segment_t) (sw rw ov sent last : Z) : ctcp_state :=
  mk_state (mk_conn [] space out false log)
    (mk_conn_state 1 1 (1 + sent) last sw 0 rw 0)
    [] [] (mk_ack_state 0 0 ov false) NO_CLOSE.

Definition closing_receiver (space : Z) (out : list byte)
  (log : list ctcp_segment_t) (sw rw ov sent : Z) : ctcp_state :=
  mk_state (mk_conn [] space out true log)
    (mk_conn_state 1 1 (2 + sent) (1 + sent) sw 0 rw 0)
    [] [] (mk_ack_state 0 0 ov true) PASSIVE_CLOSE.

(** A DATA segment for [payload] at offset [sent] of the stream. *)
Definition data_shape (sent : Z) (payload : list byte) (g : ctcp_segment_t)
  : Prop :=
  seg_seqno g = 1 + sent
  /\ seg_len g = sizeof_segment + Z.of_nat (length payload)
  /\ seg_flags g = 0
  /\ seg_data g = payload
  /\ cksum_matches g = true.

(** A header-only segment. *)
Definition flag_shape (fl seq ack : Z) (g : ctcp_segment_t) : Prop :=
  seg_flags g = fl
  /\ seg_seqno g = seq
  /\ seg_ackno g = ack
  /\ seg_len g = sizeof_segment
  /\ seg_data g = []
  /\ cksum_matches g = true.

(** The DATA segments for a run of reads, and their acknowledgements. *)
Fixpoint data_shapes (sent : Z) (payloads : list (list byte))
  (ds : list ctcp_segment_t) : Prop :=
  match payloads, ds with
  | [], [] => True
  | payload :: payloads', d :: ds' =>
      data_shape sent payload d
      /\ data_shapes (sent + Z.of_nat (length payload)) payloads' ds'
  | _, _ => False
  end.

Fixpoint ack_shapes (sent : Z) (payloads : list (list byte))
  (acks : list ctcp_segment_t) : Prop :=
  match payloads, acks with
  | [], [] => True
  | payload :: payloads', a :: acks' =>
      flag_shape ACK 1 (1 + (sent + Z.of_nat (length payload))) a
      /\ ack_shapes (sent + Z.of_nat (length payload)) payloads' acks'
  | _, _ => False
  end.

(** Both engines idle, nothing on the carrier, [sent] bytes through. *)
Definition paired (cfg_a cfg_b : ctcp_config_t) (sent : Z)
  (script : list input_result) (out : list byte) (k : nat) (n : network)
  : Prop :=
  exists space_a space_b log_a log_b last,
    n = mk_network
          (Alive (idle_sender script space_a log_a (cfg_send_window cfg_a)
                    (cfg_recv_window cfg_a)
                    (timer_overflow (ack_state
                       (new_engine (mk_conn [] 0 [] false []) cfg_a)))
                    sent))
          (Alive (idle_receiver space_b out log_b (cfg_send_window cfg_b)
                    (cfg_recv_window cfg_b)
                    (timer_overflow (ack_state
                       (new_engine (mk_conn [] 0 [] false []) cfg_b)))
                    sent last))
          (length log_a) (length log_b) k.

(** What a read of the paced transfer has to respect: it is not empty and
    not the truncation message, and it fits one segment. *)
Definition sendable (bound : Z) (payload : list byte) : Prop :=
  payload <> []
  /\ is_truncate_message payload = false
  /\ Z.of_nat (length payload) <= bound.

(** The reads of one round: each is sendable and together they stay within
    [limit] bytes. *)
Definition burst_fits (bound limit : Z) (payloads : list (list byte))
  : Prop :=
  Forall (sendable bound) payloads /\ bytes_of payloads <= limit.

(** ** Further observations of the engine *)

(** A run of DATA segments with consecutive sequence numbers: each starts
    where the one before ended, in 32-bit arithmetic, carries no flag and
    declares header plus payload as its length. *)
Fixpoint data_chain (base : Z) (gs : list ctcp_segment_t) : Prop :=
  match gs with
  | [] => True
  | g :: rest =>
      seg_seqno g = base
      /\ seg_flags g = 0
      /\ seg_len g = wrap16 (sizeof_segment + Z.of_nat (length (seg_data g)))
      /\ data_chain (wrap32 (base + Z.of_nat (length (seg_data g)))) rest
  end.

(** The payload bytes of a run of segments. *)
Definition carried (gs : list ctcp_segment_t) : Z :=
  fold_right (fun g acc => Z.of_nat (length (seg_data g)) + acc) 0 gs.

(** A header-only ACK for [ack]. *)
Definition bare_ack (ack : Z) (g : ctcp_segment_t) : Prop :=
  seg_flags g = ACK /\ seg_ackno g = ack /\ seg_data g = []
  /\ seg_len g = sizeof_segment.

(** The reads that the loop of [ctcp_read] takes into the send queue before
    it stops: it stops at the end of the script, at a read of nothing, at
    the end of the input, and at a truncation message. *)
Fixpoint reads_taken (script : list input_result) : list (list byte) :=
  match script with
  | In_bytes (b :: bs) :: rest =>
      if is_truncate_message (b :: bs) then []
      else (b :: bs) :: reads_taken rest
  | _ => []
  end.

(** The entry at which the loop stops, if the script has one left. *)
Definition stop_entry (script : list input_result) : option input_result :=
  nth_error script (length (reads_taken script)).

(** The engine when the loop of [ctcp_read] has taken its reads and the
    entry it stops at off the script. *)
Definition after_reads (state : ctcp_state) (script : list input_result)
  : ctcp_state :=
  set_tx_state (tx_state state ++ map (mk_tx 0) (reads_taken script))
    (set_conn
       (set_input (skipn (S (length (reads_taken script))) script)
          (conn state))
       state).

(** The end of the input is met while a queue holds something. *)
Definition eof_meets_queue (state : ctcp_state) : Prop :=
  stop_entry (c_input (conn state)) = Some In_eof
  /\ (rx_state state <> [] \/ tx_state state <> []
      \/ reads_taken (c_input (conn state)) <> []).

(** When [ctcp_receive] ends in [ctcp_destroy]. *)
Definition destroys (state : ctcp_state) (segment : ctcp_segment_t) : bool :=
  negb (is_duplicate state segment) && well_received segment
  && match segment_type segment with
     | DATA_SEG => false
     | ACK_SEG =>
         match segment_teardown state with
         | PASSIVE_CLOSE => true
         | _ => false
         end
     | FIN_WITH_ACK => true
     | FIN_WITH_NO_ACK =>
         match segment_teardown state with
         | ACTIVE_CLOSE => true
         | _ => false
         end
     end.

(** What one call of [ctcp_timer] does to one engine: the body of the loop,
    once more when the first pass did not move the cursor on. *)
Definition timer_pass (state : ctcp_state) : ctcp_state :=
  let '(state1, advance) := timer_body state in
  if advance then state1 else fst (timer_body state1).

(** [k] calls of [ctcp_timer] in a row, each with two passes per engine. *)
Fixpoint timer_ticks (k : nat) (state_list : list ctcp_state)
  : option (list ctcp_state) :=
  match k with
  | O => Some state_list
  | S k' =>
      match ctcp_timer (S (2 * length state_list)) state_list with
      | Some state_list' => timer_ticks k' state_list'
      | None => None
      end
  end.

(** [seqno] is a positive 32-bit number, and [next_seqno] is [seqno] plus
    the bytes in flight. *)
Definition in_flight (cs : Conn_state) : Prop :=
  0 < seqno cs < 2 ^ 32
  /\ next_seqno cs = wrap32 (seqno cs + send_window_used cs).

Definition flight_inv (state : ctcp_state) : Prop :=
  engine_inv state /\ in_flight (conn_state state).

(** An engine after the window walk has sent [burst] and left the counters
    [cs]: the datagrams are in the log, the retransmission timer is armed
    when there was one. *)
Definition after_burst (state : ctcp_state) (burst : list ctcp_segment_t)
  (cs : Conn_state) : ctcp_state :=
  mk_state (fold_left conn_send burst (conn state)) cs (tx_state state)
    (rx_state state)
    (match burst with
     | [] => ack_state state
     | _ => set_time_out true (ack_state state)
     end)
    (segment_teardown state).

(** The counters with nothing in flight. *)
Definition rewound (cs : Conn_state) : Conn_state :=
  set_next_seqno (seqno cs) (set_send_window_used 0 cs).

(** A teardown is in progress. *)
Definition closing (state : ctcp_state) : Prop :=
  segment_teardown state <> NO_CLOSE.

(** The two kinds of datagram: a DATA segment without flags, or a
    header-only segment with the ACK bit or the FIN bit alone; either one
    with the length it declares and the checksum of its bytes, so that the
    length and checksum tests of [ctcp_receive] let it through. *)
Definition wire_shape (g : ctcp_segment_t) : Prop :=
  well_received g = true
  /\ (seg_flags g = 0
      \/ (seg_data g = [] /\ (seg_flags g = ACK \/ seg_flags g = FIN))).

(** [c'] is [c] after some more datagrams were sent, all of them of the two
    kinds. *)
Definition sends_shaped (c c' : conn_t) : Prop :=
  exists new, c_sent c' = c_sent c ++ new /\ Forall wire_shape new.

(** A send window that leaves room for the header in the 16-bit length. *)
Definition small_window (state : ctcp_state) : Prop :=
  send_window (conn_state state) + sizeof_segment < 2 ^ 16.

(** ** Calls that do not return

    The wait loops [while(q->length > 0);] have an empty body: a call that
    reaches one with a queue that is not empty stays in it, and a call that
    reaches it with an empty queue goes on at once.  What the call handed
    to [conn_send] before the loop is on the wire either way.  The
    functions below follow [ctcp_read] and [ctcp_receive] statement by
    statement and give, for a call that stays in a wait loop, the engine as
    it is while the loop runs. *)
Inductive outcome :=
| Returned (r : result)
| Waiting (state : ctcp_state).

(** The host connection of an outcome, with the log of what was sent. *)
Definition outcome_conn (o : outcome) : conn_t :=
  match o with
  | Returned r => result_conn r
  | Waiting state => conn state
  end.

(** The passive-close block of [ctcp_receive_fin_with_no_ack]. *)
Definition fin_passive_close_outcome (state : ctcp_state) : outcome :=
  let state2 := set_conn (snd (conn_output (conn state) [])) state in
  let state3 := ctcp_send_flags state2 (ackno (conn_state state2)) ACK in
  if 0 <? ll_length (rx_state state3) then Waiting state3
  else
    let state4 := ctcp_send_flags state3 (ackno (conn_state state3)) FIN in
    Returned
      (Alive
         (set_teardown PASSIVE_CLOSE
            (set_ack_state (set_time_out true (ack_state state4)) state4))).

Definition ctcp_receive_fin_with_no_ack_outcome (state : ctcp_state)
  (segment : ctcp_segment_t) : outcome :=
  let cs := conn_state state in
  let cs1 :=
    set_ackno (wrap32 (seg_seqno segment + 1)) (set_last_ackno (ackno cs) cs) in
  let state1 := set_conn_state cs1 state in
  match segment_teardown state1 with
  | ACTIVE_CLOSE =>
      Returned
        (ctcp_destroy
           (ctcp_send_flags state1 (ackno (conn_state state1)) ACK))
  | _ => fin_passive_close_outcome state1
  end.

Definition ctcp_receive_outcome (state : ctcp_state)
  (segment : ctcp_segment_t) : outcome :=
  if is_duplicate state segment
  then Returned
         (Alive (ctcp_send_flags state (last_ackno (conn_state state)) ACK))
  else if negb (received_len segment =? seg_len segment)
  then Returned (Alive state)
  else if negb (cksum_matches segment)
  then Returned (Alive state)
  else
    match segment_type segment with
    | DATA_SEG => Returned (Alive (ctcp_receive_data_segment state segment))
    | ACK_SEG => Returned (receive_ack state segment)
    | FIN_WITH_ACK =>
        let cs := conn_state state in
        let state1 :=
          set_conn_state (set_ackno (wrap32 (seg_seqno segment + 1)) cs)
            state in
        Returned
          (ctcp_destroy
             (ctcp_send_flags state1 (ackno (conn_state state1)) ACK))
    | FIN_WITH_NO_ACK => ctcp_receive_fin_with_no_ack_outcome state segment
    end.

(** The read loop of [ctcp_read]. *)
Fixpoint read_loop_outcome (script : list input_result)
  (state : ctcp_state) : outcome :=
  match script with
  | [] => Returned (Alive state)
  | r :: script' =>
      let state0 := set_conn (set_input script' (conn state)) state in
      match r with
      | In_none => Returned (Alive state0)
      | In_bytes [] => Returned (Alive state0)
      | In_eof =>
          if 0 <? ll_length (rx_state state0) then Waiting state0
          else if 0 <? ll_length (tx_state state0) then Waiting state0
          else
            let state1 := set_teardown ACTIVE_CLOSE state0 in
            let state2 :=
              ctcp_send_flags state1 (ackno (conn_state state1)) FIN in
            Returned
              (Alive
                 (set_ack_state (set_time_out true (ack_state state2))
                    state2))
      | In_bytes bs =>
          if is_truncate_message bs then Returned (Alive state0)
          else
            read_loop_outcome script'
              (set_tx_state (ll_add (tx_state state0) (mk_tx 0 bs)) state0)
      end
  end.

Definition ctcp_read_outcome (state : ctcp_state) : outcome :=
  match read_loop_outcome (c_input (conn state)) state with
  | Returned (Alive state1) =>
      Returned (Alive (ctcp_send_possible_data_segment state1))
  | o => o
  end.

End Engine.

(** ** A reference host *)

(** Modelled from the spec: the sum of the big-endian 16-bit words of a
    byte string, an odd last byte being the high half of its word, as the
    checksum of ctcp_utils.h adds them. *)
Fixpoint sum16 (bs : list byte) : Z :=
  match bs with
  | hi :: lo :: rest => Z_of_byte hi * 256 + Z_of_byte lo + sum16 rest
  | [hi] => Z_of_byte hi * 256
  | [] => 0
  end.

(** Modelled from the spec: one end-around carry of a one's-complement
    sum. *)
Definition fold_carry (s : Z) : Z := Z.shiftr s 16 + Z.land s 65535.

(** Modelled from the spec: the 16-bit one's-complement checksum [cksum] of
    ctcp_utils.h; two carries are enough for segments below 64 KiB. *)
Definition inet_cksum (bs : list byte) : Z :=
  Z.lxor (fold_carry (fold_carry (sum16 bs))) 65535.

(** Modelled from the spec: the constants of ctcp.h and ctcp_sys.h.  The
    wire format gives FIN as bit 0x1 and ACK as bit 0x2, and the scenarios
    use 1000 payload bytes per segment. *)
Definition spec_sys : ctcp_sys :=
  {| FIN := 1; ACK := 2; MAX_SEG_DATA_SIZE := 1000; cksum := inet_cksum |}.

(** ** Concrete engines and segments

    The configuration of the end-to-end scenarios: windows of 2000 bytes, a
    40 ms tick and a 200 ms retransmission timeout. *)

Definition scenario_cfg : ctcp_config_t := mk_config 2000 2000 40 200.

Definition host_conn (script : list input_result) (space : Z) : conn_t :=
  mk_conn script space [] false [].

(** The engine [ctcp_init] returns for a host connection, in an empty
    registry. *)
Definition fresh_engine (script : list input_result) (space : Z)
  : ctcp_state :=
  match fst (ctcp_init (Some (host_conn script space)) scenario_cfg []) with
  | Some state => state
  | None => mk_state (host_conn script space)
              (mk_conn_state 0 0 0 0 0 0 0 0) [] []
              (mk_ack_state 0 0 0 false) NO_CLOSE
  end.

Definition hello : list byte := list_byte_of_string "hello"%string.
Definition world : list byte := list_byte_of_string "world"%string.

(** A DATA segment as a peer running this code on [spec_sys] builds it. *)
Definition data_segment (seq ack : Z) (payload : list byte)
  : ctcp_segment_t :=
  fill_cksum (sys := spec_sys)
    (mk_segment seq ack (sizeof_segment + Z.of_nat (length payload)) 0 0 2000
       payload).

Definition flag_segment (seq ack fl : Z) : ctcp_segment_t :=
  fill_cksum (sys := spec_sys) (mk_segment seq ack sizeof_segment 0 fl 2000 []).

Definition alive_or (default : ctcp_state) (r : option result) : ctcp_state :=
  match r with
  | Some (Alive state) => state
  | _ => default
  end.

(** An engine that has read "hello" and sent it: one node in the send
    queue, the timer armed. *)
Definition sent_hello : ctcp_state :=
  match ctcp_read (sys := spec_sys) 1
          (fresh_engine [In_bytes hello; In_none] 4096) with
  | Some state => state
  | None => fresh_engine [] 4096
  end.

(** An engine after [k] more calls of [ctcp_timer] on a registry that holds
    it alone. *)
Definition ticks_later (k : nat) (state : ctcp_state) : ctcp_state :=
  Nat.iter k
    (fun s => match ctcp_timer (sys := spec_sys) 3 [s] with
              | Some [s'] => s'
              | _ => s
              end)
    state.

(** [sent_hello] after 29 silent ticks: five timeouts of five ticks have
    passed and the sixth is one tick away. *)
Definition before_sixth_timeout : ctcp_state := ticks_later 29 sent_hello.

(** The same for a retransmission timeout equal to the tick period, after
    five silent ticks. *)
Definition fast_cfg : ctcp_config_t := mk_config 2000 2000 40 40.

Definition sent_hello_fast : ctcp_state :=
  match ctcp_read (sys := spec_sys) 1
          (new_engine (host_conn [In_bytes hello; In_none] 4096) fast_cfg)
  with
  | Some state => state
  | None => fresh_engine [] 4096
  end.

Definition before_sixth_timeout_fast : ctcp_state :=
  ticks_later 5 sent_hello_fast.

(** [sent_hello] after three silent ticks. *)
Definition sent_hello_waiting : ctcp_state := ticks_later 3 sent_hello.

(** An engine whose sink is full: the payload it received stays in the
    receive queue. *)
Definition holding_hello : ctcp_state :=
  alive_or (fresh_engine [] 0)
    (ctcp_receive (sys := spec_sys) 1 (fresh_engine [] 0)
       (data_segment 1 1 hello)).

(** An engine that has delivered "hello" ([ackno] 6, [last_ackno] 1) and
    then "world" ([ackno] 11, [last_ackno] 6). *)
Definition got_hello : ctcp_state :=
  alive_or (fresh_engine [] 4096)
    (ctcp_receive (sys := spec_sys) 1 (fresh_engine [] 4096)
       (data_segment 1 1 hello)).

Definition got_hello_world : ctcp_state :=
  alive_or got_hello
    (ctcp_receive (sys := spec_sys) 1 got_hello (data_segment 6 1 world)).

(** "hello" again, with a checksum field that is off by one. *)
Definition corrupt_hello : ctcp_segment_t :=
  set_seg_cksum (seg_cksum (data_segment 1 1 hello) + 1)
    (data_segment 1 1 hello).

(** A payload of 1996 bytes, too much for an engine that holds five. *)
Definition big_payload : list byte := repeat x00 1996.

(** [holding_hello] after the sink has made room again. *)
Definition holding_hello_sink_free : ctcp_state :=
  set_conn (mk_conn [] 4096 [] false []) holding_hello.

(** Three reads of 1000 bytes for a send window of 2000. *)
Definition kilobyte : list byte := repeat x00 1000.

Definition three_kilobytes : list input_result :=
  [In_bytes kilobyte; In_bytes kilobyte; In_bytes kilobyte; In_none].

(** A stream of fifteen bytes that starts with the truncation message. *)
Definition truncate_stream : list byte :=
  list_byte_of_string "###truncate###!"%string.

(** ** The registry as the linked structure of the source

    [state_list] and the [next] and [prev] fields of [ctcp_state] as cells
    of a store.  A [prev] field holds the address of a pointer, which is
    either the global [state_list] or the [next] field of an engine.  An
    operation gives [None] when it reaches through a pointer to a cell that
    is not allocated. *)
Module Registry.

Definition addr := nat.

(** What [prev] points at. *)
Inductive slot :=
| Head
| Next_of (a : addr).

Record cell := mk_cell {
  next : option addr;
  prev : slot;
  engine : ctcp_state
}.

Record heap := mk_heap {
  state_list : option addr;
  cell_at : addr -> option cell
}.

Definition store (a : addr) (c : cell) (h : heap) : heap :=
  mk_heap (state_list h)
    (fun x => if Nat.eqb x a then Some c else cell_at h x).

Definition free (a : addr) (h : heap) : heap :=
  mk_heap (state_list h)
    (fun x => if Nat.eqb x a then None else cell_at h x).

(** [n->prev = s] *)
Definition set_prev (n : addr) (s : slot) (h : heap) : option heap :=
  match cell_at h n with
  | Some c => Some (store n (mk_cell (next c) s (engine c)) h)
  | None => None
  end.

(** [*s = p] *)
Definition write_slot (s : slot) (p : option addr) (h : heap)
  : option heap :=
  match s with
  | Head => Some (mk_heap p (cell_at h))
  | Next_of b =>
      match cell_at h b with
      | Some c => Some (store b (mk_cell p (prev c) (engine c)) h)
      | None => None
      end
  end.

(** The linking of [ctcp_init]; [fresh] is the address that [calloc]
    returns.  The result pairs the returned pointer with the store. *)
Definition ctcp_init (fresh : addr) (c : option conn_t)
  (cfg : ctcp_config_t) (h : heap) : option (option addr * heap) :=
  match c with
  | None => Some (None, h)
  | Some c =>
      let h1 :=
        store fresh (mk_cell (state_list h) Head (new_engine c cfg)) h in
      match
        match state_list h1 with
        | Some b => set_prev b (Next_of fresh) h1
        | None => Some h1
        end
      with
      | Some h2 => Some (Some fresh, mk_heap (Some fresh) (cell_at h2))
      | None => None
      end
  end.

(** The unlinking of [ctcp_destroy], and [free(state)]. *)
Definition ctcp_destroy (state : addr) (h : heap) : option heap :=
  match cell_at h state with
  | None => None
  | Some c =>
      match
        match next c with
        | Some n => set_prev n (prev c) h
        | None => Some h
        end
      with
      | None => None
      | Some h1 =>
          match cell_at h1 state with
          | None => None
          | Some c1 =>
              match write_slot (prev c1) (next c1) h1 with
              | None => None
              | Some h2 => Some (free state h2)
              end
          end
      end
  end.

(** The cells from pointer [p] on are those of [l], in order: each holds
    its engine, points on to the next one, and points back with [prev] at
    the pointer that leads to it, which is [from] for the first. *)
Fixpoint linked (h : heap) (from : slot) (p : option addr)
  (l : list (addr * ctcp_state)) : Prop :=
  match l with
  | [] => p = None
  | (a, st) :: rest =>
      p = Some a
      /\ exists c,
           cell_at h a = Some c
           /\ prev c = from
           /\ engine c = st
           /\ linked h (Next_of a) (next c) rest
  end.

(** The store holds the registry [l]: the engines of [l] at the addresses of
    [l], linked from [state_list], no address twice. *)
Definition registry (h : heap) (l : list (addr * ctcp_state)) : Prop :=
  linked h Head (state_list h) l /\ NoDup (map fst l).

(** The slot a cell after the run [l] points back at. *)
Fixpoint end_slot (from : slot) (l : list (addr * ctcp_state)) : slot :=
  match l with
  | [] => from
  | (a, _) :: rest => end_slot (Next_of a) rest
  end.

Section Walk.

Context {sys : ctcp_sys}.

(** The loop of [ctcp_timer] with its cursor: the body works on the engine
    in the cell under [cur_state], and the cursor moves to [next] when the
    pass reaches the end of the body. *)
Fixpoint ctcp_timer (fuel : nat) (cur_state : option addr) (h : heap)
  : option heap :=
  match fuel with
  | O => None
  | S fuel' =>
      match cur_state with
      | None => Some h
      | Some a =>
          match cell_at h a with
          | None => None
          | Some c =>
              let '(cur1, advance) := timer_body (engine c) in
              let h1 := store a (mk_cell (next c) (prev c) cur1) h in
              if advance then ctcp_timer fuel' (next c) h1
              else ctcp_timer fuel' (Some a) h1
          end
      end
  end.

End Walk.

End Registry.

(** An engine that has read three payloads of 1000 bytes with a send window
    of 2000: two are out, the third waits. *)
Definition read_three_kilobytes : ctcp_state :=
  alive_or (fresh_engine [] 4096)
    (option_map Alive
       (ctcp_read (sys := spec_sys) 1 (fresh_engine three_kilobytes 4096))).

(** An engine that has read the end of its input with nothing queued. *)
Definition closing_engine : ctcp_state :=
  alive_or (fresh_engine [] 4096)
    (option_map Alive
       (ctcp_read (sys := spec_sys) 1 (fresh_engine [In_eof] 4096))).

(** A store with nothing allocated, and the stores after one and two calls
    of [ctcp_init], with [calloc] returning the addresses 1 and 2. *)
Definition no_engines : Registry.heap :=
  Registry.mk_heap None (fun _ => None).

Definition first_engine : ctcp_state :=
  new_engine (host_conn [] 4096) scenario_cfg.

Definition second_engine : ctcp_state :=
  new_engine (host_conn [In_bytes hello; In_none] 4096) scenario_cfg.

Definition one_engine : Registry.heap :=
  match Registry.ctcp_init 1%nat (Some (host_conn [] 4096)) scenario_cfg
          no_engines with
  | Some (_, h) => h
  | None => no_engines
  end.

Definition two_engines : Registry.heap :=
  match Registry.ctcp_init 2%nat
          (Some (host_conn [In_bytes hello; In_none] 4096)) scenario_cfg
          one_engine with
  | Some (_, h) => h
  | None => no_engines
  end.

(** Four reads of 1000 bytes that can be told apart, all available to the
    first source event; the second source event finds nothing to read and
    the third finds the end of the input. *)
Definition ka : list byte := repeat "a"%byte 1000.
Definition kb : list byte := repeat "b"%byte 1000.
Definition kc : list byte := repeat "c"%byte 1000.
Definition kd : list byte := repeat "d"%byte 1000.

Definition four_reads_then_idle : list input_result :=
  [In_bytes ka; In_bytes kb; In_bytes kc; In_bytes kd; In_none; In_none;
   In_eof].
(** * Properties *)

Section EngineProperties.

Context {sys : ctcp_sys}.

(** ** Checksums of emitted datagrams *)

Lemma sends_verified_refl c : sends_verified c c.
Proof. exists []. now rewrite app_nil_r. Qed.

Lemma sends_verified_trans c1 c2 c3 :
  sends_verified c1 c2 -> sends_verified c2 c3 -> sends_verified c1 c3.
Proof.
  intros (n1 & E1 & F1) (n2 & E2 & F2). exists (n1 ++ n2). split.
  - now rewrite E2, E1, app_assoc.
  - apply Forall_app; auto.
Qed.

Lemma sends_verified_same_log c c' :
  c_sent c' = c_sent c -> sends_verified c c'.
Proof. intros E. exists []. now rewrite app_nil_r. Qed.

Lemma fill_cksum_verifies g : cksum_verifies (fill_cksum g).
Proof. reflexivity. Qed.

Lemma ctcp_send_flags_verified state ack fl :
  sends_verified (conn state) (conn (ctcp_send_flags state ack fl)).
Proof.
  eexists. split; [reflexivity|]. repeat constructor.
Qed.

Lemma ctcp_send_data_segment_verified state node :
  sends_verified (conn state) (conn (fst (ctcp_send_data_segment state node))).
Proof.
  eexists. split; [reflexivity|]. repeat constructor.
Qed.

Lemma send_walk_verified nodes : forall state,
  sends_verified (conn state) (conn (fst (send_walk state nodes))).
Proof.
  induction nodes as [|node rest IH]; intros state; simpl.
  - apply sends_verified_refl.
  - destruct (_ <? _); [apply sends_verified_refl|].
    match goal with |- context [send_walk ?s rest] =>
      specialize (IH s); destruct (send_walk s rest) as [s3 r3] end.
    simpl in *. eapply sends_verified_trans; [|exact IH].
    eexists. split; [reflexivity|]. repeat constructor.
Qed.

Lemma ctcp_send_possible_verified state :
  sends_verified (conn state) (conn (ctcp_send_possible_data_segment state)).
Proof.
  unfold ctcp_send_possible_data_segment.
  match goal with |- context [send_walk ?s ?q] =>
    pose proof (send_walk_verified q s) as H; destruct (send_walk s q) end.
  exact H.
Qed.

Lemma conn_output_same_log c bs : c_sent (snd (conn_output c bs)) = c_sent c.
Proof. destruct bs; reflexivity. Qed.

Lemma output_walk_verified nodes : forall state,
  sends_verified (conn state) (conn (fst (output_walk state nodes))).
Proof.
  induction nodes as [|node rest IH]; intros state; simpl.
  - apply sends_verified_refl.
  - destruct (_ || _); [apply sends_verified_refl|].
    match goal with |- context [conn_output ?c ?bs] =>
      pose proof (conn_output_same_log c bs) as E;
      destruct (conn_output c bs) as [n c1] end.
    simpl in E. destruct (_ <=? 0); simpl.
    + eapply sends_verified_trans; [|apply IH].
      eapply sends_verified_trans; [|apply ctcp_send_flags_verified].
      now apply sends_verified_same_log.
    + now apply sends_verified_same_log.
Qed.

Lemma ctcp_output_verified state :
  sends_verified (conn state) (conn (ctcp_output state)).
Proof.
  unfold ctcp_output.
  pose proof (output_walk_verified (rx_state state) state) as H.
  destruct (output_walk state (rx_state state)). exact H.
Qed.


Lemma read_loop_verified fuel script : forall state state',
  read_loop fuel script state = Some state' ->
  sends_verified (conn state) (conn state').
Proof.
  induction script as [|r script IH]; intros state state' H; simpl in H.
  - injection H as <-. apply sends_verified_refl.
  - destruct r as [bs| |].
    + destruct bs as [|b bs].
      * injection H as <-. now apply sends_verified_same_log.
      * destruct (is_truncate_message (b :: bs)).
        -- injection H as <-. now apply sends_verified_same_log.
        -- apply IH in H. eapply sends_verified_trans; [|exact H].
           now apply sends_verified_same_log.
    + injection H as <-. now apply sends_verified_same_log.
    + destruct (busy_wait fuel _); [|discriminate].
      destruct (busy_wait fuel _); [|discriminate].
      injection H as <-. simpl.
      eapply sends_verified_trans; [|apply ctcp_send_flags_verified].
      now apply sends_verified_same_log.
Qed.

Lemma ctcp_read_verified fuel state state' :
  ctcp_read fuel state = Some state' ->
  sends_verified (conn state) (conn state').
Proof.
  unfold ctcp_read. intros H.
  destruct (read_loop fuel _ state) as [state1|] eqn:E; [|discriminate].
  injection H as <-. apply read_loop_verified in E.
  eapply sends_verified_trans; [exact E|apply ctcp_send_possible_verified].
Qed.

Lemma receive_ack_same_log state segment :
  c_sent (result_conn (receive_ack state segment)) = c_sent (conn state).
Proof.
  unfold receive_ack.
  destruct (segment_teardown state); try reflexivity;
    (destruct (ll_front (tx_state state)); [|reflexivity];
     destruct (_ <=? _); [|reflexivity];
     destruct (ack_drain _ _ _); reflexivity).
Qed.

Lemma fin_passive_close_verified fuel state r :
  fin_passive_close fuel state = Some r ->
  sends_verified (conn state) (result_conn r).
Proof.
  unfold fin_passive_close. intros H.
  destruct (busy_wait fuel _); [|discriminate]. injection H as <-.
  change (result_conn (Alive ?s)) with (conn s).
  change (conn (set_teardown ?t ?s)) with (conn s).
  change (conn (set_ack_state ?a ?s)) with (conn s).
  eapply sends_verified_trans; [|apply ctcp_send_flags_verified].
  eapply sends_verified_trans; [|apply ctcp_send_flags_verified].
  now apply sends_verified_same_log.
Qed.

Lemma ctcp_receive_fin_verified fuel state segment r :
  ctcp_receive_fin_with_no_ack fuel state segment = Some r ->
  sends_verified (conn state) (result_conn r).
Proof.
  unfold ctcp_receive_fin_with_no_ack. intros H.
  set (state1 := set_conn_state _ state) in H.
  destruct (segment_teardown state1).
  - now apply fin_passive_close_verified in H.
  - injection H as <-.
    change (result_conn (ctcp_destroy ?s)) with (conn s).
    eapply sends_verified_trans; [|apply ctcp_send_flags_verified].
    now apply sends_verified_same_log.
  - now apply fin_passive_close_verified in H.
Qed.

Lemma ctcp_receive_verified fuel state segment r :
  ctcp_receive fuel state segment = Some r ->
  sends_verified (conn state) (result_conn r).
Proof.
  unfold ctcp_receive. intros H.
  destruct (is_duplicate state segment).
  { injection H as <-. apply ctcp_send_flags_verified. }
  destruct (negb (received_len segment =? seg_len segment)).
  { injection H as <-. apply sends_verified_refl. }
  destruct (negb (cksum_matches segment)).
  { injection H as <-. apply sends_verified_refl. }
  destruct (segment_type segment).
  - injection H as <-. unfold ctcp_receive_data_segment. simpl.
    eapply sends_verified_trans; [|apply ctcp_output_verified].
    destruct (fits_rcv_window state segment);
      now apply sends_verified_same_log.
  - injection H as <-. apply sends_verified_same_log.
    apply receive_ack_same_log.
  - injection H as <-. simpl.
    eapply sends_verified_trans; [|apply ctcp_send_flags_verified].
    now apply sends_verified_same_log.
  - now apply ctcp_receive_fin_verified in H.
Qed.

Lemma timer_body_verified state :
  sends_verified (conn state) (conn (fst (timer_body state))).
Proof.
  unfold timer_body. destruct (time_out (ack_state state)).
  - destruct (_ =? _); [|now apply sends_verified_same_log].
    destruct (_ =? 6); simpl.
    + eapply sends_verified_trans; [|apply ctcp_send_flags_verified].
      now apply sends_verified_same_log.
    + destruct (segment_teardown state); simpl;
        (eapply sends_verified_trans;
         [|first [apply ctcp_send_flags_verified
                 |apply ctcp_send_possible_verified]]);
        now apply sends_verified_same_log.
  - destruct (0 <? _); simpl.
    + eapply sends_verified_trans;
        [apply ctcp_send_possible_verified|apply ctcp_output_verified].
    + apply ctcp_send_possible_verified.
Qed.

Lemma timer_loop_verified fuel : forall visited pending l,
  timer_loop fuel visited pending = Some l ->
  exists l2, l = visited ++ l2
    /\ Forall2 (fun s s' => sends_verified (conn s) (conn s')) pending l2.
Proof.
  induction fuel as [|fuel IH]; intros visited pending l H; simpl in H.
  - discriminate.
  - destruct pending as [|cur rest].
    + injection H as <-. exists []. split; [now rewrite app_nil_r|constructor].
    + pose proof (timer_body_verified cur) as Hb.
      destruct (timer_body cur) as [cur1 advance]. simpl in Hb.
      destruct advance.
      * apply IH in H as (l2 & -> & F). exists (cur1 :: l2). split.
        -- now rewrite <- app_assoc.
        -- now constructor.
      * apply IH in H as (l2 & -> & F). exists l2. split; [reflexivity|].
        inversion F; subst. constructor; [|assumption].
        eapply sends_verified_trans; eassumption.
Qed.

(** ** Receiving: acknowledgements *)

Lemma last_cons_default {A} (l : list A) (a d : A) :
  last (a :: l) d = last l a.
Proof.
  revert a d. induction l as [|b l IH]; intros a d; [reflexivity|].
  change (last (a :: b :: l) d) with (last (b :: l) d).
  now rewrite (IH b d), (IH b a).
Qed.

Lemma wrap16_sub_sub u s t :
  wrap16 (wrap16 (u - s) - t) = wrap16 (u - (s + t)).
Proof.
  unfold wrap16. rewrite Zminus_mod_idemp_l. f_equal. lia.
Qed.

Lemma ack_drain_spec segment_ackno : forall nodes cs,
  exists dropped kept,
    nodes = dropped ++ kept
    /\ Forall (acked_by segment_ackno) dropped
    /\ drain_stops segment_ackno kept
    /\ ack_drain segment_ackno cs nodes = (drain_counters cs dropped, kept).
Proof.
  induction nodes as [|node rest IH]; intros cs.
  - exists [], []. repeat split; constructor.
  - simpl.
    destruct ((segment_next_seqno node <=? segment_ackno)
              && (0 <? segment_next_seqno node)) eqn:E.
    + apply andb_true_iff in E as [E1 E2].
      apply Z.leb_le in E1. apply Z.ltb_lt in E2.
      match goal with |- context [ack_drain _ ?c rest] =>
        destruct (IH c) as (dropped & kept & -> & F & S & ->) end.
      exists (node :: dropped), kept. repeat split; auto.
      * constructor; [split; assumption|assumption].
      * f_equal. destruct dropped as [|d dropped]; [simpl|].
        { unfold payload_total; simpl. now rewrite Z.add_0_r. }
        unfold drain_counters.
        cbn [send_window_used seqno set_send_window_used set_seqno
             next_seqno ackno last_ackno send_window rcv_window
             rcv_window_used].
        rewrite wrap16_sub_sub.
        change (map segment_next_seqno (node :: d :: dropped))
          with (segment_next_seqno node
                  :: map segment_next_seqno (d :: dropped)).
        rewrite (last_cons_default _ (segment_next_seqno node) (seqno cs)).
        reflexivity.
    + exists [], (node :: rest). repeat split; [constructor|].
      unfold drain_stops, acked_by. intros [H1 H2].
      apply andb_false_iff in E as [E|E].
      * apply Z.leb_gt in E. lia.
      * apply Z.ltb_ge in E. lia.
Qed.

Lemma pure_ack_not_duplicate state segment :
  has_flag segment ACK = true -> is_duplicate state segment = false.
Proof.
  intros H. unfold is_duplicate. rewrite H. simpl. apply andb_false_r.
Qed.

Lemma pure_ack_type segment :
  pure_ack segment -> segment_type segment = ACK_SEG.
Proof. intros [Ha Hf]. unfold segment_type. now rewrite Hf, Ha. Qed.

Lemma drain_counters_frame cs dropped :
  ackno (drain_counters cs dropped) = ackno cs
  /\ last_ackno (drain_counters cs dropped) = last_ackno cs
  /\ rcv_window_used (drain_counters cs dropped) = rcv_window_used cs
  /\ next_seqno (drain_counters cs dropped) = next_seqno cs.
Proof. destruct dropped; repeat split. Qed.

(** C10: a pure ACK received while no teardown is in progress keeps
    [ackno], [last_ackno], [rcv_window_used] and the receive queue; with an
    empty send queue it leaves the whole engine as it was, timer flag,
    [counter] and [time_out_num] included. *)
Theorem pure_ack_frame fuel state segment :
  pure_ack segment ->
  segment_teardown state = NO_CLOSE ->
  exists state',
    ctcp_receive fuel state segment = Some (Alive state')
    /\ ackno (conn_state state') = ackno (conn_state state)
    /\ last_ackno (conn_state state') = last_ackno (conn_state state)
    /\ rcv_window_used (conn_state state')
       = rcv_window_used (conn_state state)
    /\ rx_state state' = rx_state state
    /\ (tx_state state = [] -> state' = state).
Proof.
  intros Hp Ht. unfold ctcp_receive.
  rewrite (pure_ack_not_duplicate state segment (proj1 Hp)).
  destruct (negb (received_len segment =? seg_len segment)).
  { exists state. repeat split. }
  destruct (negb (cksum_matches segment)).
  { exists state. repeat split. }
  rewrite (pure_ack_type segment Hp). unfold receive_ack. rewrite Ht.
  destruct (tx_state state) as [|front rest] eqn:Q; cbn [ll_front hd_error].
  { exists state. repeat split. }
  destruct (segment_next_seqno front <=? seg_ackno segment).
  2:{ exists state. repeat split. }
  destruct (ack_drain_spec (seg_ackno segment) (front :: rest)
              (conn_state state)) as (dropped & kept & _ & _ & _ & E).
  rewrite E.
  destruct (drain_counters_frame (conn_state state) dropped)
    as (F1 & F2 & F3 & _).
  eexists. split; [reflexivity|].
  repeat split; try assumption; discriminate.
Qed.

(** C6, as the code has it: a pure ACK that passes the length and checksum
    tests, received while no teardown is in progress, changes the engine
    only when the send queue is not empty and the acknowledgement number
    reaches the tag of its head. Then the longest run of heads whose tag is
    positive and not above the acknowledgement number is dropped, [seqno]
    becomes the tag of the last dropped node, [send_window_used] loses their
    payload lengths, the timer flag is cleared if the acknowledgement
    number equals [next_seqno] and kept otherwise, and [counter] and
    [time_out_num] become 0. *)
Theorem cumulative_ack_effect fuel state segment :
  pure_ack segment ->
  well_received segment = true ->
  segment_teardown state = NO_CLOSE ->
  match tx_state state with
  | [] => ctcp_receive fuel state segment = Some (Alive state)
  | front :: _ =>
      if segment_next_seqno front <=? seg_ackno segment
      then
        exists dropped kept,
          tx_state state = dropped ++ kept
          /\ Forall (acked_by (seg_ackno segment)) dropped
          /\ drain_stops (seg_ackno segment) kept
          /\ ctcp_receive fuel state segment
             = Some (Alive
                 (set_ack_state
                    (set_time_out_num 0
                       (set_counter 0
                          (if seg_ackno segment
                                =? next_seqno (conn_state state)
                           then set_time_out false (ack_state state)
                           else ack_state state)))
                    (set_tx_state kept
                       (set_conn_state
                          (drain_counters (conn_state state) dropped)
                          state))))
      else ctcp_receive fuel state segment = Some (Alive state)
  end.
Proof.
  intros Hp Hw Ht. unfold ctcp_receive.
  rewrite (pure_ack_not_duplicate state segment (proj1 Hp)).
  unfold well_received in Hw. apply andb_true_iff in Hw as [Hl Hc].
  rewrite Hl, Hc. simpl.
  rewrite (pure_ack_type segment Hp). unfold receive_ack. rewrite Ht.
  destruct (tx_state state) as [|front rest] eqn:Q; cbn [ll_front hd_error];
    [reflexivity|].
  destruct (segment_next_seqno front <=? seg_ackno segment); [|reflexivity].
  destruct (ack_drain_spec (seg_ackno segment) (front :: rest)
              (conn_state state)) as (dropped & kept & Eq & F & S & E).
  exists dropped, kept. repeat split; try assumption.
  rewrite E.
  destruct (drain_counters_frame (conn_state state) dropped)
    as (_ & _ & _ & ->).
  reflexivity.
Qed.

(** ** Receiving: data, duplicates and discarded segments *)

Lemma set_rcv_window_used_same cs :
  cs = set_rcv_window_used (rcv_window_used cs) cs.
Proof. now destruct cs. Qed.

(** What delivery to the sink leaves alone: it only removes payloads from
    the front of the receive queue and lowers [rcv_window_used]. *)
Lemma output_walk_frame nodes : forall state,
  exists delivered v,
    map rx_buffer nodes
    = delivered ++ map rx_buffer (snd (output_walk state nodes))
    /\ conn_state (fst (output_walk state nodes))
       = set_rcv_window_used v (conn_state state)
    /\ tx_state (fst (output_walk state nodes)) = tx_state state
    /\ ack_state (fst (output_walk state nodes)) = ack_state state
    /\ segment_teardown (fst (output_walk state nodes))
       = segment_teardown state.
Proof.
  induction nodes as [|node rest IH]; intros state; simpl.
  - exists [], (rcv_window_used (conn_state state)).
    repeat split. apply set_rcv_window_used_same.
  - destruct (_ || _).
    { exists [], (rcv_window_used (conn_state state)).
      repeat split. apply set_rcv_window_used_same. }
    destruct (conn_output _ _) as [byte_sent c1].
    destruct (_ <=? 0).
    + match goal with |- context [output_walk ?s rest] =>
        destruct (IH s) as (delivered & v & E & C & T & A & D) end.
      exists (rx_buffer node :: delivered), v.
      rewrite C, T, A, D. repeat split. simpl. now rewrite <- E.
    + exists [], (wrap16 (rcv_window_used (conn_state state) - byte_sent)).
      repeat split.
Qed.

Lemma ctcp_output_frame state :
  exists delivered v,
    map rx_buffer (rx_state state)
    = delivered ++ map rx_buffer (rx_state (ctcp_output state))
    /\ conn_state (ctcp_output state)
       = set_rcv_window_used v (conn_state state)
    /\ tx_state (ctcp_output state) = tx_state state
    /\ ack_state (ctcp_output state) = ack_state state
    /\ segment_teardown (ctcp_output state) = segment_teardown state.
Proof.
  unfold ctcp_output.
  destruct (output_walk_frame (rx_state state) state)
    as (delivered & v & E & C & T & A & D).
  destruct (output_walk state (rx_state state)) as [state1 q].
  exists delivered, v. repeat split; assumption.
Qed.

(** C2, as the code has it.  The duplicate test comes first: a segment whose
    sequence number is [last_ackno] and not [ackno], without the ACK bit,
    is answered with an ACK for [last_ackno] whatever its length field and
    checksum; queues and counters stay.  Any other segment whose length
    field or checksum is wrong leaves the engine exactly as it was, so that
    nothing is sent.  A valid DATA segment that does not fit the receive
    window is not queued and [ackno] and [last_ackno] stay, but delivery to
    the sink still runs on the queue as it is: payloads may leave its front
    and [rcv_window_used] may drop; send queue, timer and teardown stay. *)
Theorem discarded_segment_effect fuel state segment :
  (is_duplicate state segment = true ->
   ctcp_receive fuel state segment
   = Some (Alive (ctcp_send_flags state (last_ackno (conn_state state)) ACK)))
  /\ (is_duplicate state segment = false ->
      well_received segment = false ->
      ctcp_receive fuel state segment = Some (Alive state))
  /\ (is_duplicate state segment = false ->
      well_received segment = true ->
      segment_type segment = DATA_SEG ->
      fits_rcv_window state segment = false ->
      ctcp_receive fuel state segment = Some (Alive (ctcp_output state))
      /\ exists delivered v,
           map rx_buffer (rx_state state)
           = delivered ++ map rx_buffer (rx_state (ctcp_output state))
           /\ conn_state (ctcp_output state)
              = set_rcv_window_used v (conn_state state)
           /\ tx_state (ctcp_output state) = tx_state state
           /\ ack_state (ctcp_output state) = ack_state state
           /\ segment_teardown (ctcp_output state) = segment_teardown state).
Proof.
  unfold ctcp_receive, well_received. split; [|split].
  - intros ->. reflexivity.
  - intros -> Hw. apply andb_false_iff in Hw as [-> | ->]; [reflexivity|].
    now destruct (negb (received_len segment =? seg_len segment)).
  - intros -> Hw Ht Hf. apply andb_true_iff in Hw as [-> ->]. simpl.
    rewrite Ht. unfold ctcp_receive_data_segment. rewrite Hf.
    split; [reflexivity|apply ctcp_output_frame].
Qed.

(** C3, as the code has it: a DATA segment is appended to the receive queue
    exactly when it is not a duplicate in the sense of the first test
    (sequence number equal to [last_ackno] and not to [ackno]), its length
    field and checksum are right and its payload fits the receive window.
    Its sequence number is not compared with [ackno] in any other way.
    When it is appended, [ackno] becomes its sequence number plus its
    payload length; otherwise the queue only loses payloads at its front. *)
Theorem data_segment_acceptance fuel state segment :
  segment_type segment = DATA_SEG ->
  if accepts_data state segment
  then
    ctcp_receive fuel state segment
    = Some (Alive (ctcp_output (accept_data state segment)))
    /\ rx_state (accept_data state segment)
       = rx_state state
         ++ [mk_rx 0 (Z.of_nat (length (seg_data segment)))
               (seg_data segment)]
    /\ ackno (conn_state (accept_data state segment))
       = wrap32 (seg_seqno segment + seg_len segment - sizeof_segment)
  else
    exists state' delivered,
      ctcp_receive fuel state segment = Some (Alive state')
      /\ map rx_buffer (rx_state state)
         = delivered ++ map rx_buffer (rx_state state').
Proof.
  intros Ht. unfold accepts_data, ctcp_receive.
  destruct (is_duplicate state segment); simpl.
  { exists (ctcp_send_flags state (last_ackno (conn_state state)) ACK), [].
    split; reflexivity. }
  unfold well_received.
  destruct (received_len segment =? seg_len segment); simpl.
  2:{ exists state, []. split; reflexivity. }
  destruct (cksum_matches segment); simpl.
  2:{ exists state, []. split; reflexivity. }
  rewrite Ht. unfold ctcp_receive_data_segment.
  destruct (fits_rcv_window state segment).
  - split; [reflexivity|split; [|reflexivity]].
    unfold accept_data, received_len, ll_add, sizeof_segment.
    cbn [rx_state set_rx_state]. do 3 f_equal. lia.
  - destruct (ctcp_output_frame state) as (delivered & v & E & _).
    exists (ctcp_output state), delivered. split; [reflexivity|exact E].
Qed.

(** C7, as the code has it: a segment without the ACK bit whose sequence
    number is [last_ackno] and differs from [ackno] leaves queues, counters,
    timer and teardown state as they are, and exactly one segment is sent:
    a bare ACK carrying [last_ackno].  Segments acknowledged earlier than
    that are not recognised. *)
Theorem duplicate_replay_effect fuel state segment :
  seg_seqno segment = last_ackno (conn_state state) ->
  seg_seqno segment <> ackno (conn_state state) ->
  has_flag segment ACK = false ->
  exists ack state',
    ctcp_receive fuel state segment = Some (Alive state')
    /\ state' = set_conn (conn_send (conn state) ack) state
    /\ c_sent (conn state') = c_sent (conn state) ++ [ack]
    /\ seg_ackno ack = last_ackno (conn_state state)
    /\ seg_flags ack = ACK
    /\ seg_data ack = []
    /\ cksum_verifies ack.
Proof.
  intros Hs Hn Ha. unfold ctcp_receive, is_duplicate.
  rewrite Ha. apply Z.eqb_eq in Hs. apply Z.eqb_neq in Hn.
  rewrite Hs, Hn. simpl.
  eexists. eexists. split; [reflexivity|]. repeat split.
Qed.

(** ** The timer walk and the wait loops *)

Lemma busy_wait_never_returns fuel length :
  0 < length -> busy_wait fuel length = None.
Proof.
  intros H. induction fuel as [|fuel IH]; simpl; [reflexivity|].
  apply Z.ltb_lt in H. now rewrite H.
Qed.

Lemma busy_wait_returns fuel length :
  length <= 0 -> busy_wait (S fuel) length = Some tt.
Proof. intros H. simpl. apply Z.ltb_ge in H. now rewrite H. Qed.

Lemma wrap8_7 : wrap8 (6 + 1) = 7.
Proof. reflexivity. Qed.

(** A pass that stays on its engine is followed by one that moves on. *)
Lemma timer_body_second_pass cur cur1 :
  timer_body cur = (cur1, false) -> snd (timer_body cur1) = true.
Proof.
  unfold timer_body at 1.
  destruct (time_out (ack_state cur)).
  2:{ destruct (0 <? _); intros H; discriminate. }
  destruct (_ =? _); [|intros H; discriminate].
  destruct (_ =? 6) eqn:E6.
  2:{ destruct (segment_teardown _); intros H; discriminate. }
  intros H. injection H as <-. apply Z.eqb_eq in E6.
  cbn [time_out_num set_time_out_num set_counter] in E6.
  unfold timer_body.
  cbn [ack_state set_teardown set_ack_state time_out set_time_out
       ctcp_send_flags set_conn counter set_counter timer_overflow
       time_out_num set_time_out_num].
  destruct (_ =? _); [|reflexivity].
  rewrite E6, wrap8_7. cbn [Z.eqb Pos.eqb].
  cbn [segment_teardown]. reflexivity.
Qed.

Lemma timer_loop_terminates : forall pending visited fuel,
  (2 * length pending < fuel)%nat ->
  exists l, timer_loop fuel visited pending = Some l.
Proof.
  induction pending as [|cur rest IH]; intros visited fuel Hf.
  - destruct fuel; [simpl in Hf; lia|]. simpl. eauto.
  - destruct fuel as [|fuel]; [simpl in Hf; lia|].
    cbn [timer_loop]. destruct (timer_body cur) as [cur1 advance] eqn:E.
    destruct advance.
    + apply IH. simpl in *. lia.
    + apply timer_body_second_pass in E.
      destruct fuel as [|fuel]; [simpl in Hf; lia|].
      cbn [timer_loop].
      destruct (timer_body cur1) as [cur2 advance2]. simpl in E. subst.
      apply IH. simpl in *. lia.
Qed.

(** The timer handler returns for every registry, given two passes per
    engine. *)
Lemma ctcp_timer_terminates state_list :
  exists l, ctcp_timer (S (2 * length state_list)) state_list = Some l.
Proof. apply timer_loop_terminates. lia. Qed.

(** The wait before the FIN of [ctcp_read] never ends while a node is queued
    for sending. *)
Lemma read_loop_eof_spins fuel state script :
  0 < ll_length (tx_state state) ->
  read_loop fuel (In_eof :: script) state = None.
Proof.
  intros H. cbn [read_loop].
  destruct (busy_wait fuel (ll_length (rx_state _))); [|reflexivity].
  change (tx_state (set_conn ?c state)) with (tx_state state).
  now rewrite busy_wait_never_returns.
Qed.

Lemma ll_length_add_pos {A} (l : list A) (x : A) : 0 < ll_length (ll_add l x).
Proof.
  unfold ll_length, ll_add. rewrite length_app. simpl. lia.
Qed.

Lemma read_loop_bytes fuel state b bs script :
  is_truncate_message (b :: bs) = false ->
  read_loop fuel (In_bytes (b :: bs) :: script) state
  = read_loop fuel script
      (set_tx_state
         (ll_add (tx_state state) (mk_tx 0 (b :: bs)))
         (set_conn (set_input script (conn state)) state)).
Proof. intros H. cbn [read_loop]. now rewrite H. Qed.

(** A read that is followed by the end of the input in the same call of
    [ctcp_read] never returns. *)
Lemma ctcp_read_data_then_eof_spins fuel state b bs script :
  c_input (conn state) = In_bytes (b :: bs) :: In_eof :: script ->
  is_truncate_message (b :: bs) = false ->
  ctcp_read fuel state = None.
Proof.
  intros Hi Ht. unfold ctcp_read. rewrite Hi.
  rewrite (read_loop_bytes fuel state b bs _ Ht).
  rewrite read_loop_eof_spins; [reflexivity|].
  cbn [tx_state set_tx_state]. apply ll_length_add_pos.
Qed.

(** The wait of the passive close never ends while a payload is held for the
    sink. *)
Lemma fin_passive_close_spins fuel state :
  0 < ll_length (rx_state state) -> fin_passive_close fuel state = None.
Proof.
  intros H. unfold fin_passive_close.
  change (rx_state (ctcp_send_flags ?s ?a ?f)) with (rx_state s).
  change (rx_state (set_conn ?c state)) with (rx_state state).
  now rewrite busy_wait_never_returns.
Qed.

(** ** The engine invariant *)

Lemma payload_total_nonneg q : 0 <= payload_total q.
Proof.
  induction q as [|node q IH]; simpl; [lia|]. unfold buffer_size. lia.
Qed.

Lemma held_total_app q1 q2 :
  held_total (q1 ++ q2) = held_total q1 + held_total q2.
Proof. induction q1 as [|node q1 IH]; simpl; lia. Qed.

Lemma wrap16_small z : 0 <= z < 2 ^ 16 -> wrap16 z = z.
Proof. apply Z.mod_small. Qed.

(** The invariant reads the queues and five of the counters only. *)
Lemma engine_inv_frame s s' :
  tx_state s' = tx_state s ->
  rx_state s' = rx_state s ->
  seqno (conn_state s') = seqno (conn_state s) ->
  send_window (conn_state s') = send_window (conn_state s) ->
  send_window_used (conn_state s') = send_window_used (conn_state s) ->
  rcv_window (conn_state s') = rcv_window (conn_state s) ->
  rcv_window_used (conn_state s') = rcv_window_used (conn_state s) ->
  engine_inv s -> engine_inv s'.
Proof.
  unfold engine_inv, tx_queue_inv, rx_queue_inv.
  intros -> -> -> -> -> -> ->. trivial.
Qed.

Lemma ctcp_send_flags_inv state ack fl :
  engine_inv state -> engine_inv (ctcp_send_flags state ack fl).
Proof. now apply engine_inv_frame. Qed.

(** *** Sending *)

Lemma send_walk_inv : forall nodes state sent_old unsent_old,
  nodes = sent_old ++ unsent_old ->
  Forall untagged unsent_old ->
  0 <= send_window_used (conn_state state) ->
  send_window_used (conn_state state) + payload_total sent_old
    <= send_window (conn_state state) ->
  send_window (conn_state state) < 2 ^ 16 ->
  exists sent unsent,
    snd (send_walk state nodes) = sent ++ unsent
    /\ tags_from (next_seqno (conn_state state)) sent
    /\ Forall untagged unsent
    /\ send_window_used (conn_state (fst (send_walk state nodes)))
       = send_window_used (conn_state state) + payload_total sent
    /\ send_window_used (conn_state (fst (send_walk state nodes)))
       <= send_window (conn_state state)
    /\ seqno (conn_state (fst (send_walk state nodes)))
       = seqno (conn_state state)
    /\ send_window (conn_state (fst (send_walk state nodes)))
       = send_window (conn_state state)
    /\ rcv_window (conn_state (fst (send_walk state nodes)))
       = rcv_window (conn_state state)
    /\ rcv_window_used (conn_state (fst (send_walk state nodes)))
       = rcv_window_used (conn_state state)
    /\ rx_state (fst (send_walk state nodes)) = rx_state state.
Proof.
  induction nodes as [|node rest IH];
    intros state sent_old unsent_old Hq Hu H0 Hw Hb.
  - exists [], []. simpl.
    pose proof (payload_total_nonneg sent_old). repeat split; try lia.
    constructor.
  - cbn [send_walk].
    destruct (send_window (conn_state state)
              <? buffer_size node + send_window_used (conn_state state))
      eqn:Efit.
    + apply Z.ltb_lt in Efit.
      destruct sent_old as [|s0 sent_old'].
      * exists [], (node :: rest). simpl in *. subst unsent_old.
        repeat split; try lia. assumption.
      * exfalso. injection Hq as <- _.
        pose proof (payload_total_nonneg sent_old'). simpl in Hw. lia.
    + apply Z.ltb_ge in Efit.
      assert (Hsize : 0 <= buffer_size node) by (unfold buffer_size; lia).
      set (state2 :=
             set_conn_state
               (set_send_window_used
                  (wrap16
                     (send_window_used
                        (conn_state (fst (ctcp_send_data_segment state node)))
                      + buffer_size node))
                  (conn_state (fst (ctcp_send_data_segment state node))))
               (fst (ctcp_send_data_segment state node))).
      assert (Hused2 : send_window_used (conn_state state2)
                       = send_window_used (conn_state state)
                         + buffer_size node).
      { subst state2. cbn. apply wrap16_small. lia. }
      assert (Hrest : exists sent_old' unsent_old',
                 rest = sent_old' ++ unsent_old'
                 /\ Forall untagged unsent_old'
                 /\ send_window_used (conn_state state2)
                    + payload_total sent_old'
                    <= send_window (conn_state state2)).
      { destruct sent_old as [|s0 sent_old'].
        - simpl in Hq. subst unsent_old. inversion Hu; subst.
          exists [], rest. rewrite Hused2. simpl.
          repeat split; [assumption|]. change (send_window _)
            with (send_window (conn_state state)). lia.
        - injection Hq as <- ->. exists sent_old', unsent_old.
          rewrite Hused2. repeat split; [assumption|].
          change (send_window (conn_state state2))
            with (send_window (conn_state state)).
          simpl in Hw. lia. }
      destruct Hrest as (sent_old' & unsent_old' & Hq' & Hu' & Hw').
      destruct (IH state2 sent_old' unsent_old' Hq' Hu')
        as (sent & unsent & E & T & U & Eu & Le & F1 & F2 & F3 & F4 & F5);
        [rewrite Hused2; lia|exact Hw'|exact Hb|].
      change (ctcp_send_data_segment state node)
        with (fst (ctcp_send_data_segment state node),
              snd (ctcp_send_data_segment state node)).
      cbv iota. fold state2.
      destruct (send_walk state2 rest) as [state3 rest3].
      cbn [fst snd] in *. subst rest3.
      exists (snd (ctcp_send_data_segment state node) :: sent), unsent.
      rewrite Eu, Hused2, F1, F2, F3, F4, F5.
      repeat split; try assumption; try reflexivity.
      * cbn [payload_total fold_right]. fold (payload_total sent).
        change (buffer_size (snd (ctcp_send_data_segment state node)))
          with (buffer_size node). lia.
      * rewrite <- Hused2, <- Eu. exact Le.
Qed.

Lemma ctcp_send_possible_inv state :
  engine_inv state -> engine_inv (ctcp_send_possible_data_segment state).
Proof.
  intros (Hsw & Hrw & Hsu & Hru & (sent_old & unsent_old & Hq & Ht & Hu & Hs)
          & Hrx).
  unfold ctcp_send_possible_data_segment.
  set (state0 :=
         set_conn_state
           (set_next_seqno (seqno (conn_state state))
              (set_send_window_used 0 (conn_state state)))
           state).
  destruct (send_walk_inv (tx_state state) state0 sent_old unsent_old Hq Hu)
    as (sent & unsent & E & T & U & Eu & Le & F1 & F2 & F3 & F4 & F5).
  { cbn. lia. }
  { cbn. lia. }
  { cbn. lia. }
  destruct (send_walk state0 (tx_state state)) as [state1 q].
  cbn [fst snd] in *. subst q.
  unfold engine_inv, tx_queue_inv, rx_queue_inv.
  cbn [conn_state set_tx_state tx_state rx_state].
  rewrite F1, F2, F3, F4, F5. cbn in Le, Eu |- *.
  repeat split; try lia; try apply Hrx.
  exists sent, unsent. repeat split; assumption.
Qed.

(** *** Acknowledgements *)

Lemma ack_drain_inv segment_ackno : forall sent cs unsent,
  tags_from (seqno cs) sent ->
  Forall untagged unsent ->
  send_window_used cs = payload_total sent ->
  send_window_used cs < 2 ^ 16 ->
  exists sent',
    snd (ack_drain segment_ackno cs (sent ++ unsent)) = sent' ++ unsent
    /\ tags_from (seqno (fst (ack_drain segment_ackno cs (sent ++ unsent))))
         sent'
    /\ send_window_used (fst (ack_drain segment_ackno cs (sent ++ unsent)))
       = payload_total sent'
    /\ send_window_used (fst (ack_drain segment_ackno cs (sent ++ unsent)))
       <= send_window_used cs
    /\ send_window (fst (ack_drain segment_ackno cs (sent ++ unsent)))
       = send_window cs
    /\ rcv_window (fst (ack_drain segment_ackno cs (sent ++ unsent)))
       = rcv_window cs
    /\ rcv_window_used (fst (ack_drain segment_ackno cs (sent ++ unsent)))
       = rcv_window_used cs.
Proof.
  induction sent as [|node sent IH]; intros cs unsent Ht Hu Hs Hb.
  - exists []. cbn [app].
    assert (E : ack_drain segment_ackno cs unsent = (cs, unsent)).
    { destruct unsent as [|u unsent]; [reflexivity|].
      inversion Hu as [|? ? Hz _]; subst. unfold untagged in Hz.
      cbn [ack_drain]. rewrite Hz. now rewrite andb_false_r. }
    rewrite E. cbn [fst snd]. repeat split; try assumption; lia.
  - destruct Ht as [Htag Ht]. cbn [app ack_drain].
    destruct ((segment_next_seqno node <=? segment_ackno)
              && (0 <? segment_next_seqno node)).
    + pose proof (payload_total_nonneg sent) as Hp.
      assert (Hsize : 0 <= buffer_size node) by (unfold buffer_size; lia).
      cbn [payload_total fold_right] in Hs. fold (payload_total sent) in Hs.
      set (cs1 :=
             set_send_window_used
               (wrap16 (send_window_used cs - buffer_size node))
               (set_seqno (segment_next_seqno node) cs)).
      assert (Hs1 : send_window_used cs1 = payload_total sent).
      { subst cs1. cbn. rewrite wrap16_small; lia. }
      destruct (IH cs1 unsent) as (sent' & E & T & S & L & F1 & F2 & F3);
        [exact Ht|exact Hu|exact Hs1|lia|].
      exists sent'. rewrite E, S, F1, F2, F3.
      repeat split; try assumption. rewrite <- S. lia.
    + exists (node :: sent). cbn [fst snd app].
      repeat split; try assumption; lia.
Qed.

Lemma receive_ack_inv state segment state' :
  engine_inv state ->
  receive_ack state segment = Alive state' ->
  engine_inv state'.
Proof.
  intros Hinv. unfold receive_ack.
  assert (Hdrain :
    match ll_front (tx_state state) with
    | Some front =>
        if segment_next_seqno front <=? seg_ackno segment
        then
          let '(cs1, q) :=
            ack_drain (seg_ackno segment) (conn_state state)
              (tx_state state) in
          Alive
            (set_ack_state
               (set_time_out_num 0
                  (set_counter 0
                     (if seg_ackno segment =? next_seqno cs1
                      then set_time_out false (ack_state state)
                      else ack_state state)))
               (set_tx_state q (set_conn_state cs1 state)))
        else Alive state
    | None => Alive state
    end = Alive state' -> engine_inv state').
  { destruct (ll_front (tx_state state)) as [front|].
    2:{ intros H; injection H as <-; exact Hinv. }
    destruct (segment_next_seqno front <=? seg_ackno segment).
    2:{ intros H; injection H as <-; exact Hinv. }
    destruct Hinv as (Hsw & Hrw & Hsu & Hru & (sent & unsent & Hq & Ht & Hu
                      & Hs) & Hrx).
    rewrite Hq.
    destruct (ack_drain_inv (seg_ackno segment) sent (conn_state state)
                unsent Ht Hu Hs)
      as (sent' & E & T & S & L & F1 & F2 & F3); [lia|].
    destruct (ack_drain (seg_ackno segment) (conn_state state)
                (sent ++ unsent)) as [cs1 q].
    cbn [fst snd] in *. intros H. injection H as <-.
    unfold engine_inv, tx_queue_inv, rx_queue_inv.
    cbn [conn_state set_ack_state set_tx_state set_conn_state tx_state
         rx_state].
    rewrite F1, F2, F3. repeat split; try lia; try apply Hrx.
    exists sent', unsent. repeat split; assumption. }
  destruct (segment_teardown state); try exact Hdrain.
  discriminate.
Qed.

(** *** The receive queue *)

Lemma held_total_nonneg q : Forall whole_payload q -> 0 <= held_total q.
Proof.
  induction 1 as [|node q [_ Hl] _ IH]; simpl; lia.
Qed.

Lemma conn_output_count c bs :
  fst (conn_output c bs) = Z.of_nat (length bs).
Proof. now destruct bs. Qed.

Lemma whole_payload_slice node :
  whole_payload node ->
  firstn (Z.to_nat (byte_left node))
    (skipn (Z.to_nat (byte_used node)) (rx_buffer node))
  = rx_buffer node.
Proof.
  intros [-> ->]. rewrite Nat2Z.id. simpl. apply firstn_all.
Qed.

Lemma output_walk_inv : forall nodes state,
  Forall whole_payload nodes ->
  rcv_window_used (conn_state state) = held_total nodes ->
  rcv_window_used (conn_state state) < 2 ^ 16 ->
  Forall whole_payload (snd (output_walk state nodes))
  /\ rcv_window_used (conn_state (fst (output_walk state nodes)))
     = held_total (snd (output_walk state nodes))
  /\ rcv_window_used (conn_state (fst (output_walk state nodes)))
     <= rcv_window_used (conn_state state).
Proof.
  induction nodes as [|node rest IH]; intros state Hw Hh Hb.
  - simpl. repeat split; [constructor|assumption|lia].
  - cbn [output_walk]. destruct (_ || _).
    { cbn [fst snd]. repeat split; [assumption|assumption|lia]. }
    inversion Hw as [|? ? Hnode Hrest]; subst.
    rewrite (whole_payload_slice node Hnode).
    pose proof (conn_output_count (conn state) (rx_buffer node)) as Hc.
    destruct (conn_output (conn state) (rx_buffer node)) as [byte_sent c1].
    cbn [fst] in Hc. subst byte_sent.
    destruct Hnode as [Hused Hleft].
    cbn [byte_left]. rewrite Hleft, Z.sub_diag. cbn [Z.leb Z.compare].
    pose proof (held_total_nonneg rest Hrest) as Hp.
    cbn [held_total fold_right] in Hh. fold (held_total rest) in Hh.
    match goal with |- context [output_walk ?s rest] =>
      destruct (IH s Hrest) as (W & H & L) end.
    + cbn. rewrite wrap16_small; lia.
    + cbn. rewrite wrap16_small; lia.
    + repeat split; [exact W|exact H|].
      etransitivity; [exact L|]. cbn. rewrite wrap16_small; lia.
Qed.

Lemma ctcp_output_inv state :
  engine_inv state -> engine_inv (ctcp_output state).
Proof.
  intros (Hsw & Hrw & Hsu & Hru & Htx & Hwhole & Hheld).
  destruct (ctcp_output_frame state) as (_ & v & _ & C & T & _ & _).
  assert (Hout : Forall whole_payload (rx_state (ctcp_output state))
                 /\ rcv_window_used (conn_state (ctcp_output state))
                    = held_total (rx_state (ctcp_output state))
                 /\ rcv_window_used (conn_state (ctcp_output state))
                    <= rcv_window_used (conn_state state)).
  { unfold ctcp_output.
    destruct (output_walk_inv (rx_state state) state Hwhole Hheld)
      as (W & H & L); [lia|].
    destruct (output_walk state (rx_state state)) as [state1 q].
    exact (conj W (conj H L)). }
  destruct Hout as (W & H & L).
  unfold engine_inv, tx_queue_inv, rx_queue_inv in *.
  rewrite T. rewrite C in H, L |- *. cbn in H, L |- *.
  repeat split; try lia; try assumption.
Qed.

Lemma accept_data_inv state segment :
  engine_inv state ->
  fits_rcv_window state segment = true ->
  engine_inv (accept_data state segment).
Proof.
  intros (Hsw & Hrw & Hsu & Hru & Htx & Hwhole & Hheld) Hfit.
  unfold fits_rcv_window in Hfit. apply Z.leb_le in Hfit.
  pose proof (held_total_nonneg _ Hwhole) as Hp.
  assert (Hlen : received_len segment - sizeof_segment
                 = Z.of_nat (length (seg_data segment)))
    by (unfold received_len; lia).
  rewrite Hlen in Hfit.
  unfold engine_inv, tx_queue_inv, rx_queue_inv, accept_data, ll_add.
  rewrite Hlen. cbn. rewrite held_total_app. cbn.
  rewrite wrap16_small by lia.
  repeat split; try lia; try assumption.
  apply Forall_app. split; [assumption|]. repeat constructor.
Qed.

(** *** The handlers *)

Lemma enqueue_inv state bs :
  engine_inv state ->
  engine_inv (set_tx_state (ll_add (tx_state state) (mk_tx 0 bs)) state).
Proof.
  intros (Hsw & Hrw & Hsu & Hru & (sent & unsent & Hq & Ht & Hu & Hs) & Hrx).
  unfold engine_inv, tx_queue_inv, rx_queue_inv, ll_add in *. cbn.
  repeat split; try lia; try apply Hrx.
  exists sent, (unsent ++ [mk_tx 0 bs]). rewrite Hq, app_assoc.
  repeat split; try assumption.
  apply Forall_app. split; [assumption|]. repeat constructor.
Qed.

Lemma read_loop_inv fuel script : forall state state',
  engine_inv state ->
  read_loop fuel script state = Some state' ->
  engine_inv state'.
Proof.
  induction script as [|r script IH]; intros state state' Hinv H;
    cbn [read_loop] in H.
  - now injection H as <-.
  - assert (Hinv0 : engine_inv
                      (set_conn (set_input script (conn state)) state))
      by (revert Hinv; now apply engine_inv_frame).
    destruct r as [bs| |].
    + destruct bs as [|b bs]; [now injection H as <-|].
      destruct (is_truncate_message (b :: bs)); [now injection H as <-|].
      eapply IH; [|exact H]. now apply enqueue_inv.
    + now injection H as <-.
    + destruct (busy_wait fuel _); [|discriminate].
      destruct (busy_wait fuel _); [|discriminate].
      injection H as <-. revert Hinv0. now apply engine_inv_frame.
Qed.

Lemma ctcp_read_inv fuel state state' :
  engine_inv state -> ctcp_read fuel state = Some state' ->
  engine_inv state'.
Proof.
  unfold ctcp_read. intros Hinv H.
  destruct (read_loop fuel _ state) as [state1|] eqn:E; [|discriminate].
  injection H as <-. apply ctcp_send_possible_inv.
  eapply read_loop_inv; eassumption.
Qed.

Lemma fin_passive_close_inv fuel state state' :
  engine_inv state ->
  fin_passive_close fuel state = Some (Alive state') ->
  engine_inv state'.
Proof.
  unfold fin_passive_close. intros Hinv H.
  destruct (busy_wait fuel _); [|discriminate]. injection H as <-.
  revert Hinv. now apply engine_inv_frame.
Qed.

Lemma ctcp_receive_inv fuel state segment state' :
  engine_inv state ->
  ctcp_receive fuel state segment = Some (Alive state') ->
  engine_inv state'.
Proof.
  unfold ctcp_receive. intros Hinv H.
  destruct (is_duplicate state segment).
  { injection H as <-. now apply ctcp_send_flags_inv. }
  destruct (negb (received_len segment =? seg_len segment)).
  { now injection H as <-. }
  destruct (negb (cksum_matches segment)).
  { now injection H as <-. }
  destruct (segment_type segment).
  - injection H as <-. unfold ctcp_receive_data_segment.
    apply ctcp_output_inv.
    destruct (fits_rcv_window state segment) eqn:F; [|assumption].
    now apply accept_data_inv.
  - injection H as H. eapply receive_ack_inv; eassumption.
  - discriminate.
  - unfold ctcp_receive_fin_with_no_ack in H.
    set (state1 := set_conn_state _ state) in H.
    assert (Hinv1 : engine_inv state1)
      by (revert Hinv; now apply engine_inv_frame).
    destruct (segment_teardown state1); try discriminate;
      eapply fin_passive_close_inv; eassumption.
Qed.

Lemma timer_body_inv state :
  engine_inv state -> engine_inv (fst (timer_body state)).
Proof.
  intros Hinv. unfold timer_body. destruct (time_out (ack_state state)).
  - destruct (_ =? _).
    2:{ revert Hinv. now apply engine_inv_frame. }
    set (state3 := set_ack_state _ state).
    assert (Hinv3 : engine_inv state3)
      by (revert Hinv; now apply engine_inv_frame).
    destruct (_ =? 6); cbn [fst].
    + revert Hinv3. now apply engine_inv_frame.
    + destruct (segment_teardown state3); cbn [fst];
        first [now apply ctcp_send_possible_inv
              |now apply ctcp_send_flags_inv].
  - destruct (0 <? _); cbn [fst].
    + now apply ctcp_output_inv, ctcp_send_possible_inv.
    + now apply ctcp_send_possible_inv.
Qed.

Lemma timer_loop_inv fuel : forall visited pending l,
  Forall engine_inv visited ->
  Forall engine_inv pending ->
  timer_loop fuel visited pending = Some l ->
  Forall engine_inv l.
Proof.
  induction fuel as [|fuel IH]; intros visited pending l Hv Hp H;
    cbn [timer_loop] in H; [discriminate|].
  destruct pending as [|cur rest]; [now injection H as <-|].
  inversion Hp as [|? ? Hcur Hrest]; subst.
  pose proof (timer_body_inv cur Hcur) as Hb.
  destruct (timer_body cur) as [cur1 advance]. cbn [fst] in Hb.
  destruct advance; (eapply IH; [| |exact H]); auto.
  apply Forall_app. split; [assumption|]. now constructor.
Qed.

(** C4, as the code has it: every handler keeps [send_window_used] within
    [send_window] and [rcv_window_used] within [rcv_window], keeps the send
    queue in the shape of a transmitted prefix whose tags run from [seqno]
    by the payload lengths (in 32-bit arithmetic) followed by nodes never
    transmitted, with tag 0, and keeps [rcv_window_used] equal to the bytes
    held in the receive queue.  Nothing is kept about the order of [ackno]
    and [last_ackno]. *)
Theorem handlers_preserve_engine_inv :
  (forall fuel state state',
      engine_inv state -> ctcp_read fuel state = Some state' ->
      engine_inv state')
  /\ (forall fuel state segment state',
      engine_inv state ->
      ctcp_receive fuel state segment = Some (Alive state') ->
      engine_inv state')
  /\ (forall state, engine_inv state -> engine_inv (ctcp_output state))
  /\ (forall fuel state_list state_list',
      Forall engine_inv state_list ->
      ctcp_timer fuel state_list = Some state_list' ->
      Forall engine_inv state_list').
Proof.
  split; [|split; [|split]].
  - apply ctcp_read_inv.
  - apply ctcp_receive_inv.
  - apply ctcp_output_inv.
  - intros fuel l l' Hl H. eapply timer_loop_inv; [| |exact H]; auto.
Qed.

(** The engine that [ctcp_init] makes satisfies the invariant when the
    configured windows fit their 16-bit fields. *)
Lemma ctcp_init_inv c cfg state_list state :
  0 <= cfg_send_window cfg < 2 ^ 16 ->
  0 <= cfg_recv_window cfg < 2 ^ 16 ->
  fst (ctcp_init (Some c) cfg state_list) = Some state ->
  engine_inv state.
Proof.
  intros Hs Hr H. injection H as <-.
  unfold engine_inv, tx_queue_inv, rx_queue_inv. cbn.
  repeat split; try lia; try constructor.
  exists [], []. repeat split; constructor.
Qed.

(** ** The paced transfer *)

Lemma wrap32_small z : 0 <= z < 2 ^ 32 -> wrap32 z = z.
Proof. apply Z.mod_small. Qed.

Lemma cksum_matches_fill g : cksum_matches (fill_cksum g) = true.
Proof. unfold cksum_matches, fill_cksum. cbn. apply Z.eqb_refl. Qed.

Lemma has_flag_self mask g :
  mask <> 0 -> seg_flags g = mask -> has_flag g mask = true.
Proof.
  intros Hm Hg. unfold has_flag. rewrite Hg, Z.land_diag.
  apply Z.eqb_neq in Hm. now rewrite Hm.
Qed.

Lemma has_flag_other mask other g :
  Z.land mask other = 0 -> seg_flags g = mask -> has_flag g other = false.
Proof. intros Hm Hg. unfold has_flag. now rewrite Hg, Hm. Qed.

Lemma has_flag_none mask g : seg_flags g = 0 -> has_flag g mask = false.
Proof. intros Hg. unfold has_flag. now rewrite Hg, Z.land_0_l. Qed.

Lemma flag_shape_of_send state ack fl :
  exists g,
    flag_shape fl (seqno (conn_state state)) ack g
    /\ ctcp_send_flags state ack fl
       = set_conn (conn_send (conn state) g) state.
Proof.
  eexists. split; [|reflexivity].
  repeat split. apply cksum_matches_fill.
Qed.

Lemma nth_error_at_end {A} (l : list A) (x : A) :
  nth_error (l ++ [x]) (length l) = Some x.
Proof. rewrite nth_error_app2, Nat.sub_diag by lia. reflexivity. Qed.

Lemma nth_error_past_end {A} (l : list A) : nth_error l (length l) = None.
Proof. apply nth_error_None. lia. Qed.

(** *** Single steps *)

(** Unfold records, field updates and the queue loops on an explicit state,
    leaving arithmetic, checksums and the host calls as they are. *)
Ltac engine_cbv :=
  cbv beta iota zeta delta
    [conn conn_state tx_state rx_state ack_state segment_teardown
     seqno next_seqno ackno last_ackno send_window send_window_used
     rcv_window rcv_window_used
     time_out_num counter timer_overflow time_out
     segment_next_seqno tx_buffer byte_used byte_left rx_buffer
     c_input c_bufspace c_output c_eof c_sent
     set_conn set_conn_state set_tx_state set_rx_state set_ack_state
     set_teardown set_seqno set_next_seqno set_ackno set_last_ackno
     set_send_window_used set_rcv_window_used
     set_time_out set_counter set_time_out_num set_input set_bufspace
     conn_send conn_bufspace ll_add ll_front ll_length hd_error
     negb orb andb fst snd result_conn ctcp_destroy];
  cbn [app].

(** Arithmetic on the machine integers once the ranges are known. *)
Ltac wrap_lia :=
  unfold wrap8, wrap16, wrap32, sizeof_segment in *;
  change (2 ^ 8) with 256 in *;
  change (2 ^ 16) with 65536 in *;
  change (2 ^ 32) with 4294967296 in *;
  Z.div_mod_to_equations; lia.

(** Split an equation between explicit states into its fields. *)
Ltac fields :=
  repeat match goal with
    | |- Some _ = Some _ => f_equal
    | |- Alive _ = Alive _ => f_equal
    | |- Destroyed _ = Destroyed _ => f_equal
    | |- mk_state _ _ _ _ _ _ = mk_state _ _ _ _ _ _ => f_equal
    | |- mk_conn _ _ _ _ _ = mk_conn _ _ _ _ _ => f_equal
    | |- mk_conn_state _ _ _ _ _ _ _ _ = mk_conn_state _ _ _ _ _ _ _ _ =>
        f_equal
    | |- mk_ack_state _ _ _ _ = mk_ack_state _ _ _ _ => f_equal
    | |- mk_tx _ _ = mk_tx _ _ => f_equal
    | |- mk_rx _ _ _ = mk_rx _ _ _ => f_equal
    | |- _ :: _ = _ :: _ => f_equal
    | |- (_, _) = (_, _) => f_equal
    | |- mk_network _ _ _ _ _ = mk_network _ _ _ _ _ => f_equal
    end;
  try reflexivity.

(** Replace the next call of [ctcp_send_flags] by the segment it sends. *)
Ltac name_sent_flags g Hg :=
  match goal with
  | |- context [ctcp_send_flags ?s ?a ?f] =>
      let E := fresh "E" in
      destruct (flag_shape_of_send s a f) as (g & Hg & E);
      rewrite E; clear E
  end.

Lemma output_walk_cons state node rest :
  output_walk state (node :: rest)
  = if (conn_bufspace (conn state) =? 0)
       || (conn_bufspace (conn state) <? byte_left node)
    then (state, node :: rest)
    else
      let '(byte_sent, c1) :=
        conn_output (conn state)
          (firstn (Z.to_nat (byte_left node))
             (skipn (Z.to_nat (byte_used node)) (rx_buffer node))) in
      let node1 :=
        mk_rx (byte_used node + byte_sent) (byte_left node - byte_sent)
          (rx_buffer node) in
      let cs := conn_state state in
      let state1 :=
        set_conn_state
          (set_rcv_window_used (wrap16 (rcv_window_used cs - byte_sent)) cs)
          (set_conn c1 state) in
      if byte_left node1 <=? 0
      then output_walk
             (ctcp_send_flags state1 (ackno (conn_state state1)) ACK) rest
      else (state1, node1 :: rest).
Proof. reflexivity. Qed.

Lemma output_walk_nil state : output_walk state [] = (state, []).
Proof. reflexivity. Qed.

Lemma conn_output_nonempty c bs :
  bs <> [] ->
  conn_output c bs
  = (Z.of_nat (length bs),
     mk_conn (c_input c) (c_bufspace c - Z.of_nat (length bs))
       (c_output c ++ bs) (c_eof c) (c_sent c)).
Proof. destruct bs; [contradiction|reflexivity]. Qed.

Lemma bytes_of_cons payload payloads :
  bytes_of (payload :: payloads)
  = Z.of_nat (length payload) + bytes_of payloads.
Proof.
  unfold bytes_of. cbn [concat]. now rewrite length_app, Nat2Z.inj_add.
Qed.

Lemma bytes_of_nonneg payloads : 0 <= bytes_of payloads.
Proof. unfold bytes_of. lia. Qed.

Lemma sendable_positive bound payload :
  sendable bound payload -> 0 < Z.of_nat (length payload) <= bound.
Proof.
  intros (Hne & _ & Hb). destruct payload; [contradiction|simpl in *; lia].
Qed.

Lemma data_shapes_from sent sent' payloads ds :
  sent = sent' -> data_shapes sent payloads ds -> data_shapes sent' payloads ds.
Proof. now intros ->. Qed.

Lemma ack_shapes_from sent sent' payloads acks :
  sent = sent' -> ack_shapes sent payloads acks ->
  ack_shapes sent' payloads acks.
Proof. now intros ->. Qed.

Lemma read_loop_group fuel script bound : forall payloads state,
  Forall (sendable bound) payloads ->
  read_loop fuel (map In_bytes payloads ++ In_none :: script) state
  = Some (set_tx_state (tx_state state ++ map (mk_tx 0) payloads)
            (set_conn (set_input script (conn state)) state)).
Proof.
  induction payloads as [|payload payloads IH]; intros state Hs.
  - cbn [map app read_loop]. rewrite app_nil_r. reflexivity.
  - inversion Hs as [|? ? (Hne & Htr & _) Hrest]; subst.
    destruct payload as [|b bs]; [contradiction|].
    cbn [map app]. rewrite (read_loop_bytes _ _ _ _ _ Htr).
    rewrite (IH _ Hrest). unfold ll_add.
    cbn [tx_state set_tx_state set_conn conn conn_state rx_state ack_state
         segment_teardown set_input c_bufspace c_output c_eof c_sent].
    now rewrite <- app_assoc.
Qed.

Lemma send_walk_cons state node rest :
  send_walk state (node :: rest)
  = if send_window (conn_state state)
         <? buffer_size node + send_window_used (conn_state state)
    then (state, node :: rest)
    else
      let '(state1, node1) := ctcp_send_data_segment state node in
      let cs1 := conn_state state1 in
      let state2 :=
        set_conn_state
          (set_send_window_used
             (wrap16 (send_window_used cs1 + buffer_size node)) cs1)
          state1 in
      let '(state3, rest3) := send_walk state2 rest in
      (state3, node1 :: rest3).
Proof. reflexivity. Qed.

(** The window walk over nodes that were never sent: all of them go out
    when together they fit the window. *)
Lemma send_walk_fresh bound :
  sizeof_segment + bound < 2 ^ 16 ->
  forall payloads script space out eof log s nx a la sw used rw rwu tx rx
         n c ov t td,
  Forall (sendable bound) payloads ->
  0 <= used ->
  used + bytes_of payloads <= sw < 2 ^ 16 ->
  0 <= nx ->
  nx + bytes_of payloads < 2 ^ 32 ->
  exists ds,
    data_shapes (nx - 1) payloads ds
    /\ send_walk
         (mk_state (mk_conn script space out eof log)
            (mk_conn_state s nx a la sw used rw rwu) tx rx
            (mk_ack_state n c ov t) td)
         (map (mk_tx 0) payloads)
       = (mk_state (mk_conn script space out eof (log ++ ds))
            (mk_conn_state s (nx + bytes_of payloads) a la sw
               (used + bytes_of payloads) rw rwu) tx rx
            (mk_ack_state n c ov (t || nonempty payloads)) td,
          tagged nx payloads).
Proof.
  intros Hbound.
  induction payloads as [|payload payloads IH];
    intros script space out eof log s nx a la sw used rw rwu tx rx n c ov t td
           Hs Hused Hsw Hnx Hseq.
  - exists []. split; [exact I|]. cbn [map send_walk tagged nonempty].
    unfold bytes_of. cbn [concat length Z.of_nat].
    now rewrite app_nil_r, !Z.add_0_r, orb_false_r.
  - inversion Hs as [|? ? Hpayload Hrest]; subst.
    pose proof (sendable_positive _ _ Hpayload) as Hpos.
    pose proof (bytes_of_nonneg payloads) as Hrestpos.
    rewrite bytes_of_cons in *.
    cbn [map]. rewrite send_walk_cons. unfold buffer_size. engine_cbv.
    replace (sw <? Z.of_nat (length payload) + used) with false
      by (symmetry; apply Z.ltb_ge; lia).
    unfold ctcp_send_data_segment, buffer_size. engine_cbv.
    rewrite (wrap32_small (nx + Z.of_nat (length payload))) by wrap_lia.
    rewrite (wrap16_small (used + Z.of_nat (length payload))) by wrap_lia.
    rewrite (wrap16_small (sizeof_segment + Z.of_nat (length payload)))
      by wrap_lia.
    match goal with
    | |- context [send_walk
                    (mk_state (mk_conn _ _ _ _ (log ++ [?g])) _ _ _ _ _) _] =>
        set (d := g)
    end.
    destruct (IH script space out eof (log ++ [d]) s
                (nx + Z.of_nat (length payload)) a la sw
                (used + Z.of_nat (length payload)) rw rwu tx rx n c ov true td
                Hrest)
      as (ds & Hds & E); try lia.
    rewrite E. exists (d :: ds). split.
    + cbn [data_shapes]. split.
      * subst d. unfold data_shape.
        cbn [seg_seqno seg_len seg_flags seg_data fill_cksum set_seg_cksum].
        repeat split; [lia|apply cksum_matches_fill].
      * revert Hds. apply data_shapes_from. lia.
    + cbn [tagged nonempty orb]. rewrite <- app_assoc. cbn [app].
      destruct t; fields; lia.
Qed.

Lemma sending_nil script space log sw rw ov sent :
  sending script space log sw rw ov sent []
  = idle_sender script space log sw rw ov sent.
Proof.
  unfold sending, idle_sender, bytes_of. cbn [concat length Z.of_nat tagged
    nonempty]. now rewrite Z.add_0_r.
Qed.

Lemma sender_reads bound fuel script space log sw rw ov sent payloads :
  sizeof_segment + bound < 2 ^ 16 ->
  Forall (sendable bound) payloads ->
  bytes_of payloads <= sw < 2 ^ 16 ->
  0 <= sent ->
  1 + sent + bytes_of payloads < 2 ^ 32 ->
  exists ds,
    data_shapes sent payloads ds
    /\ ctcp_read fuel
         (idle_sender (map In_bytes payloads ++ In_none :: script) space log
            sw rw ov sent)
       = Some (sending script space (log ++ ds) sw rw ov sent payloads).
Proof.
  intros Hbound Hs Hsw Hsent Hseq.
  unfold ctcp_read.
  change (c_input (conn (idle_sender ?s _ _ _ _ _ _))) with s.
  rewrite (read_loop_group _ _ bound _ _ Hs).
  unfold ctcp_send_possible_data_segment, idle_sender. engine_cbv.
  destruct (send_walk_fresh bound Hbound payloads script space [] false log
              (1 + sent) (1 + sent) 1 1 sw 0 rw 0 (map (mk_tx 0) payloads)
              [] 0 0 ov false NO_CLOSE Hs)
    as (ds & Hds & E); try lia.
  rewrite E. engine_cbv. exists ds. split.
  - revert Hds. apply data_shapes_from. lia.
  - unfold sending. now rewrite Z.add_0_l.
Qed.

Lemma receiver_takes_data fuel space out log sw rw ov sent last payload g :
  data_shape sent payload g ->
  payload <> [] ->
  Z.of_nat (length payload) <= rw < 2 ^ 16 ->
  Z.of_nat (length payload) <= space ->
  0 <= sent ->
  1 + sent + Z.of_nat (length payload) < 2 ^ 32 ->
  exists ack,
    flag_shape ACK 1 (1 + (sent + Z.of_nat (length payload))) ack
    /\ ctcp_receive fuel (idle_receiver space out log sw rw ov sent last) g
       = Some (Alive
                 (idle_receiver (space - Z.of_nat (length payload))
                    (out ++ payload) (log ++ [ack]) sw rw ov
                    (sent + Z.of_nat (length payload)) (1 + sent))).
Proof.
  intros (Hseq & Hlen & Hfl & Hdata & Hck) Hne Hrw Hspace Hsent Hbound.
  assert (Hpos : 0 < Z.of_nat (length payload))
    by (destruct payload; [contradiction|simpl; lia]).
  unfold ctcp_receive, is_duplicate, received_len, segment_type,
    ctcp_receive_data_segment, fits_rcv_window, accept_data, received_len,
    ctcp_output, idle_receiver.
  rewrite !(has_flag_none _ g Hfl), Hseq, Hlen, Hdata, Hck.
  rewrite !Z.add_simpl_l.
  engine_cbv.
  rewrite !Z.eqb_refl, !Z.add_0_l. engine_cbv.
  replace (Z.of_nat (length payload) <=? rw) with true
    by (symmetry; apply Z.leb_le; lia).
  rewrite output_walk_cons. engine_cbv.
  replace (space =? 0) with false by (symmetry; apply Z.eqb_neq; lia).
  replace (space <? Z.of_nat (length payload)) with false
    by (symmetry; apply Z.ltb_ge; lia).
  rewrite Nat2Z.id. change (Z.to_nat 0) with 0%nat.
  cbn [skipn]. rewrite firstn_all.
  rewrite (conn_output_nonempty _ payload Hne).
  engine_cbv. rewrite Z.sub_diag. change (0 <=? 0) with true.
  engine_cbv. name_sent_flags ack Hack. rewrite output_walk_nil.
  engine_cbv. exists ack. split.
  - destruct Hack as (A1 & A2 & A3 & A4 & A5 & A6).
    repeat split; try assumption. rewrite A3. wrap_lia.
  - unfold idle_receiver. fields; wrap_lia.
Qed.

Lemma ack_drain_cons segment_ackno cs node rest :
  ack_drain segment_ackno cs (node :: rest)
  = if (segment_next_seqno node <=? segment_ackno)
       && (0 <? segment_next_seqno node)
    then
      ack_drain segment_ackno
        (set_send_window_used
           (wrap16 (send_window_used cs - buffer_size node))
           (set_seqno (segment_next_seqno node) cs))
        rest
    else (cs, node :: rest).
Proof. reflexivity. Qed.

(** How a header-only segment with the given flags is classified. *)
Lemma flag_segment_passes fl seq ack g :
  flag_shape fl seq ack g ->
  received_len g = seg_len g /\ cksum_matches g = true.
Proof.
  intros (_ & _ & _ & Hlen & Hdata & Hck). split; [|assumption].
  unfold received_len. now rewrite Hdata, Hlen.
Qed.

Lemma ack_segment_type seq ack g :
  flag_bits_distinct -> flag_shape ACK seq ack g ->
  has_flag g ACK = true /\ segment_type g = ACK_SEG.
Proof.
  intros (Hf & Ha & Hd) (Hfl & _).
  assert (H1 : has_flag g ACK = true) by now apply has_flag_self.
  assert (H2 : has_flag g FIN = false).
  { apply (has_flag_other ACK); [now rewrite Z.land_comm|assumption]. }
  split; [assumption|]. unfold segment_type. now rewrite H2, H1.
Qed.

Lemma fin_segment_type seq ack g :
  flag_bits_distinct -> flag_shape FIN seq ack g ->
  has_flag g ACK = false /\ segment_type g = FIN_WITH_NO_ACK.
Proof.
  intros (Hf & Ha & Hd) (Hfl & _).
  assert (H1 : has_flag g FIN = true) by now apply has_flag_self.
  assert (H2 : has_flag g ACK = false)
    by now apply (has_flag_other FIN).
  split; [assumption|]. unfold segment_type. now rewrite H1, H2.
Qed.

Lemma sender_takes_ack bound fuel script space log sw rw ov sent payload
  payloads ack :
  flag_bits_distinct ->
  flag_shape ACK 1 (1 + (sent + Z.of_nat (length payload))) ack ->
  Forall (sendable bound) (payload :: payloads) ->
  bytes_of (payload :: payloads) < 2 ^ 16 ->
  0 <= sent ->
  1 + sent + bytes_of (payload :: payloads) < 2 ^ 32 ->
  ctcp_receive fuel
    (sending script space log sw rw ov sent (payload :: payloads)) ack
  = Some (Alive (sending script space log sw rw ov
                   (sent + Z.of_nat (length payload)) payloads)).
Proof.
  intros Hbits Hack Hs Hsize Hsent Hseq.
  destruct (flag_segment_passes _ _ _ _ Hack) as [Hlen Hck].
  destruct (ack_segment_type _ _ _ Hbits Hack) as [Hflag Htype].
  destruct Hack as (_ & _ & Hackno & _).
  inversion Hs as [|? ? Hpayload Hrest]; subst.
  pose proof (sendable_positive _ _ Hpayload) as Hpos.
  pose proof (bytes_of_nonneg payloads) as Hrestpos.
  rewrite bytes_of_cons in Hsize, Hseq.
  unfold ctcp_receive, is_duplicate.
  rewrite Hflag, Hlen, Z.eqb_refl, Hck, Htype. rewrite andb_false_r.
  cbn [negb]. unfold receive_ack, sending. rewrite bytes_of_cons.
  replace (1 + (sent + Z.of_nat (length payload)))
    with (1 + sent + Z.of_nat (length payload)) in * by lia.
  cbn [tagged]. engine_cbv. rewrite Hackno.
  rewrite Z.leb_refl. rewrite ack_drain_cons. engine_cbv.
  rewrite Z.leb_refl.
  replace (0 <? 1 + sent + Z.of_nat (length payload))
    with true by (symmetry; apply Z.ltb_lt; lia).
  engine_cbv. unfold buffer_size. engine_cbv.
  rewrite (wrap16_small
             (Z.of_nat (length payload) + bytes_of payloads
              - Z.of_nat (length payload))) by wrap_lia.
  destruct payloads as [|payload2 payloads].
  - cbn [tagged ack_drain nonempty]. engine_cbv.
    unfold bytes_of. cbn [concat length Z.of_nat]. rewrite !Z.add_0_r.
    rewrite Z.eqb_refl. engine_cbv. fields; lia.
  - inversion Hrest as [|? ? Hpayload2 _]; subst.
    pose proof (sendable_positive _ _ Hpayload2) as Hpos2.
    pose proof (bytes_of_nonneg payloads) as Hpos3.
    rewrite bytes_of_cons in *.
    cbn [tagged nonempty]. rewrite ack_drain_cons. engine_cbv.
    replace (1 + sent + Z.of_nat (length payload)
             + Z.of_nat (length payload2)
             <=? 1 + sent + Z.of_nat (length payload))
      with false by (symmetry; apply Z.leb_gt; lia).
    engine_cbv.
    replace (1 + sent + Z.of_nat (length payload)
             =? 1 + sent
                + (Z.of_nat (length payload)
                   + (Z.of_nat (length payload2) + bytes_of payloads)))
      with false by (symmetry; apply Z.eqb_neq; lia).
    engine_cbv. fields; lia.
Qed.

Lemma idle_sender_tick space script log sw rw ov sent :
  timer_at 2 (Alive (idle_sender script space log sw rw ov sent))
  = Some (Alive (idle_sender script space log sw rw ov sent)).
Proof. reflexivity. Qed.

Lemma idle_receiver_tick space out log sw rw ov sent last :
  timer_at 2 (Alive (idle_receiver space out log sw rw ov sent last))
  = Some (Alive (idle_receiver space out log sw rw ov sent last)).
Proof. reflexivity. Qed.

Lemma sender_reads_eof space log sw rw ov sent :
  exists fin,
    flag_shape FIN (1 + sent) 1 fin
    /\ ctcp_read 2 (idle_sender [In_eof] space log sw rw ov sent)
       = Some (closing_sender space (log ++ [fin]) sw rw ov sent).
Proof.
  eexists. split; [|reflexivity]. repeat split. apply cksum_matches_fill.
Qed.

Lemma receiver_takes_fin space out log sw rw ov sent last fin ack0 :
  flag_bits_distinct ->
  flag_shape FIN (1 + sent) ack0 fin ->
  0 <= sent -> 2 + sent < 2 ^ 32 ->
  exists ack fin',
    flag_shape ACK 1 (2 + sent) ack
    /\ flag_shape FIN 1 (2 + sent) fin'
    /\ ctcp_receive 2 (idle_receiver space out log sw rw ov sent last) fin
       = Some (Alive (closing_receiver space out ((log ++ [ack]) ++ [fin'])
                        sw rw ov sent)).
Proof.
  intros Hbits Hfin Hsent Hbound.
  destruct (flag_segment_passes _ _ _ _ Hfin) as [Hlen Hck].
  destruct (fin_segment_type _ _ _ Hbits Hfin) as [Hflag Htype].
  destruct Hfin as (_ & Hseq & _).
  unfold ctcp_receive, is_duplicate, idle_receiver. engine_cbv.
  rewrite Hseq, Z.eqb_refl, Hlen, Z.eqb_refl, Hck, Htype. engine_cbv.
  unfold ctcp_receive_fin_with_no_ack. engine_cbv.
  unfold fin_passive_close. engine_cbv.
  name_sent_flags ack Hack. engine_cbv.
  change (busy_wait 2 (Z.of_nat (length (@nil RX_state)))) with (Some tt).
  cbv iota. name_sent_flags fin' Hfin'. engine_cbv.
  exists ack, fin'. rewrite Hseq in *.
  replace (wrap32 (1 + sent + 1)) with (2 + sent) in * by wrap_lia.
  split; [exact Hack|]. split; [exact Hfin'|]. reflexivity.
Qed.

Lemma closing_sender_takes_ack fuel space log sw rw ov sent seq ackn ack :
  flag_bits_distinct ->
  flag_shape ACK seq ackn ack ->
  ctcp_receive fuel (closing_sender space log sw rw ov sent) ack
  = Some (Alive (closing_sender space log sw rw ov sent)).
Proof.
  intros Hbits Hack.
  destruct (flag_segment_passes _ _ _ _ Hack) as [Hlen Hck].
  destruct (ack_segment_type _ _ _ Hbits Hack) as [Hflag Htype].
  unfold ctcp_receive, is_duplicate.
  rewrite Hflag, Hlen, Z.eqb_refl, Hck, Htype. rewrite andb_false_r.
  reflexivity.
Qed.

Lemma closing_sender_takes_fin fuel space log sw rw ov sent ackn fin :
  flag_bits_distinct ->
  flag_shape FIN 1 ackn fin ->
  exists ack,
    flag_shape ACK (1 + sent) 2 ack
    /\ ctcp_receive fuel (closing_sender space log sw rw ov sent) fin
       = Some (Destroyed (mk_conn [] space [] false (log ++ [ack]))).
Proof.
  intros Hbits Hfin.
  destruct (flag_segment_passes _ _ _ _ Hfin) as [Hlen Hck].
  destruct (fin_segment_type _ _ _ Hbits Hfin) as [Hflag Htype].
  destruct Hfin as (_ & Hseq & _).
  unfold ctcp_receive, is_duplicate, closing_sender. engine_cbv.
  rewrite Hseq, Hlen, !Z.eqb_refl, Hck, Htype. engine_cbv.
  unfold ctcp_receive_fin_with_no_ack. engine_cbv.
  name_sent_flags ack Hack. engine_cbv.
  exists ack. rewrite Hseq in *. split; [exact Hack|reflexivity].
Qed.

Lemma closing_receiver_takes_ack fuel space out log sw rw ov sent seq ackn
  ack :
  flag_bits_distinct ->
  flag_shape ACK seq ackn ack ->
  ctcp_receive fuel (closing_receiver space out log sw rw ov sent) ack
  = Some (Destroyed (mk_conn [] space out true log)).
Proof.
  intros Hbits Hack.
  destruct (flag_segment_passes _ _ _ _ Hack) as [Hlen Hck].
  destruct (ack_segment_type _ _ _ Hbits Hack) as [Hflag Htype].
  unfold ctcp_receive, is_duplicate.
  rewrite Hflag, Hlen, Z.eqb_refl, Hck, Htype. rewrite andb_false_r.
  reflexivity.
Qed.


(** *** Deliveries *)

Lemma nth_error_after_end {A} (l : list A) (x : A) :
  nth_error (l ++ [x]) (S (length l)) = None.
Proof. apply nth_error_None. rewrite length_app. simpl. lia. Qed.

Lemma nth_error_two_first {A} (l : list A) (x y : A) :
  nth_error ((l ++ [x]) ++ [y]) (length l) = Some x.
Proof.
  rewrite <- app_assoc. rewrite nth_error_app2, Nat.sub_diag by lia.
  reflexivity.
Qed.

Lemma nth_error_two_second {A} (l : list A) (x y : A) :
  nth_error ((l ++ [x]) ++ [y]) (S (length l)) = Some y.
Proof.
  replace (S (length l)) with (length (l ++ [x]))
    by (rewrite length_app; simpl; lia).
  apply nth_error_at_end.
Qed.

Lemma nth_error_two_after {A} (l : list A) (x y : A) :
  nth_error ((l ++ [x]) ++ [y]) (S (S (length l))) = None.
Proof. apply nth_error_None. rewrite !length_app. simpl. lia. Qed.

Lemma settle_to_b fuel steps n g b :
  next_for_b n = Some g ->
  receive_at fuel (side_b n) g = Some b ->
  settle fuel (S steps) n
  = settle fuel steps
      (mk_network (side_a n) b (S (a_delivered n)) (b_delivered n) (ticks n)).
Proof. intros Hn Hr. cbn [settle]. now rewrite Hn, Hr. Qed.

Lemma settle_to_a fuel steps n g a :
  next_for_b n = None ->
  next_for_a n = Some g ->
  receive_at fuel (side_a n) g = Some a ->
  settle fuel (S steps) n
  = settle fuel steps
      (mk_network a (side_b n) (a_delivered n) (S (b_delivered n)) (ticks n)).
Proof. intros Hb Ha Hr. cbn [settle]. now rewrite Hb, Ha, Hr. Qed.

Lemma settle_quiet fuel steps n :
  next_for_b n = None -> next_for_a n = None -> settle fuel steps n = Some n.
Proof. intros Hb Ha. destruct steps; cbn [settle]; now rewrite Hb, Ha. Qed.

Lemma nth_error_middle {A} (l : list A) (x : A) (rest : list A) :
  nth_error (l ++ x :: rest) (length l) = Some x.
Proof. rewrite nth_error_app2, Nat.sub_diag by lia. reflexivity. Qed.

Lemma data_shapes_length : forall payloads sent ds,
  data_shapes sent payloads ds -> length ds = length payloads.
Proof.
  induction payloads as [|p payloads IH]; intros sent [|d ds] H;
    cbn in H; try contradiction; [reflexivity|].
  destruct H as [_ H]. cbn [length]. f_equal. eapply IH, H.
Qed.

Lemma ack_shapes_length : forall payloads sent acks,
  ack_shapes sent payloads acks -> length acks = length payloads.
Proof.
  induction payloads as [|p payloads IH]; intros sent [|a acks] H;
    cbn in H; try contradiction; [reflexivity|].
  destruct H as [_ H]. cbn [length]. f_equal. eapply IH, H.
Qed.

Lemma read_at_readable fuel state :
  c_input (conn state) <> [] ->
  read_at fuel (Alive state) = option_map Alive (ctcp_read fuel state).
Proof.
  intros H. unfold read_at. destruct (c_input (conn state));
    [contradiction|reflexivity].
Qed.

(** *** Rounds *)

Section PacedTransfer.

Variables (cfg_a cfg_b : ctcp_config_t) (space bound limit : Z).
Hypothesis Hbits : flag_bits_distinct.
Hypothesis Hsw : limit <= cfg_send_window cfg_a < 2 ^ 16.
Hypothesis Hrw : bound <= cfg_recv_window cfg_b < 2 ^ 16.
Hypothesis Hspace : limit <= space.
Hypothesis Hbound : sizeof_segment + bound < 2 ^ 16.

Let ov_a : Z :=
  timer_overflow (ack_state (new_engine (mk_conn [] 0 [] false []) cfg_a)).
Let ov_b : Z :=
  timer_overflow (ack_state (new_engine (mk_conn [] 0 [] false []) cfg_b)).

(** Side B takes a run of DATA segments, one acknowledgement each. *)
Lemma settle_data_burst m a bd k : forall payloads ds sent space_b out log_b
                                          last pre,
  data_shapes sent payloads ds ->
  Forall (sendable bound) payloads ->
  bytes_of payloads <= space_b ->
  0 <= sent ->
  1 + sent + bytes_of payloads < 2 ^ 32 ->
  c_sent (result_conn a) = pre ++ ds ->
  exists acks last',
    ack_shapes sent payloads acks
    /\ settle 2 (length payloads + m)
         (mk_network a
            (Alive (idle_receiver space_b out log_b (cfg_send_window cfg_b)
                      (cfg_recv_window cfg_b) ov_b sent last))
            (length pre) bd k)
       = settle 2 m
           (mk_network a
              (Alive (idle_receiver (space_b - bytes_of payloads)
                        (out ++ concat payloads) (log_b ++ acks)
                        (cfg_send_window cfg_b) (cfg_recv_window cfg_b) ov_b
                        (sent + bytes_of payloads) last'))
              (length pre + length payloads) bd k).
Proof.
  induction payloads as [|payload payloads IH];
    intros ds sent space_b out log_b last pre Hds Hs Hfit Hsent Hseq Hlog.
  - destruct ds; [|contradiction]. exists [], last. split; [exact I|].
    unfold bytes_of. cbn [concat length Z.of_nat Nat.add].
    now rewrite Z.sub_0_r, !app_nil_r, Z.add_0_r, Nat.add_0_r.
  - destruct ds as [|d ds]; [contradiction|]. destruct Hds as [Hd Hds].
    inversion Hs as [|? ? Hpayload Hrest]; subst.
    pose proof (sendable_positive _ _ Hpayload) as Hpos.
    pose proof (bytes_of_nonneg payloads) as Hrestpos.
    rewrite bytes_of_cons in *.
    destruct (receiver_takes_data 2 space_b out log_b
                (cfg_send_window cfg_b) (cfg_recv_window cfg_b) ov_b sent
                last payload d Hd (proj1 Hpayload))
      as (ack & Hack & Hrecv); try lia.
    destruct (IH ds (sent + Z.of_nat (length payload))
                (space_b - Z.of_nat (length payload)) (out ++ payload)
                (log_b ++ [ack]) (1 + sent) (pre ++ [d]) Hds Hrest)
      as (acks & last' & Hacks & E); try lia.
    { now rewrite <- app_assoc. }
    exists (ack :: acks), last'. split; [split; assumption|].
    cbn [length Nat.add].
    erewrite settle_to_b;
      [|unfold next_for_b; cbn [side_a a_delivered]; rewrite Hlog;
        apply nth_error_middle
       |cbn [side_b receive_at]; exact Hrecv].
    cbn [side_a side_b a_delivered b_delivered ticks].
    rewrite length_app in E. cbn [length] in E.
    rewrite Nat.add_1_r in E. rewrite E.
    f_equal. cbn [concat]. rewrite <- !app_assoc. cbn [app].
    unfold idle_receiver. fields; lia.
Qed.

(** Side A takes the acknowledgements of what it has in flight. *)
Lemma settle_ack_burst m b script space_a log_a k : forall payloads acks sent
                                                           pre,
  ack_shapes sent payloads acks ->
  Forall (sendable bound) payloads ->
  bytes_of payloads < 2 ^ 16 ->
  0 <= sent ->
  1 + sent + bytes_of payloads < 2 ^ 32 ->
  c_sent (result_conn b) = pre ++ acks ->
  settle 2 (length payloads + m)
    (mk_network
       (Alive (sending script space_a log_a (cfg_send_window cfg_a)
                 (cfg_recv_window cfg_a) ov_a sent payloads))
       b (length log_a) (length pre) k)
  = settle 2 m
      (mk_network
         (Alive (sending script space_a log_a (cfg_send_window cfg_a)
                   (cfg_recv_window cfg_a) ov_a (sent + bytes_of payloads)
                   []))
         b (length log_a) (length pre + length payloads) k).
Proof.
  induction payloads as [|payload payloads IH];
    intros acks sent pre Hacks Hs Hsize Hsent Hseq Hlog.
  - unfold bytes_of. cbn [concat length Z.of_nat Nat.add].
    now rewrite Z.add_0_r, Nat.add_0_r.
  - destruct acks as [|ack acks]; [contradiction|].
    destruct Hacks as [Hack Hacks].
    inversion Hs as [|? ? Hpayload Hrest]; subst.
    pose proof (sendable_positive _ _ Hpayload) as Hpos.
    pose proof (bytes_of_nonneg payloads) as Hrestpos.
    cbn [length Nat.add].
    erewrite settle_to_a;
      [|apply nth_error_past_end
       |unfold next_for_a; cbn [side_b b_delivered]; rewrite Hlog;
        apply nth_error_middle
       |cbn [side_a receive_at];
        apply (sender_takes_ack bound 2 _ _ _ _ _ _ _ _ _ _ Hbits Hack Hs);
        assumption].
    cbn [side_a side_b a_delivered b_delivered ticks].
    rewrite bytes_of_cons in *.
    assert (E : settle 2 (length payloads + m)
                  (mk_network
                     (Alive (sending script space_a log_a
                               (cfg_send_window cfg_a)
                               (cfg_recv_window cfg_a) ov_a
                               (sent + Z.of_nat (length payload)) payloads))
                     b (length log_a) (length (pre ++ [ack])) k)
                = settle 2 m
                    (mk_network
                       (Alive (sending script space_a log_a
                                 (cfg_send_window cfg_a)
                                 (cfg_recv_window cfg_a) ov_a
                                 (sent + Z.of_nat (length payload)
                                  + bytes_of payloads) []))
                       b (length log_a)
                       (length (pre ++ [ack]) + length payloads) k)).
    { apply (IH acks); try assumption; try lia. now rewrite <- app_assoc. }
    rewrite length_app in E. cbn [length] in E. rewrite Nat.add_1_r in E.
    rewrite E. f_equal.
    unfold sending, bytes_of. cbn [concat length Z.of_nat tagged nonempty].
    fields; lia.
Qed.

Lemma data_round steps sent payloads script out k n :
  paired cfg_a cfg_b sent (map In_bytes payloads ++ In_none :: script) out k
    n ->
  burst_fits bound limit payloads ->
  (2 * length payloads <= steps)%nat ->
  0 <= sent ->
  1 + sent + bytes_of payloads < 2 ^ 32 ->
  exists n',
    round 2 steps space n = Some n'
    /\ paired cfg_a cfg_b (sent + bytes_of payloads) script
         (out ++ concat payloads) (S k) n'.
Proof.
  intros (space_a & space_b & log_a & log_b & last & ->)
         (Hs & Hlimit) Hsteps Hsent Hseq.
  fold ov_a ov_b.
  unfold round. cbn [side_a side_b a_delivered b_delivered ticks].
  change (drain_sink space (Alive (idle_sender ?s space_a ?l ?w ?r ?o ?t)))
    with (Alive (idle_sender s space l w r o t)).
  change (drain_sink space
            (Alive (idle_receiver space_b ?o ?l ?w ?r ?v ?t ?a)))
    with (Alive (idle_receiver space o l w r v t a)).
  rewrite idle_sender_tick, idle_receiver_tick.
  destruct (sender_reads bound 2 script space log_a (cfg_send_window cfg_a)
              (cfg_recv_window cfg_a) ov_a sent payloads Hbound Hs)
    as (ds & Hds & Hread); try lia.
  rewrite read_at_readable, Hread by (destruct payloads; discriminate).
  cbn [option_map].
  replace steps
    with (length payloads + (length payloads + (steps - 2 * length payloads)))%nat
    by lia.
  destruct (settle_data_burst
              (length payloads + (steps - 2 * length payloads))
              (Alive (sending script space (log_a ++ ds)
                        (cfg_send_window cfg_a) (cfg_recv_window cfg_a) ov_a
                        sent payloads))
              (length log_b) (S k) payloads ds sent space out log_b last
              log_a Hds Hs)
    as (acks & last' & Hacks & E); try lia; [reflexivity|].
  rewrite E.
  assert (Hla : (length log_a + length payloads)%nat
                = length (log_a ++ ds)).
  { rewrite length_app. f_equal. symmetry.
    eapply data_shapes_length, Hds. }
  assert (Hlb : (length log_b + length payloads)%nat
                = length (log_b ++ acks)).
  { rewrite length_app. f_equal. symmetry.
    eapply ack_shapes_length, Hacks. }
  rewrite Hla.
  rewrite (settle_ack_burst _ _ _ _ _ _ payloads acks sent log_b Hacks Hs);
    try lia; [|reflexivity].
  rewrite Hlb, sending_nil.
  rewrite settle_quiet; [|apply nth_error_past_end|apply nth_error_past_end].
  eexists. split; [reflexivity|].
  exists space, (space - bytes_of payloads), (log_a ++ ds), (log_b ++ acks),
    last'.
  reflexivity.
Qed.

Lemma closing_round m sent out k n :
  paired cfg_a cfg_b sent [In_eof] out k n ->
  0 <= sent ->
  2 + sent < 2 ^ 32 ->
  exists n' ca cb,
    round 2 (4 + m) space n = Some n'
    /\ side_a n' = Destroyed ca
    /\ side_b n' = Destroyed cb
    /\ c_output cb = out
    /\ c_eof cb = true
    /\ ticks n' = S k.
Proof.
  intros (space_a & space_b & log_a & log_b & last & ->) Hsent Hseq.
  fold ov_a ov_b.
  unfold round. cbn [side_a side_b a_delivered b_delivered ticks Nat.add].
  change (drain_sink space (Alive (idle_sender ?s space_a ?l ?w ?r ?o ?t)))
    with (Alive (idle_sender s space l w r o t)).
  change (drain_sink space
            (Alive (idle_receiver space_b ?o ?l ?w ?r ?v ?t ?a)))
    with (Alive (idle_receiver space o l w r v t a)).
  rewrite idle_sender_tick, idle_receiver_tick.
  destruct (sender_reads_eof space log_a (cfg_send_window cfg_a)
              (cfg_recv_window cfg_a) ov_a sent)
    as (fin & Hfin & Hread).
  unfold read_at.
  change (c_input (conn (idle_sender ?s _ _ _ _ _ _))) with s.
  cbv iota. rewrite Hread. cbn [option_map].
  destruct (receiver_takes_fin space out log_b (cfg_send_window cfg_b)
              (cfg_recv_window cfg_b) ov_b sent last fin 1 Hbits Hfin Hsent
              Hseq)
    as (ack & fin' & Hack & Hfin' & Hrecv).
  erewrite settle_to_b;
    [|apply nth_error_at_end|cbn [side_b receive_at]; exact Hrecv].
  cbn [side_a side_b a_delivered b_delivered ticks].
  erewrite settle_to_a;
    [|apply nth_error_after_end|apply nth_error_two_first
     |cbn [side_a receive_at];
      apply (closing_sender_takes_ack 2 _ _ _ _ _ _ _ _ _ Hbits Hack)].
  cbn [side_a side_b a_delivered b_delivered ticks].
  destruct (closing_sender_takes_fin 2 space (log_a ++ [fin])
              (cfg_send_window cfg_a) (cfg_recv_window cfg_a) ov_a sent _
              fin' Hbits Hfin')
    as (ack2 & Hack2 & Hrecv2).
  erewrite settle_to_a;
    [|apply nth_error_after_end|apply nth_error_two_second
     |cbn [side_a receive_at]; exact Hrecv2].
  cbn [side_a side_b a_delivered b_delivered ticks].
  erewrite settle_to_b;
    [|apply nth_error_two_second
     |cbn [side_b receive_at];
      apply (closing_receiver_takes_ack 2 _ _ _ _ _ _ _ _ _ _ Hbits Hack2)].
  cbn [side_a side_b a_delivered b_delivered ticks].
  rewrite settle_quiet;
    [|apply nth_error_two_after|apply nth_error_two_after].
  eexists. eexists. eexists. split; [reflexivity|]. repeat split.
Qed.

Lemma paced_script_cons payloads rounds :
  paced_script (payloads :: rounds)
  = map In_bytes payloads ++ In_none :: paced_script rounds.
Proof.
  unfold paced_script. cbn [flat_map]. now rewrite <- !app_assoc.
Qed.

Lemma run_step fuel steps rounds sp n n' :
  is_destroyed (side_a n) = false ->
  round fuel steps sp n = Some n' ->
  run fuel steps (S rounds) sp n = run fuel steps rounds sp n'.
Proof. intros Ha Hr. cbn [run]. now rewrite Ha, Hr. Qed.

Lemma paced_run m : forall rounds sent out k n,
  paired cfg_a cfg_b sent (paced_script rounds) out k n ->
  Forall (burst_fits bound limit) rounds ->
  Forall (fun payloads => (2 * length payloads <= 4 + m)%nat) rounds ->
  0 <= sent ->
  sent + bytes_of (concat rounds) <= 2 ^ 31 - 1 ->
  exists n' ca cb,
    run 2 (4 + m) (S (length rounds)) space n = Some n'
    /\ side_a n' = Destroyed ca
    /\ side_b n' = Destroyed cb
    /\ c_output cb = out ++ concat (concat rounds)
    /\ c_eof cb = true
    /\ ticks n' = (k + S (length rounds))%nat.
Proof.
  induction rounds as [|payloads rounds IH];
    intros sent out k n Hp Hs Hm Hsent Ht.
  - assert (Ha : is_destroyed (side_a n) = false)
      by (destruct Hp as (? & ? & ? & ? & ? & ->); reflexivity).
    destruct (closing_round m sent out k n Hp Hsent)
      as (n' & ca & cb & Hr & Ea & Eb & Eo & Ee & Et).
    { unfold bytes_of in Ht. cbn [concat length] in Ht. wrap_lia. }
    exists n', ca, cb. rewrite (run_step _ _ _ _ _ _ Ha Hr).
    cbn [run concat length]. rewrite app_nil_r, Nat.add_1_r.
    repeat split; assumption.
  - assert (Ha : is_destroyed (side_a n) = false)
      by (destruct Hp as (? & ? & ? & ? & ? & ->); reflexivity).
    inversion Hs as [|? ? Hpayloads Hrest]; subst.
    inversion Hm as [|? ? Hsteps Hmrest]; subst.
    assert (Hsplit : bytes_of (concat (payloads :: rounds))
                     = bytes_of payloads + bytes_of (concat rounds)).
    { unfold bytes_of. cbn [concat].
      now rewrite concat_app, length_app, Nat2Z.inj_add. }
    rewrite Hsplit in Ht.
    pose proof (bytes_of_nonneg payloads) as Hpos1.
    pose proof (bytes_of_nonneg (concat rounds)) as Hpos2.
    rewrite paced_script_cons in Hp.
    destruct (data_round (4 + m) sent payloads (paced_script rounds) out k n
                Hp Hpayloads Hsteps Hsent)
      as (n1 & Hr & Hp1); [wrap_lia|].
    destruct (IH (sent + bytes_of payloads) (out ++ concat payloads) (S k)
                n1 Hp1 Hrest Hmrest)
      as (n' & ca & cb & Hrun & Ea & Eb & Eo & Ee & Et); [lia|lia|].
    exists n', ca, cb. rewrite (run_step _ _ _ _ _ _ Ha Hr).
    cbn [length concat]. rewrite Hrun, Eo, Et, concat_app, <- app_assoc.
    repeat split; try assumption. lia.
Qed.

End PacedTransfer.

Lemma source_bytes_app s1 s2 :
  source_bytes (s1 ++ s2) = source_bytes s1 ++ source_bytes s2.
Proof. apply flat_map_app. Qed.

Lemma source_bytes_reads payloads :
  source_bytes (map In_bytes payloads) = concat payloads.
Proof.
  induction payloads as [|p payloads IH]; [reflexivity|].
  unfold source_bytes in *. cbn [map flat_map concat]. now rewrite IH.
Qed.

Lemma source_bytes_paced rounds :
  source_bytes (paced_script rounds) = concat (concat rounds).
Proof.
  induction rounds as [|payloads rounds IH]; [reflexivity|].
  rewrite paced_script_cons, source_bytes_app, source_bytes_reads.
  change (In_none :: paced_script rounds)
    with ([In_none] ++ paced_script rounds).
  rewrite source_bytes_app, IH. cbn [concat].
  now rewrite concat_app.
Qed.

Lemma concat_length_bound {A} (l : list A) (ls : list (list A)) :
  In l ls -> (length l <= length (concat ls))%nat.
Proof.
  induction ls as [|x ls IH]; [contradiction|].
  cbn [concat]. rewrite length_app. intros [->|H]; [lia|].
  specialize (IH H). lia.
Qed.

(** Where the transfer works.  Side A is fed a byte stream in rounds.  The
    reads of a round are not empty, are not the truncation message, hold at
    most [MAX_SEG_DATA_SIZE] bytes each and together at most [limit] bytes,
    which the send window of A and the sink of B can take; the end of the
    input is reported in a round of its own.  The receive window of B takes
    a full segment, the stream has at most 2^31 - 1 bytes, and both tick
    periods are positive, so that the division of [ctcp_init] is defined.
    Then, over a lossless in-order carrier, one round per group of reads and
    one more for the end of the input leave both engines destroyed, the sink
    of side B holds the stream followed by the end-of-stream mark, and the
    timer has ticked once per round. *)
Theorem paced_round_trip cfg_a cfg_b space limit rounds :
  flag_bits_distinct ->
  0 < cfg_timer cfg_a ->
  0 < cfg_timer cfg_b ->
  limit <= cfg_send_window cfg_a < 2 ^ 16 ->
  MAX_SEG_DATA_SIZE <= cfg_recv_window cfg_b < 2 ^ 16 ->
  limit <= space ->
  sizeof_segment + MAX_SEG_DATA_SIZE < 2 ^ 16 ->
  Forall (burst_fits MAX_SEG_DATA_SIZE limit) rounds ->
  Z.of_nat (length (source_bytes (paced_script rounds))) <= 2 ^ 31 - 1 ->
  exists n ca cb,
    run 2 (4 + 2 * length (concat rounds)) (S (length rounds)) space
      (connect (paced_script rounds) space cfg_a cfg_b) = Some n
    /\ side_a n = Destroyed ca
    /\ side_b n = Destroyed cb
    /\ c_output cb = source_bytes (paced_script rounds)
    /\ c_eof cb = true
    /\ ticks n = S (length rounds).
Proof.
  intros Hbits _ _ Hsw Hrw Hspace Hbound Hrounds Htotal.
  rewrite source_bytes_paced in *.
  destruct (paced_run cfg_a cfg_b space MAX_SEG_DATA_SIZE limit Hbits Hsw Hrw
              Hspace Hbound (2 * length (concat rounds)) rounds 0 [] 0%nat
              (connect (paced_script rounds) space cfg_a cfg_b))
    as (n & ca & cb & Hrun & Ea & Eb & Eo & Ee & Et);
    try assumption; try (unfold bytes_of; lia).
  - exists space, space, [], [], 1. reflexivity.
  - apply Forall_forall. intros payloads Hin.
    pose proof (concat_length_bound payloads rounds Hin). lia.
  - exists n, ca, cb. repeat split; assumption.
Qed.

(** Once both engines are destroyed the host has nothing left to run. *)
Lemma run_finished fuel steps rounds sp n :
  is_destroyed (side_a n) = true ->
  is_destroyed (side_b n) = true ->
  run fuel steps rounds sp n = Some n.
Proof. intros Ha Hb. destruct rounds; cbn [run]; now rewrite ?Ha, ?Hb. Qed.

Lemma run_more fuel steps sp extra : forall rounds n n',
  run fuel steps rounds sp n = Some n' ->
  is_destroyed (side_a n') = true ->
  is_destroyed (side_b n') = true ->
  run fuel steps (rounds + extra) sp n = Some n'.
Proof.
  induction rounds as [|rounds IH]; intros n n' Hrun Ha Hb.
  - injection Hrun as <-. now apply run_finished.
  - cbn [run Nat.add] in *.
    destruct (is_destroyed (side_a n) && is_destroyed (side_b n));
      [assumption|].
    destruct (round fuel steps sp n) as [n1|]; [|discriminate].
    now apply IH.
Qed.

(** * Further properties of the engine *)

(** ** The timer walk *)

Lemma timer_loop_more fuel : forall extra visited pending l,
  timer_loop fuel visited pending = Some l ->
  timer_loop (fuel + extra) visited pending = Some l.
Proof.
  induction fuel as [|fuel IH]; intros extra visited pending l H;
    [discriminate|].
  cbn [Nat.add timer_loop] in *. destruct pending as [|cur rest];
    [assumption|].
  destruct (timer_body cur) as [cur1 advance].
  destruct advance; now apply IH.
Qed.

Lemma timer_loop_passes : forall pending visited fuel,
  (2 * length pending < fuel)%nat ->
  timer_loop fuel visited pending = Some (visited ++ map timer_pass pending).
Proof.
  induction pending as [|cur rest IH]; intros visited fuel Hf.
  - destruct fuel; [simpl in Hf; lia|]. cbn [timer_loop map].
    now rewrite app_nil_r.
  - destruct fuel as [|fuel]; [simpl in Hf; lia|].
    cbn [timer_loop map]. unfold timer_pass at 1.
    destruct (timer_body cur) as [cur1 advance] eqn:E.
    destruct advance.
    + rewrite IH by (simpl in *; lia). now rewrite <- app_assoc.
    + apply timer_body_second_pass in E.
      destruct fuel as [|fuel]; [simpl in Hf; lia|].
      cbn [timer_loop].
      destruct (timer_body cur1) as [cur2 advance2]. cbn [fst snd] in *.
      subst. rewrite IH by (simpl in *; lia). now rewrite <- app_assoc.
Qed.

(** X1: [ctcp_timer] returns for every registry once it may make two passes
    per engine, and a larger budget changes nothing.  The registry keeps
    its order and every engine is handled on its own: what comes back is
    the old registry with each engine replaced by what the loop body makes
    of it, run a second time on an engine whose first pass did not move
    the cursor on. *)
Theorem ctcp_timer_returns state_list extra :
  ctcp_timer (S (2 * length state_list) + extra) state_list
  = Some (map timer_pass state_list).
Proof.
  unfold ctcp_timer. rewrite timer_loop_passes; [reflexivity|lia].
Qed.

Lemma timer_ticks_passes k : forall state_list,
  timer_ticks k state_list
  = Some (map (fun state => Nat.iter k timer_pass state) state_list).
Proof.
  induction k as [|k IH]; intros state_list.
  - cbn [timer_ticks Nat.iter nat_rect]. now rewrite map_id.
  - cbn [timer_ticks]. unfold ctcp_timer.
    rewrite timer_loop_passes by lia. cbn [app].
    rewrite IH, map_map. f_equal. apply map_ext. intros state.
    rewrite Nat.iter_swap. reflexivity.
Qed.

(** ** What sending leaves alone *)

Lemma send_walk_frame nodes : forall state,
  segment_teardown (fst (send_walk state nodes)) = segment_teardown state
  /\ rx_state (fst (send_walk state nodes)) = rx_state state
  /\ tx_state (fst (send_walk state nodes)) = tx_state state
  /\ map tx_buffer (snd (send_walk state nodes)) = map tx_buffer nodes
  /\ seqno (conn_state (fst (send_walk state nodes)))
     = seqno (conn_state state)
  /\ ackno (conn_state (fst (send_walk state nodes)))
     = ackno (conn_state state)
  /\ last_ackno (conn_state (fst (send_walk state nodes)))
     = last_ackno (conn_state state).
Proof.
  induction nodes as [|node rest IH]; intros state; [repeat split|].
  rewrite send_walk_cons. destruct (_ <? _); [repeat split|].
  unfold ctcp_send_data_segment. cbv beta iota zeta.
  match goal with |- context [send_walk ?s rest] =>
    destruct (IH s) as (T & R & Q & B & S & A & L);
    destruct (send_walk s rest) as [state3 rest3] end.
  cbn [fst snd] in *. rewrite T, R, Q, S, A, L.
  repeat split. cbn [map tx_buffer]. now rewrite B.
Qed.

Lemma ctcp_send_possible_frame state :
  segment_teardown (ctcp_send_possible_data_segment state)
  = segment_teardown state
  /\ rx_state (ctcp_send_possible_data_segment state) = rx_state state
  /\ map tx_buffer (tx_state (ctcp_send_possible_data_segment state))
     = map tx_buffer (tx_state state)
  /\ seqno (conn_state (ctcp_send_possible_data_segment state))
     = seqno (conn_state state)
  /\ ackno (conn_state (ctcp_send_possible_data_segment state))
     = ackno (conn_state state)
  /\ last_ackno (conn_state (ctcp_send_possible_data_segment state))
     = last_ackno (conn_state state).
Proof.
  unfold ctcp_send_possible_data_segment.
  match goal with |- context [send_walk ?s ?q] =>
    destruct (send_walk_frame q s) as (T & R & _ & B & S & A & L);
    destruct (send_walk s q) as [state1 q1] end.
  cbn [fst snd] in *. now repeat split.
Qed.

(** ** Teardown *)

Lemma read_loop_closing fuel script : forall state state',
  closing state -> read_loop fuel script state = Some state' ->
  closing state'.
Proof.
  induction script as [|r script IH]; intros state state' Hc H;
    cbn [read_loop] in H.
  - now injection H as <-.
  - destruct r as [bs| |].
    + destruct bs as [|b bs]; [now injection H as <-|].
      destruct (is_truncate_message (b :: bs)); [now injection H as <-|].
      eapply IH; [|exact H]. exact Hc.
    + now injection H as <-.
    + destruct (busy_wait fuel _); [|discriminate].
      destruct (busy_wait fuel _); [|discriminate].
      injection H as <-. discriminate.
Qed.

Lemma timer_body_closing state :
  closing state -> closing (fst (timer_body state)).
Proof.
  unfold closing, timer_body. intros Hc.
  destruct (time_out (ack_state state)).
  - destruct (_ =? _); [|exact Hc].
    destruct (_ =? 6); [discriminate|].
    cbn [segment_teardown set_ack_state].
    destruct (segment_teardown state) eqn:T; [contradiction| |];
      cbn [fst]; unfold ctcp_send_flags;
      cbn [segment_teardown set_conn set_ack_state]; rewrite T;
      discriminate.
  - destruct (ctcp_send_possible_frame state) as (T & _).
    destruct (0 <? _); cbn [fst].
    + destruct (ctcp_output_frame (ctcp_send_possible_data_segment state))
        as (_ & _ & _ & _ & _ & _ & D).
      now rewrite D, T.
    + now rewrite T.
Qed.

Lemma timer_loop_closing fuel : forall visited pending l,
  Forall closing visited -> Forall closing pending ->
  timer_loop fuel visited pending = Some l -> Forall closing l.
Proof.
  induction fuel as [|fuel IH]; intros visited pending l Hv Hp H;
    cbn [timer_loop] in H; [discriminate|].
  destruct pending as [|cur rest]; [now injection H as <-|].
  inversion Hp as [|? ? Hcur Hrest]; subst.
  pose proof (timer_body_closing cur Hcur) as Hb.
  destruct (timer_body cur) as [cur1 advance]. cbn [fst] in Hb.
  destruct advance; (eapply IH; [| |exact H]); auto.
  apply Forall_app. split; [assumption|]. now constructor.
Qed.

(** X2: a teardown that has begun is never taken back: whatever [ctcp_read],
    [ctcp_receive], [ctcp_output] and [ctcp_timer] do to an engine whose
    teardown state is not [NO_CLOSE], they leave it in a teardown state
    other than [NO_CLOSE]. *)
Theorem teardown_never_reopens :
  (forall fuel state state',
      closing state -> ctcp_read fuel state = Some state' -> closing state')
  /\ (forall fuel state segment state',
      closing state ->
      ctcp_receive fuel state segment = Some (Alive state') ->
      closing state')
  /\ (forall state, closing state -> closing (ctcp_output state))
  /\ (forall fuel state_list state_list',
      Forall closing state_list ->
      ctcp_timer fuel state_list = Some state_list' ->
      Forall closing state_list').
Proof.
  split; [|split; [|split]].
  - intros fuel state state' Hc H. unfold ctcp_read in H.
    destruct (read_loop fuel _ state) as [state1|] eqn:E; [|discriminate].
    injection H as <-. apply read_loop_closing in E; [|exact Hc].
    unfold closing in *.
    now destruct (ctcp_send_possible_frame state1) as (-> & _).
  - intros fuel state segment state' Hc H. unfold ctcp_receive in H.
    destruct (is_duplicate state segment); [now injection H as <-|].
    destruct (negb (received_len segment =? seg_len segment));
      [now injection H as <-|].
    destruct (negb (cksum_matches segment)); [now injection H as <-|].
    destruct (segment_type segment).
    + injection H as <-. unfold ctcp_receive_data_segment, closing in *.
      match goal with |- context [ctcp_output ?s] =>
        destruct (ctcp_output_frame s) as (_ & _ & _ & _ & _ & _ & D) end.
      rewrite D. now destruct (fits_rcv_window state segment).
    + injection H as H. unfold receive_ack, closing in *.
      destruct (segment_teardown state) eqn:T;
        [contradiction| |discriminate].
      destruct (ll_front (tx_state state));
        [|injection H as <-; now rewrite T].
      destruct (_ <=? _); [|injection H as <-; now rewrite T].
      destruct (ack_drain _ _ _). injection H as <-.
      cbn [segment_teardown set_ack_state set_tx_state set_conn_state].
      now rewrite T.
    + discriminate.
    + unfold ctcp_receive_fin_with_no_ack in H.
      set (state1 := set_conn_state _ state) in H.
      destruct (segment_teardown state1); try discriminate;
        unfold fin_passive_close in H;
        (destruct (busy_wait fuel _); [|discriminate]);
        injection H as <-; discriminate.
  - intros state Hc. unfold closing in *.
    destruct (ctcp_output_frame state) as (_ & _ & _ & _ & _ & _ & D).
    now rewrite D.
  - intros fuel l l' Hl H. eapply timer_loop_closing; [| |exact H]; auto.
Qed.

(** ** The retransmission timer *)

Lemma counting_passes state : forall k,
  time_out (ack_state state) = true ->
  counter (ack_state state) = 0 ->
  Z.of_nat k < timer_overflow (ack_state state) < 256 ->
  Nat.iter k timer_pass state
  = set_ack_state (set_counter (Z.of_nat k) (ack_state state)) state.
Proof.
  intros k Ht Hc. induction k as [|k IH]; intros Hk.
  - destruct state as [c cs tx rx [n cnt ov t] td]. cbn in *. now subst.
  - cbn [Nat.iter nat_rect]. fold (Nat.iter k timer_pass state).
    rewrite IH by lia. unfold timer_pass, timer_body.
    cbn [ack_state set_ack_state time_out set_counter counter
         timer_overflow].
    rewrite Ht.
    replace (wrap8 (Z.of_nat k + 1)) with (Z.of_nat (S k)) by wrap_lia.
    destruct (Z.eqb_spec (Z.of_nat (S k)) (timer_overflow (ack_state state)));
      [lia|].
    reflexivity.
Qed.

(** X3: a retransmission waits for the whole timeout.  An engine of the
    registry whose timer is armed with the tick counter at 0 sends nothing
    for the first [timer_overflow - 1] calls of [ctcp_timer]: only its
    tick counter moves.  The call that makes the counter reach
    [timer_overflow] counts one timeout, puts the counter back to 0 and,
    when no teardown is in progress and this is not the sixth timeout, runs
    [ctcp_send_possible_data_segment]. *)
Theorem retransmission_waits_for_overflow state_list i state k :
  nth_error state_list i = Some state ->
  time_out (ack_state state) = true ->
  counter (ack_state state) = 0 ->
  Z.of_nat k < timer_overflow (ack_state state) < 256 ->
  (exists l,
      timer_ticks k state_list = Some l
      /\ nth_error l i
         = Some (set_ack_state
                   (set_counter (Z.of_nat k) (ack_state state)) state))
  /\ (Z.of_nat (S k) = timer_overflow (ack_state state) ->
      segment_teardown state = NO_CLOSE ->
      wrap8 (time_out_num (ack_state state) + 1) <> 6 ->
      exists l,
        timer_ticks (S k) state_list = Some l
        /\ nth_error l i
           = Some (ctcp_send_possible_data_segment
                     (set_ack_state
                        (set_time_out_num
                           (wrap8 (time_out_num (ack_state state) + 1))
                           (ack_state state))
                        state))).
Proof.
  intros Hi Ht Hc Hk. split.
  - eexists. split; [apply timer_ticks_passes|].
    rewrite nth_error_map, Hi. cbn [option_map].
    now rewrite counting_passes.
  - intros Hov Htd H6. eexists. split; [apply timer_ticks_passes|].
    rewrite nth_error_map, Hi. cbn [option_map Nat.iter nat_rect].
    fold (Nat.iter k timer_pass state). rewrite counting_passes by assumption.
    unfold timer_pass, timer_body.
    cbn [ack_state set_ack_state time_out set_counter counter
         timer_overflow time_out_num set_time_out_num segment_teardown].
    rewrite Ht, Htd.
    replace (wrap8 (Z.of_nat k + 1)) with (Z.of_nat (S k)) by wrap_lia.
    rewrite Hov, Z.eqb_refl.
    destruct (Z.eqb_spec (wrap8 (time_out_num (ack_state state) + 1)) 6);
      [contradiction|].
    do 2 f_equal. unfold set_ack_state.
    cbn [conn conn_state tx_state rx_state segment_teardown]. f_equal.
    destruct (ack_state state) as [ton cnt ov t]. cbn in *. now subst.
Qed.

(** ** The window walk *)

Lemma after_burst_nil state : after_burst state [] (conn_state state) = state.
Proof. now destruct state. Qed.

Lemma send_walk_twice nodes : forall st st',
  conn_state st' = conn_state st ->
  exists burst cs,
    fst (send_walk st nodes) = after_burst st burst cs
    /\ send_walk st' (snd (send_walk st nodes))
       = (after_burst st' burst cs, snd (send_walk st nodes))
    /\ rewound cs = rewound (conn_state st).
Proof.
  induction nodes as [|node rest IH]; intros st st' Hcs.
  - exists [], (conn_state st). cbn [send_walk fst snd].
    rewrite after_burst_nil, <- Hcs, after_burst_nil. now rewrite Hcs.
  - rewrite send_walk_cons.
    destruct (send_window (conn_state st)
              <? buffer_size node + send_window_used (conn_state st)) eqn:B.
    + exists [], (conn_state st). cbn [fst snd]. rewrite send_walk_cons.
      rewrite Hcs, B, after_burst_nil, <- Hcs, after_burst_nil.
      now rewrite Hcs.
    + unfold ctcp_send_data_segment. cbv beta iota zeta.
      match goal with |- context [send_walk ?s rest] => set (st2 := s) end.
      match goal with |- context [mk_tx ?t (tx_buffer node)] =>
        set (node1 := mk_tx t (tx_buffer node)) end.
      set (st2' :=
             set_conn_state (conn_state st2)
               (set_ack_state (set_time_out true (ack_state st'))
                  (set_conn
                     (conn_send (conn st')
                        (fill_cksum
                           (mk_segment (next_seqno (conn_state st))
                              (ackno (conn_state st))
                              (wrap16 (sizeof_segment + buffer_size node))
                              0 0 (advertised_window (conn_state st))
                              (tx_buffer node))))
                     st'))).
      destruct (IH st2 st2' eq_refl) as (burst & cs & E1 & E2 & E3).
      destruct (send_walk st2 rest) as [st3 rest3]. cbn [fst snd] in *.
      eexists (_ :: burst), cs. split; [|split].
      * rewrite E1. subst st2. unfold after_burst.
        cbn [conn set_conn_state set_ack_state set_conn tx_state rx_state
             ack_state segment_teardown fold_left].
        f_equal. now destruct burst.
      * rewrite send_walk_cons.
        change (buffer_size node1) with (buffer_size node).
        rewrite Hcs, B. unfold ctcp_send_data_segment. cbv beta iota zeta.
        change (tx_buffer node1) with (tx_buffer node).
        change (buffer_size node1) with (buffer_size node).
        rewrite Hcs.
        match goal with |- context [send_walk ?s rest3] =>
          replace s with st2' end.
        2:{ subst st2' st2. destruct st' as [c' cs' tx' rx' a' td'].
            cbn in Hcs. subst cs'. reflexivity. }
        rewrite E2. f_equal. subst st2'. unfold after_burst.
        cbn [conn set_conn_state set_ack_state set_conn tx_state rx_state
             ack_state segment_teardown fold_left].
        f_equal. now destruct burst.
      * rewrite E3. subst st2. now destruct (conn_state st).
Qed.

(** X4: sending the window again repeats it.  After
    [ctcp_send_possible_data_segment] a second call puts the same datagrams
    on the wire once more, in the same order, and changes nothing else:
    the counters, both queues with their tags, the timer and the teardown
    state stay as the first call left them. *)
Theorem resending_repeats_the_window state :
  exists burst,
    conn (ctcp_send_possible_data_segment state)
    = fold_left conn_send burst (conn state)
    /\ ctcp_send_possible_data_segment
         (ctcp_send_possible_data_segment state)
       = set_conn
           (fold_left conn_send burst
              (conn (ctcp_send_possible_data_segment state)))
           (ctcp_send_possible_data_segment state).
Proof.
  set (st := set_conn_state (rewound (conn_state state)) state).
  assert (Es : ctcp_send_possible_data_segment state
               = set_tx_state (snd (send_walk st (tx_state state)))
                   (fst (send_walk st (tx_state state)))).
  { unfold ctcp_send_possible_data_segment. subst st. unfold rewound.
    now destruct (send_walk _ (tx_state state)). }
  rewrite Es. clear Es.
  destruct (send_walk_twice (tx_state state) st
              (set_tx_state (snd (send_walk st (tx_state state)))
                 (set_conn_state (rewound (conn_state state))
                    (fst (send_walk st (tx_state state))))))
    as (burst & cs & E1 & E2 & E3); [reflexivity|].
  exists burst.
  destruct (send_walk st (tx_state state)) as [st1 q] eqn:W.
  cbn [fst snd] in *. split; [now rewrite E1|].
  unfold ctcp_send_possible_data_segment.
  cbn [conn_state set_tx_state tx_state].
  fold (rewound (conn_state st1)).
  replace (rewound (conn_state st1)) with (rewound (conn_state state)).
  2:{ rewrite E1. cbn [after_burst conn_state]. rewrite E3.
      subst st. now destruct (conn_state state). }
  match goal with |- context [send_walk ?s q] =>
    replace s with
      (set_tx_state q (set_conn_state (rewound (conn_state state)) st1))
      by now destruct st1 end.
  rewrite E2. rewrite E1. unfold after_burst, set_tx_state, set_conn.
  cbn [conn conn_state tx_state rx_state ack_state segment_teardown
       set_conn_state].
  f_equal. now destruct burst.
Qed.

Lemma wrap32_add_l a b : wrap32 (wrap32 a + b) = wrap32 (a + b).
Proof. unfold wrap32. now rewrite Zplus_mod_idemp_l. Qed.

Lemma send_walk_shape nodes : forall st,
  0 <= send_window_used (conn_state st) <= send_window (conn_state st) ->
  send_window (conn_state st) < 2 ^ 16 ->
  0 <= next_seqno (conn_state st) < 2 ^ 32 ->
  exists burst waiting,
    c_sent (conn (fst (send_walk st nodes))) = c_sent (conn st) ++ burst
    /\ map tx_buffer nodes = map seg_data burst ++ waiting
    /\ data_chain (next_seqno (conn_state st)) burst
    /\ Forall (fun g => seg_ackno g = ackno (conn_state st)) burst
    /\ send_window_used (conn_state (fst (send_walk st nodes)))
       = send_window_used (conn_state st) + carried burst
    /\ send_window_used (conn_state (fst (send_walk st nodes)))
       <= send_window (conn_state st)
    /\ next_seqno (conn_state (fst (send_walk st nodes)))
       = wrap32 (next_seqno (conn_state st) + carried burst)
    /\ match waiting with
       | [] => True
       | w :: _ =>
           send_window (conn_state st)
           < Z.of_nat (length w)
             + send_window_used (conn_state (fst (send_walk st nodes)))
       end.
Proof.
  induction nodes as [|node rest IH]; intros st Hu Hw Hn.
  - exists [], []. cbn [send_walk fst snd map app data_chain carried
                         fold_right].
    rewrite app_nil_r, !Z.add_0_r, wrap32_small by exact Hn.
    repeat split; try constructor; lia.
  - rewrite send_walk_cons.
    destruct (send_window (conn_state st)
              <? buffer_size node + send_window_used (conn_state st)) eqn:B.
    + exists [], (map tx_buffer (node :: rest)).
      cbn [fst snd map app data_chain carried fold_right].
      rewrite app_nil_r, !Z.add_0_r, wrap32_small by exact Hn.
      apply Z.ltb_lt in B. unfold buffer_size in B.
      repeat split; try constructor; lia.
    + apply Z.ltb_ge in B.
      assert (Hsize : 0 <= buffer_size node) by (unfold buffer_size; lia).
      unfold ctcp_send_data_segment. cbv beta iota zeta.
      match goal with |- context [fill_cksum ?x] =>
        set (g := fill_cksum x) end.
      match goal with |- context [send_walk ?s rest] => set (st2 := s) end.
      destruct (IH st2) as (burst & waiting & S & Q & D & A & U & L & N & W).
      { subst st2. cbn. rewrite wrap16_small; lia. }
      { exact Hw. }
      { subst st2. cbn. unfold wrap32. apply Z.mod_pos_bound. lia. }
      destruct (send_walk st2 rest) as [st3 rest3]. cbn [fst snd] in *.
      exists (g :: burst), waiting.
      assert (U2 : send_window_used (conn_state st2)
                   = send_window_used (conn_state st) + buffer_size node).
      { subst st2. cbn. rewrite wrap16_small; lia. }
      change (send_window (conn_state st2))
        with (send_window (conn_state st)) in *.
      change (ackno (conn_state st2)) with (ackno (conn_state st)) in *.
      change (next_seqno (conn_state st2))
        with (wrap32 (next_seqno (conn_state st) + buffer_size node)) in *.
      cbn [map app data_chain carried fold_right]. fold (carried burst).
      change (seg_data g) with (tx_buffer node).
      fold (buffer_size node).
      split; [|split; [|split; [|split; [|split; [|split; [|split]]]]]].
      * rewrite S. subst st2. cbn [conn set_conn_state set_ack_state set_conn
                                    conn_send c_sent].
        now rewrite <- app_assoc.
      * now rewrite Q.
      * split; [reflexivity|]. split; [reflexivity|].
        split; [reflexivity|]. exact D.
      * constructor; [reflexivity|exact A].
      * lia.
      * exact L.
      * rewrite N, wrap32_add_l. f_equal. lia.
      * exact W.
Qed.

(** X5: what one run of [ctcp_send_possible_data_segment] puts on the
    wire.  With a send window below 2^16 and [seqno] a 32-bit number, the
    new datagrams are DATA segments numbered consecutively from [seqno],
    each acknowledging [ackno]; their payloads are the payloads at the
    front of the send queue, in queue order; together they fit the send
    window, and the first payload left waiting would not.  Afterwards
    [send_window_used] counts the bytes sent and [next_seqno] is [seqno]
    plus that count. *)
Theorem window_burst_shape state :
  0 <= send_window (conn_state state) < 2 ^ 16 ->
  0 <= seqno (conn_state state) < 2 ^ 32 ->
  exists burst waiting,
    c_sent (conn (ctcp_send_possible_data_segment state))
    = c_sent (conn state) ++ burst
    /\ map tx_buffer (tx_state state) = map seg_data burst ++ waiting
    /\ data_chain (seqno (conn_state state)) burst
    /\ Forall (fun g => seg_ackno g = ackno (conn_state state)) burst
    /\ carried burst <= send_window (conn_state state)
    /\ match waiting with
       | [] => True
       | w :: _ =>
           send_window (conn_state state)
           < Z.of_nat (length w) + carried burst
       end
    /\ send_window_used (conn_state (ctcp_send_possible_data_segment state))
       = carried burst
    /\ next_seqno (conn_state (ctcp_send_possible_data_segment state))
       = wrap32 (seqno (conn_state state) + carried burst).
Proof.
  intros Hw Hs. unfold ctcp_send_possible_data_segment.
  match goal with |- context [send_walk ?s _] => set (st := s) end.
  destruct (send_walk_shape (tx_state state) st)
    as (burst & waiting & S & Q & D & A & U & L & N & W).
  { subst st. cbn. lia. }
  { subst st. cbn. lia. }
  { subst st. cbn. lia. }
  destruct (send_walk st (tx_state state)) as [st1 q]. cbn [fst snd] in *.
  exists burst, waiting.
  change (send_window_used (conn_state st)) with 0 in *.
  change (send_window (conn_state st))
    with (send_window (conn_state state)) in *.
  change (next_seqno (conn_state st)) with (seqno (conn_state state)) in *.
  change (ackno (conn_state st)) with (ackno (conn_state state)) in *.
  change (c_sent (conn st)) with (c_sent (conn state)) in *.
  cbn [conn conn_state set_tx_state].
  rewrite U in W, L. cbn [Z.add] in W, L.
  repeat split; assumption.
Qed.

(** ** Sequence numbers and the bytes in flight *)

Lemma in_flight_frame cs cs' :
  seqno cs' = seqno cs -> next_seqno cs' = next_seqno cs ->
  send_window_used cs' = send_window_used cs ->
  in_flight cs -> in_flight cs'.
Proof. unfold in_flight. now intros -> -> ->. Qed.

Lemma ctcp_send_possible_flight state :
  engine_inv state -> 0 < seqno (conn_state state) < 2 ^ 32 ->
  in_flight (conn_state (ctcp_send_possible_data_segment state)).
Proof.
  intros (Hsw & _) Hs.
  destruct (ctcp_send_possible_frame state) as (_ & _ & _ & S & _).
  unfold in_flight. rewrite S. split; [exact Hs|].
  unfold ctcp_send_possible_data_segment.
  match goal with |- context [send_walk ?s _] => set (st := s) end.
  destruct (send_walk_shape (tx_state state) st)
    as (burst & waiting & _ & _ & _ & _ & U & _ & N & _).
  { subst st. cbn. lia. }
  { subst st. cbn. lia. }
  { subst st. cbn. lia. }
  destruct (send_walk st (tx_state state)) as [st1 q]. cbn [fst snd] in *.
  cbn [conn_state set_tx_state]. rewrite N, U. reflexivity.
Qed.

Lemma read_loop_conn_state fuel script : forall state state',
  read_loop fuel script state = Some state' ->
  conn_state state' = conn_state state.
Proof.
  induction script as [|r script IH]; intros state state' H;
    cbn [read_loop] in H.
  - now injection H as <-.
  - destruct r as [bs| |].
    + destruct bs as [|b bs]; [now injection H as <-|].
      destruct (is_truncate_message (b :: bs)); [now injection H as <-|].
      now rewrite (IH _ _ H).
    + now injection H as <-.
    + destruct (busy_wait fuel _); [|discriminate].
      destruct (busy_wait fuel _); [|discriminate].
      now injection H as <-.
Qed.

Lemma ack_drain_flight segment_ackno : forall sent cs unsent,
  tags_from (seqno cs) sent ->
  Forall untagged unsent ->
  send_window_used cs = payload_total sent ->
  send_window_used cs < 2 ^ 16 ->
  in_flight cs ->
  in_flight (fst (ack_drain segment_ackno cs (sent ++ unsent))).
Proof.
  induction sent as [|node sent IH]; intros cs unsent Ht Hu Hs Hb Hf.
  - cbn [app].
    assert (E : ack_drain segment_ackno cs unsent = (cs, unsent)).
    { destruct unsent as [|u unsent]; [reflexivity|].
      inversion Hu as [|? ? Hz _]; subst. unfold untagged in Hz.
      cbn [ack_drain]. rewrite Hz. now rewrite andb_false_r. }
    now rewrite E.
  - destruct Ht as [Htag Ht]. cbn [app ack_drain].
    destruct ((segment_next_seqno node <=? segment_ackno)
              && (0 <? segment_next_seqno node)) eqn:E; [|exact Hf].
    apply andb_true_iff in E as [_ E]. apply Z.ltb_lt in E.
    pose proof (payload_total_nonneg sent) as Hp.
    assert (Hsize : 0 <= buffer_size node) by (unfold buffer_size; lia).
    cbn [payload_total fold_right] in Hs. fold (payload_total sent) in Hs.
    apply IH; try assumption.
    + cbn. rewrite wrap16_small; lia.
    + cbn. rewrite wrap16_small; lia.
    + destruct Hf as [Hr Hn]. unfold in_flight. cbn.
      rewrite wrap16_small by lia. split.
      * split; [exact E|]. rewrite Htag. unfold wrap32.
        apply Z.mod_pos_bound. lia.
      * rewrite Hn, Htag, wrap32_add_l. f_equal. lia.
Qed.

Lemma receive_ack_flight state segment state' :
  flight_inv state ->
  receive_ack state segment = Alive state' ->
  in_flight (conn_state state').
Proof.
  intros [Hinv Hf]. unfold receive_ack.
  destruct (segment_teardown state); try discriminate;
    (destruct (ll_front (tx_state state)) as [front|];
     [|intros H; injection H as <-; exact Hf]);
    (destruct (segment_next_seqno front <=? seg_ackno segment);
     [|intros H; injection H as <-; exact Hf]);
    destruct Hinv as (Hsw & Hrw & Hsu & Hru & (sent & unsent & Hq & Ht & Hu
                      & Hs) & Hrx);
    rewrite Hq;
    (pose proof (ack_drain_flight (seg_ackno segment) sent
                   (conn_state state) unsent Ht Hu Hs) as D);
    (destruct (ack_drain (seg_ackno segment) (conn_state state)
                 (sent ++ unsent)) as [cs1 q]);
    intros H; injection H as <-; apply D; [lia|exact Hf|lia|exact Hf].
Qed.

Lemma ctcp_output_flight state :
  in_flight (conn_state state) -> in_flight (conn_state (ctcp_output state)).
Proof.
  destruct (ctcp_output_frame state) as (_ & v & _ & -> & _).
  now apply in_flight_frame.
Qed.

Lemma ctcp_receive_flight fuel state segment state' :
  flight_inv state ->
  ctcp_receive fuel state segment = Some (Alive state') ->
  in_flight (conn_state state').
Proof.
  unfold ctcp_receive. intros Hinv H. pose proof Hinv as [_ Hf].
  destruct (is_duplicate state segment); [now injection H as <-|].
  destruct (negb (received_len segment =? seg_len segment));
    [now injection H as <-|].
  destruct (negb (cksum_matches segment)); [now injection H as <-|].
  destruct (segment_type segment).
  - injection H as <-. unfold ctcp_receive_data_segment.
    apply ctcp_output_flight.
    now destruct (fits_rcv_window state segment).
  - injection H as H. eapply receive_ack_flight; eassumption.
  - discriminate.
  - unfold ctcp_receive_fin_with_no_ack in H.
    set (state1 := set_conn_state _ state) in H.
    destruct (segment_teardown state1); try discriminate;
      unfold fin_passive_close in H;
      (destruct (busy_wait fuel _); [|discriminate]);
      injection H as <-; exact Hf.
Qed.

Lemma timer_body_flight state :
  flight_inv state -> flight_inv (fst (timer_body state)).
Proof.
  intros [Hinv Hf]. split; [now apply timer_body_inv|].
  pose proof Hf as [Hs _].
  unfold timer_body. destruct (time_out (ack_state state)).
  - destruct (_ =? _); [|exact Hf].
    set (state3 := set_ack_state _ state).
    assert (Hinv3 : engine_inv state3)
      by (revert Hinv; now apply engine_inv_frame).
    destruct (_ =? 6); cbn [fst]; [exact Hf|].
    destruct (segment_teardown state3); cbn [fst]; try exact Hf.
    now apply ctcp_send_possible_flight.
  - destruct (0 <? _); cbn [fst].
    + now apply ctcp_output_flight, ctcp_send_possible_flight.
    + now apply ctcp_send_possible_flight.
Qed.

Lemma timer_loop_flight fuel : forall visited pending l,
  Forall flight_inv visited ->
  Forall flight_inv pending ->
  timer_loop fuel visited pending = Some l ->
  Forall flight_inv l.
Proof.
  induction fuel as [|fuel IH]; intros visited pending l Hv Hp H;
    cbn [timer_loop] in H; [discriminate|].
  destruct pending as [|cur rest]; [now injection H as <-|].
  inversion Hp as [|? ? Hcur Hrest]; subst.
  pose proof (timer_body_flight cur Hcur) as Hb.
  destruct (timer_body cur) as [cur1 advance]. cbn [fst] in Hb.
  destruct advance; (eapply IH; [| |exact H]); auto.
  apply Forall_app. split; [assumption|]. now constructor.
Qed.

(** X6: the sequence counters stay in step.  On an engine that satisfies
    the queue invariant, whose [seqno] is a positive 32-bit number and whose
    [next_seqno] is [seqno] plus [send_window_used] in 32-bit arithmetic,
    [ctcp_read], [ctcp_receive], [ctcp_output] and [ctcp_timer] keep all
    of that; the engine that [ctcp_init] makes starts there when the
    configured windows fit their 16-bit fields. *)
Theorem handlers_preserve_flight_inv :
  (forall fuel state state',
      flight_inv state -> ctcp_read fuel state = Some state' ->
      flight_inv state')
  /\ (forall fuel state segment state',
      flight_inv state ->
      ctcp_receive fuel state segment = Some (Alive state') ->
      flight_inv state')
  /\ (forall state, flight_inv state -> flight_inv (ctcp_output state))
  /\ (forall fuel state_list state_list',
      Forall flight_inv state_list ->
      ctcp_timer fuel state_list = Some state_list' ->
      Forall flight_inv state_list')
  /\ (forall c cfg,
      0 <= cfg_send_window cfg < 2 ^ 16 ->
      0 <= cfg_recv_window cfg < 2 ^ 16 ->
      flight_inv (new_engine c cfg)).
Proof.
  split; [|split; [|split; [|split]]].
  - intros fuel state state' [Hinv Hf] H.
    split; [eapply ctcp_read_inv; eassumption|].
    unfold ctcp_read in H.
    destruct (read_loop fuel _ state) as [state1|] eqn:E; [|discriminate].
    injection H as <-. apply ctcp_send_possible_flight.
    + eapply read_loop_inv; eassumption.
    + rewrite (read_loop_conn_state _ _ _ _ E). apply Hf.
  - intros fuel state segment state' Hinv H. split.
    + destruct Hinv as [Hinv _]. eapply ctcp_receive_inv; eassumption.
    + eapply ctcp_receive_flight; eassumption.
  - intros state [Hinv Hf]. split; [now apply ctcp_output_inv|].
    now apply ctcp_output_flight.
  - intros fuel l l' Hl H. eapply timer_loop_flight; [| |exact H]; auto.
  - intros c cfg Hs Hr. split.
    + eapply ctcp_init_inv with (state_list := []); [exact Hs|exact Hr|].
      reflexivity.
    + unfold in_flight. cbn. split; [lia|reflexivity].
Qed.

(** ** Delivery to the sink *)

Lemma output_walk_delivers nodes : forall st,
  Forall whole_payload nodes ->
  0 <= c_bufspace (conn st) ->
  exists delivered acks,
    nodes = delivered ++ snd (output_walk st nodes)
    /\ c_output (conn (fst (output_walk st nodes)))
       = c_output (conn st) ++ concat (map rx_buffer delivered)
    /\ c_sent (conn (fst (output_walk st nodes))) = c_sent (conn st) ++ acks
    /\ length acks = length delivered
    /\ Forall (bare_ack (ackno (conn_state st))) acks
    /\ c_bufspace (conn (fst (output_walk st nodes)))
       = c_bufspace (conn st) - held_total delivered
    /\ 0 <= c_bufspace (conn (fst (output_walk st nodes)))
    /\ c_eof (conn (fst (output_walk st nodes)))
       = c_eof (conn st)
         || existsb (fun node => byte_left node =? 0) delivered
    /\ match snd (output_walk st nodes) with
       | [] => True
       | node :: _ =>
           c_bufspace (conn (fst (output_walk st nodes))) = 0
           \/ c_bufspace (conn (fst (output_walk st nodes)))
              < byte_left node
       end.
Proof.
  induction nodes as [|node rest IH]; intros st Hw Hb.
  - exists [], []. rewrite output_walk_nil.
    cbn [fst snd app map concat held_total fold_right existsb length].
    rewrite !app_nil_r, Z.sub_0_r, orb_false_r.
    repeat split; try apply Forall_nil; assumption.
  - rewrite output_walk_cons. unfold conn_bufspace.
    destruct ((c_bufspace (conn st) =? 0)
              || (c_bufspace (conn st) <? byte_left node)) eqn:B.
    + exists [], [].
      cbn [fst snd app map concat held_total fold_right existsb length].
      rewrite !app_nil_r, Z.sub_0_r, orb_false_r.
      apply orb_true_iff in B. rewrite Z.eqb_eq, Z.ltb_lt in B.
      repeat split; try apply Forall_nil; assumption.
    + apply orb_false_iff in B. rewrite Z.eqb_neq, Z.ltb_ge in B.
      inversion Hw as [|? ? Hnode Hrest]; subst.
      rewrite (whole_payload_slice node Hnode).
      destruct Hnode as [Hused Hleft].
      assert (Ho : conn_output (conn st) (rx_buffer node)
                   = (byte_left node,
                      mk_conn (c_input (conn st))
                        (c_bufspace (conn st) - byte_left node)
                        (c_output (conn st) ++ rx_buffer node)
                        (c_eof (conn st) || (byte_left node =? 0))
                        (c_sent (conn st)))).
      { rewrite Hleft. destruct (rx_buffer node) as [|b bs].
        - cbn. rewrite app_nil_r, Z.sub_0_r, orb_true_r. reflexivity.
        - unfold conn_output. f_equal. f_equal.
          cbn [length]. rewrite Nat2Z.inj_succ.
          destruct (Z.eqb_spec (Z.succ (Z.of_nat (length bs))) 0); [lia|].
          now rewrite orb_false_r. }
      rewrite Ho. cbv beta iota zeta. cbn [byte_left].
      rewrite Z.sub_diag. cbn [Z.leb Z.compare].
      destruct (flag_shape_of_send
                  (set_conn_state
                     (set_rcv_window_used
                        (wrap16 (rcv_window_used (conn_state st)
                                 - byte_left node))
                        (conn_state st))
                     (set_conn
                        (mk_conn (c_input (conn st))
                           (c_bufspace (conn st) - byte_left node)
                           (c_output (conn st) ++ rx_buffer node)
                           (c_eof (conn st) || (byte_left node =? 0))
                           (c_sent (conn st)))
                        st))
                  (ackno (conn_state st)) ACK)
        as (g & (G1 & G2 & G3 & G4 & G5 & G6) & E).
      cbn [conn_state set_conn_state set_conn] in *.
      cbn [ackno set_rcv_window_used] in *.
      rewrite E. clear E.
      match goal with |- context [output_walk ?s rest] => set (st1 := s) end.
      destruct (IH st1 Hrest)
        as (delivered & acks & Q & O & S & L & A & P & N & F & W).
      { subst st1. cbn. lia. }
      destruct (output_walk st1 rest) as [st2 rest2]. cbn [fst snd] in *.
      exists (node :: delivered), (g :: acks).
      cbn [app map concat held_total fold_right existsb length].
      fold (held_total delivered).
      split; [now rewrite <- Q|].
      split; [rewrite O; subst st1; cbn; now rewrite <- app_assoc|].
      split; [rewrite S; subst st1; cbn; now rewrite <- app_assoc|].
      split; [now rewrite L|].
      split; [constructor; [now repeat split|exact A]|].
      split; [rewrite P; subst st1; cbn; lia|].
      split; [exact N|].
      split; [rewrite F; subst st1; cbn; now rewrite orb_assoc|].
      exact W.
Qed.

(** X7: [ctcp_output] on a receive queue of whole payloads, with a sink that
    reports its free space as a non-negative number, hands over the
    payloads at the front of the queue, in order and unchanged, and leaves
    the rest queued.  It sends one header-only ACK carrying [ackno] for
    every payload handed over, takes the bytes off the free space of the
    sink, and stops only at the end of the queue, at a full sink or at a
    payload larger than the space left.  A queued payload of no bytes
    reaches the sink as a write of length zero, the end-of-stream mark. *)
Theorem ctcp_output_delivers_in_order state :
  Forall whole_payload (rx_state state) ->
  0 <= c_bufspace (conn state) ->
  exists delivered acks,
    rx_state state = delivered ++ rx_state (ctcp_output state)
    /\ c_output (conn (ctcp_output state))
       = c_output (conn state) ++ concat (map rx_buffer delivered)
    /\ c_sent (conn (ctcp_output state)) = c_sent (conn state) ++ acks
    /\ length acks = length delivered
    /\ Forall (bare_ack (ackno (conn_state state))) acks
    /\ c_bufspace (conn (ctcp_output state))
       = c_bufspace (conn state) - held_total delivered
    /\ 0 <= c_bufspace (conn (ctcp_output state))
    /\ c_eof (conn (ctcp_output state))
       = c_eof (conn state)
         || existsb (fun node => byte_left node =? 0) delivered
    /\ match rx_state (ctcp_output state) with
       | [] => True
       | node :: _ =>
           c_bufspace (conn (ctcp_output state)) = 0
           \/ c_bufspace (conn (ctcp_output state)) < byte_left node
       end.
Proof.
  intros Hw Hb. unfold ctcp_output.
  destruct (output_walk_delivers (rx_state state) state Hw Hb)
    as (delivered & acks & H).
  destruct (output_walk state (rx_state state)) as [state1 q].
  exists delivered, acks. exact H.
Qed.

(** ** Reading the source *)

Lemma after_reads_here state script :
  c_input (conn state) = script -> reads_taken script = [] ->
  after_reads state script
  = set_conn (set_input (skipn 1 script) (conn state)) state.
Proof.
  intros _ E. unfold after_reads. rewrite E. cbn [map length].
  rewrite app_nil_r. now destruct state.
Qed.

Lemma read_loop_spec fuel script : forall state,
  c_input (conn state) = script ->
  read_loop fuel script state
  = match stop_entry script with
    | Some In_eof =>
        let state0 := after_reads state script in
        match busy_wait fuel (ll_length (rx_state state0)) with
        | None => None
        | Some _ =>
            match busy_wait fuel (ll_length (tx_state state0)) with
            | None => None
            | Some _ =>
                let state1 := set_teardown ACTIVE_CLOSE state0 in
                let state2 :=
                  ctcp_send_flags state1 (ackno (conn_state state1)) FIN in
                Some (set_ack_state
                        (set_time_out true (ack_state state2)) state2)
            end
        end
    | _ => Some (after_reads state script)
    end.
Proof.
  induction script as [|r script IH]; intros state Hs.
  - cbn [read_loop stop_entry reads_taken length nth_error].
    rewrite after_reads_here by easy.
    destruct state as [[i sp o e l] cs tx rx a td]. cbn in Hs. now subst.
  - destruct r as [[|b bs]| |].
    + cbn [read_loop stop_entry reads_taken length nth_error].
      now rewrite after_reads_here.
    + cbn [read_loop]. unfold stop_entry. cbn [reads_taken].
      destruct (is_truncate_message (b :: bs)) eqn:T.
      * cbn [length nth_error].
        rewrite after_reads_here; [reflexivity|assumption|].
        cbn [reads_taken]. now rewrite T.
      * cbn [length nth_error]. fold (stop_entry script).
        rewrite IH by reflexivity.
        assert (E : after_reads
                      (set_tx_state
                         (ll_add
                            (tx_state
                               (set_conn (set_input script (conn state))
                                  state))
                            (mk_tx 0 (b :: bs)))
                         (set_conn (set_input script (conn state)) state))
                      script
                    = after_reads state (In_bytes (b :: bs) :: script)).
        { unfold after_reads. cbn [reads_taken]. rewrite T.
          unfold ll_add.
          cbn [tx_state set_tx_state set_conn conn map length skipn
               set_input c_input c_bufspace c_output c_eof c_sent
               conn_state rx_state ack_state segment_teardown].
          now rewrite <- app_assoc. }
        now rewrite E.
    + cbn [read_loop stop_entry reads_taken length nth_error].
      now rewrite after_reads_here.
    + cbn [read_loop stop_entry reads_taken length nth_error].
      now rewrite after_reads_here.
Qed.

Lemma busy_wait_none fuel length :
  busy_wait (S fuel) length = None <-> 0 < length.
Proof.
  split; [|apply busy_wait_never_returns].
  cbn [busy_wait]. destruct (Z.ltb_spec 0 length); [easy|discriminate].
Qed.

Lemma ll_length_pos {A} (l : list A) : 0 < ll_length l <-> l <> [].
Proof.
  unfold ll_length. destruct l; cbn [length]; split; try easy; lia.
Qed.

(** X8: [ctcp_read] fails to return exactly when its loop meets the end of
    the input while something is queued: an undelivered payload in the
    receive queue, an unacknowledged or unsent payload in the send queue,
    or a payload read earlier in the same call.  In every other case it
    returns. *)
Theorem ctcp_read_hangs_iff fuel state :
  ctcp_read (S fuel) state = None <-> eof_meets_queue state.
Proof.
  unfold ctcp_read, eof_meets_queue.
  rewrite (read_loop_spec (S fuel) (c_input (conn state)) state eq_refl).
  destruct (stop_entry (c_input (conn state))) as [[bs| |]|].
  - split; [discriminate|]. now intros [H _].
  - split; [discriminate|]. now intros [H _].
  - cbv zeta.
    change (rx_state (after_reads state (c_input (conn state))))
      with (rx_state state).
    change (tx_state (after_reads state (c_input (conn state))))
      with (tx_state state
            ++ map (mk_tx 0) (reads_taken (c_input (conn state)))).
    destruct (busy_wait (S fuel) (ll_length (rx_state state))) eqn:R.
    + destruct (busy_wait (S fuel) (ll_length (tx_state state ++ _))) eqn:Q.
      * split; [discriminate|]. intros [_ H]. exfalso.
        assert (Hr : ~ 0 < ll_length (rx_state state)).
        { intros Hp. apply (busy_wait_none fuel) in Hp. congruence. }
        assert (Hq : ~ 0 < ll_length
                           (tx_state state
                            ++ map (mk_tx 0)
                                 (reads_taken (c_input (conn state))))).
        { intros Hp. apply (busy_wait_none fuel) in Hp. congruence. }
        rewrite ll_length_pos in Hr. rewrite ll_length_pos in Hq.
        destruct H as [H|[H|H]].
        -- now apply Hr.
        -- apply Hq. intros E. apply app_eq_nil in E. now apply H.
        -- apply Hq. intros E. apply app_eq_nil in E. apply H.
           destruct E as [_ E]. now apply map_eq_nil in E.
      * split; [|reflexivity]. intros _. split; [reflexivity|].
        apply busy_wait_none, ll_length_pos in Q.
        destruct (tx_state state); [|right; left; discriminate].
        right. right. intros E. apply Q. now rewrite E.
    + split; [|reflexivity]. intros _. split; [reflexivity|].
      left. now apply busy_wait_none, ll_length_pos in R.
  - split; [discriminate|]. now intros [H _].
Qed.

Lemma fold_conn_send burst : forall c,
  fold_left conn_send burst c
  = mk_conn (c_input c) (c_bufspace c) (c_output c) (c_eof c)
      (c_sent c ++ burst).
Proof.
  induction burst as [|g burst IH]; intros c; cbn [fold_left].
  - rewrite app_nil_r. now destruct c.
  - rewrite IH. unfold conn_send.
    cbn [c_input c_bufspace c_output c_eof c_sent].
    now rewrite <- app_assoc.
Qed.

Lemma ctcp_send_possible_host state :
  c_input (conn (ctcp_send_possible_data_segment state))
  = c_input (conn state)
  /\ c_output (conn (ctcp_send_possible_data_segment state))
     = c_output (conn state)
  /\ c_bufspace (conn (ctcp_send_possible_data_segment state))
     = c_bufspace (conn state)
  /\ c_eof (conn (ctcp_send_possible_data_segment state))
     = c_eof (conn state).
Proof.
  unfold ctcp_send_possible_data_segment.
  match goal with |- context [send_walk ?s ?q] =>
    destruct (send_walk_twice q s s eq_refl) as (burst & cs & E & _);
    destruct (send_walk s q) as [state1 q1] end.
  cbn [fst] in E. subst state1.
  cbn [conn set_tx_state after_burst]. rewrite fold_conn_send.
  now repeat split.
Qed.

(** X9: what a call of [ctcp_read] that returns has taken from the source.
    The send queue has grown at the back by the reads in front of the
    first entry at which the loop stops (the end of the script, a read of
    nothing, the end of the input or a truncation message), in the order
    they were read and byte for byte; that entry is consumed as well and
    the rest of the script is left for later.  Receive queue and sink are
    not touched. *)
Theorem ctcp_read_queues_reads fuel state state' :
  ctcp_read fuel state = Some state' ->
  map tx_buffer (tx_state state')
  = map tx_buffer (tx_state state) ++ reads_taken (c_input (conn state))
  /\ c_input (conn state')
     = skipn (S (length (reads_taken (c_input (conn state)))))
         (c_input (conn state))
  /\ rx_state state' = rx_state state
  /\ c_output (conn state') = c_output (conn state).
Proof.
  unfold ctcp_read.
  rewrite (read_loop_spec fuel (c_input (conn state)) state eq_refl).
  assert (H : forall state1,
             tx_state state1
             = tx_state (after_reads state (c_input (conn state))) ->
             rx_state state1 = rx_state state ->
             c_input (conn state1)
             = c_input (conn (after_reads state (c_input (conn state)))) ->
             c_output (conn state1) = c_output (conn state) ->
             Some (ctcp_send_possible_data_segment state1) = Some state' ->
             map tx_buffer (tx_state state')
             = map tx_buffer (tx_state state)
               ++ reads_taken (c_input (conn state))
             /\ c_input (conn state')
                = skipn (S (length (reads_taken (c_input (conn state)))))
                    (c_input (conn state))
             /\ rx_state state' = rx_state state
             /\ c_output (conn state') = c_output (conn state)).
  { intros state1 T R I O E. injection E as <-.
    destruct (ctcp_send_possible_frame state1) as (_ & R1 & B1 & _).
    destruct (ctcp_send_possible_host state1) as (I1 & O1 & _).
    rewrite B1, R1, I1, O1, T, R, I, O.
    cbn [after_reads tx_state set_tx_state conn set_conn c_input set_input].
    rewrite map_app, map_map. cbn [tx_buffer]. now rewrite map_id. }
  destruct (stop_entry (c_input (conn state))) as [[bs| |]|];
    try (apply H; reflexivity).
  cbv zeta. destruct (busy_wait fuel _); [|discriminate].
  destruct (busy_wait fuel _); [|discriminate].
  apply H; reflexivity.
Qed.

(** ** The end of an engine *)

(** X10: when [ctcp_receive] destroys the engine.  It does so for exactly
    three kinds of segment that pass the duplicate, length and checksum
    tests: a segment with FIN and ACK, in any teardown state; a FIN without
    ACK when the engine is in [ACTIVE_CLOSE]; and an ACK without FIN when
    the engine is in [PASSIVE_CLOSE].  No DATA segment, no segment that a
    test turns down and no other combination of flags and teardown state
    ends in [ctcp_destroy]. *)
Theorem ctcp_receive_destroys_iff fuel state segment :
  (exists c, ctcp_receive fuel state segment = Some (Destroyed c))
  <-> destroys state segment = true.
Proof.
  unfold ctcp_receive, destroys, well_received.
  destruct (is_duplicate state segment); cbn [negb andb].
  { split; [intros [c H]; discriminate|discriminate]. }
  destruct (received_len segment =? seg_len segment); cbn [negb andb].
  2:{ split; [intros [c H]; discriminate|discriminate]. }
  destruct (cksum_matches segment); cbn [negb andb].
  2:{ split; [intros [c H]; discriminate|discriminate]. }
  destruct (segment_type segment).
  - split; [intros [c H]; discriminate|discriminate].
  - unfold receive_ack.
    destruct (segment_teardown state).
    + split; [|discriminate]. intros [c H]. exfalso.
      destruct (ll_front (tx_state state)); [|discriminate].
      destruct (_ <=? _); [|discriminate].
      destruct (ack_drain _ _ _). discriminate.
    + split; [|discriminate]. intros [c H]. exfalso.
      destruct (ll_front (tx_state state)); [|discriminate].
      destruct (_ <=? _); [|discriminate].
      destruct (ack_drain _ _ _). discriminate.
    + split; [reflexivity|]. intros _. now eexists.
  - split; [reflexivity|]. intros _. now eexists.
  - unfold ctcp_receive_fin_with_no_ack. cbn [segment_teardown set_conn_state].
    destruct (segment_teardown state).
    + split; [|discriminate]. intros [c H]. exfalso.
      unfold fin_passive_close in H.
      destruct (busy_wait fuel _); discriminate.
    + split; [reflexivity|]. intros _. now eexists.
    + split; [|discriminate]. intros [c H]. exfalso.
      unfold fin_passive_close in H.
      destruct (busy_wait fuel _); discriminate.
Qed.

(** ** Two formulas *)

(** X11: the tick count that [ctcp_init] stores in [timer_overflow] is the
    retransmission timeout divided by the tick period and rounded up: the
    least number of ticks that covers the timeout.  This holds for a
    positive period and a timeout of at most 255 periods; the field has
    eight bits. *)
Theorem timer_overflow_covers_timeout c cfg :
  0 < cfg_timer cfg ->
  0 <= cfg_rt_timeout cfg <= 255 * cfg_timer cfg ->
  cfg_rt_timeout cfg
  <= timer_overflow (ack_state (new_engine c cfg)) * cfg_timer cfg
  < cfg_rt_timeout cfg + cfg_timer cfg.
Proof.
  intros Ht Hr. unfold new_engine. cbn [ack_state timer_overflow].
  rewrite Z.rem_mod_nonneg, Z.quot_div_nonneg by lia.
  pose proof (Z.div_mod (cfg_rt_timeout cfg) (cfg_timer cfg)) as D.
  pose proof (Z.mod_pos_bound (cfg_rt_timeout cfg) (cfg_timer cfg) Ht) as M.
  assert (Hq : 0 <= cfg_rt_timeout cfg / cfg_timer cfg)
    by (apply Z.div_pos; lia).
  destruct (Z.eqb_spec (cfg_rt_timeout cfg mod cfg_timer cfg) 0) as [E|E].
  - assert (Hb : cfg_rt_timeout cfg / cfg_timer cfg < 256) by nia.
    unfold wrap8. rewrite Z.mod_small by (change (2 ^ 8) with 256; lia).
    nia.
  - assert (Hb : cfg_rt_timeout cfg / cfg_timer cfg + 1 < 256) by nia.
    unfold wrap8. rewrite Z.mod_small by (change (2 ^ 8) with 256; lia).
    nia.
Qed.


(** ** A full acknowledgement *)

Lemma ack_drain_all segment_ackno : forall sent cs unsent,
  tags_from (seqno cs) sent ->
  Forall untagged unsent ->
  send_window_used cs = payload_total sent ->
  send_window_used cs < 2 ^ 16 ->
  0 < seqno cs ->
  seqno cs + payload_total sent <= segment_ackno < 2 ^ 32 ->
  ack_drain segment_ackno cs (sent ++ unsent)
  = (set_send_window_used 0 (set_seqno (seqno cs + payload_total sent) cs),
     unsent).
Proof.
  induction sent as [|node sent IH]; intros cs unsent Ht Hu Hs Hb Hp Ha.
  - cbn [app payload_total fold_right] in *.
    assert (E : ack_drain segment_ackno cs unsent = (cs, unsent)).
    { destruct unsent as [|u unsent]; [reflexivity|].
      inversion Hu as [|? ? Hz _]; subst. unfold untagged in Hz.
      cbn [ack_drain]. rewrite Hz. now rewrite andb_false_r. }
    rewrite E. f_equal. destruct cs. cbn in *. subst.
    now rewrite Z.add_0_r.
  - destruct Ht as [Htag Ht]. cbn [app ack_drain].
    pose proof (payload_total_nonneg sent) as Hpos.
    assert (Hsize : 0 <= buffer_size node) by (unfold buffer_size; lia).
    cbn [payload_total fold_right] in *. fold (payload_total sent) in *.
    rewrite wrap32_small in Htag by lia.
    destruct (Z.leb_spec (segment_next_seqno node) segment_ackno); [|lia].
    destruct (Z.ltb_spec 0 (segment_next_seqno node)); [|lia].
    cbn [andb]. rewrite IH.
    2-7: cbn; try rewrite wrap16_small; try assumption; lia.
    unfold set_send_window_used, set_seqno. cbn. rewrite Htag.
    do 2 f_equal. lia.
Qed.

(** X13: an acknowledgement of everything sent clears the flight.  On an
    engine that satisfies the queue and sequence invariants, is not in
    [PASSIVE_CLOSE], has a send queue that is not empty and whose sequence
    numbers have not wrapped ([seqno + send_window_used] below 2^32), a
    pure ACK that passes the tests and carries [next_seqno] drops every
    transmitted payload and leaves only those never transmitted; [seqno]
    moves up to [next_seqno], [send_window_used] falls to 0, the
    retransmission timer is disarmed and its two counters are 0.
    Connection object and receive queue are untouched. *)
Theorem full_ack_clears_the_flight fuel state segment :
  flight_inv state ->
  pure_ack segment ->
  well_received segment = true ->
  segment_teardown state <> PASSIVE_CLOSE ->
  seg_ackno segment = next_seqno (conn_state state) ->
  seqno (conn_state state) + send_window_used (conn_state state) < 2 ^ 32 ->
  tx_state state <> [] ->
  exists state' sent,
    ctcp_receive fuel state segment = Some (Alive state')
    /\ tx_state state = sent ++ tx_state state'
    /\ payload_total sent = send_window_used (conn_state state)
    /\ Forall untagged (tx_state state')
    /\ seqno (conn_state state') = next_seqno (conn_state state)
    /\ next_seqno (conn_state state') = next_seqno (conn_state state)
    /\ send_window_used (conn_state state') = 0
    /\ ack_state state'
       = mk_ack_state 0 0 (timer_overflow (ack_state state)) false
    /\ conn state' = conn state
    /\ rx_state state' = rx_state state.
Proof.
  intros [Hinv [Hseq Hnext]] Hp Hw Htd Hack Hwrap Hq.
  destruct Hinv as (Hsw & Hrw & Hsu & Hru & (sent & unsent & Eq & Ht & Hu
                    & Hs) & Hrx).
  pose proof (payload_total_nonneg sent) as Hpos.
  rewrite wrap32_small in Hnext by lia.
  unfold ctcp_receive.
  rewrite (pure_ack_not_duplicate state segment (proj1 Hp)).
  unfold well_received in Hw. apply andb_true_iff in Hw as [Hl Hc].
  rewrite Hl, Hc. cbn [negb]. rewrite (pure_ack_type segment Hp).
  unfold receive_ack.
  assert (Hfront : match ll_front (tx_state state) with
                   | Some front =>
                       (segment_next_seqno front <=? seg_ackno segment)
                       = true
                   | None => False
                   end).
  { rewrite Eq in *. destruct sent as [|node sent'].
    - destruct unsent as [|u unsent']; [now apply Hq|].
      inversion Hu as [|? ? Hz _]; subst. unfold untagged in Hz.
      cbn [app ll_front hd_error]. rewrite Hz. apply Z.leb_le. lia.
    - destruct Ht as [Htag _]. cbn [app ll_front hd_error].
      cbn [payload_total fold_right] in *. fold (payload_total sent') in *.
      pose proof (payload_total_nonneg sent') as Hpos'.
      assert (Hsize : 0 <= buffer_size node) by (unfold buffer_size; lia).
      rewrite wrap32_small in Htag by lia. apply Z.leb_le. lia. }
  destruct (ll_front (tx_state state)) as [front|]; [|contradiction].
  rewrite Hfront, Eq.
  rewrite (ack_drain_all (seg_ackno segment) sent (conn_state state) unsent)
    by (try assumption; lia).
  rewrite Hack. cbn [next_seqno set_send_window_used set_seqno].
  rewrite Z.eqb_refl.
  exists (set_ack_state
            (set_time_out_num 0
               (set_counter 0 (set_time_out false (ack_state state))))
            (set_tx_state unsent
               (set_conn_state
                  (set_send_window_used 0
                     (set_seqno
                        (seqno (conn_state state) + payload_total sent)
                        (conn_state state)))
                  state))), sent.
  split.
  { destruct (segment_teardown state); [reflexivity|reflexivity|].
    now contradiction Htd. }
  cbn. repeat split; try assumption; try lia.
Qed.

(** ** The datagrams on the wire *)

Lemma sends_shaped_refl c : sends_shaped c c.
Proof. exists []. now rewrite app_nil_r. Qed.

Lemma sends_shaped_trans c1 c2 c3 :
  sends_shaped c1 c2 -> sends_shaped c2 c3 -> sends_shaped c1 c3.
Proof.
  intros (n1 & E1 & F1) (n2 & E2 & F2). exists (n1 ++ n2). split.
  - now rewrite E2, E1, app_assoc.
  - apply Forall_app; auto.
Qed.

Lemma sends_shaped_same_log c c' :
  c_sent c' = c_sent c -> sends_shaped c c'.
Proof. intros E. exists []. now rewrite app_nil_r. Qed.

Lemma flag_segment_shape seq ack fl w :
  fl = ACK \/ fl = FIN ->
  wire_shape (fill_cksum (mk_segment seq ack sizeof_segment 0 fl w [])).
Proof.
  intros Hf. split.
  - unfold well_received. now rewrite cksum_matches_fill.
  - right. now split.
Qed.

Lemma data_segment_shape seq ack w payload :
  sizeof_segment + Z.of_nat (length payload) < 2 ^ 16 ->
  wire_shape
    (fill_cksum
       (mk_segment seq ack
          (wrap16 (sizeof_segment + Z.of_nat (length payload))) 0 0 w
          payload)).
Proof.
  intros Hb. split; [|now left].
  unfold well_received. rewrite cksum_matches_fill, andb_true_r.
  unfold received_len. cbn [seg_data seg_len fill_cksum set_seg_cksum].
  rewrite wrap16_small by (unfold sizeof_segment in *; lia).
  apply Z.eqb_refl.
Qed.

Lemma ctcp_send_flags_shaped state ack fl :
  fl = ACK \/ fl = FIN ->
  sends_shaped (conn state) (conn (ctcp_send_flags state ack fl)).
Proof.
  intros Hf. eexists. split; [reflexivity|].
  constructor; [|constructor]. now apply flag_segment_shape.
Qed.

Lemma send_walk_window nodes : forall state,
  send_window (conn_state (fst (send_walk state nodes)))
  = send_window (conn_state state).
Proof.
  induction nodes as [|node rest IH]; intros state; [reflexivity|].
  rewrite send_walk_cons. destruct (_ <? _); [reflexivity|].
  unfold ctcp_send_data_segment. cbv beta iota zeta.
  match goal with |- context [send_walk ?s rest] =>
    specialize (IH s); destruct (send_walk s rest) as [state3 rest3] end.
  cbn [fst] in *. now rewrite IH.
Qed.

Lemma ctcp_send_possible_window state :
  send_window (conn_state (ctcp_send_possible_data_segment state))
  = send_window (conn_state state).
Proof.
  unfold ctcp_send_possible_data_segment.
  match goal with |- context [send_walk ?s ?q] =>
    pose proof (send_walk_window q s) as H;
    destruct (send_walk s q) as [state1 q1] end.
  exact H.
Qed.

Lemma send_walk_shaped nodes : forall state,
  small_window state ->
  0 <= send_window_used (conn_state state) ->
  sends_shaped (conn state) (conn (fst (send_walk state nodes))).
Proof.
  induction nodes as [|node rest IH]; intros state Hw Hu.
  - apply sends_shaped_refl.
  - rewrite send_walk_cons.
    destruct (send_window (conn_state state)
              <? buffer_size node + send_window_used (conn_state state))
      eqn:B; [apply sends_shaped_refl|].
    apply Z.ltb_ge in B. unfold small_window in Hw.
    assert (Hsize : 0 <= buffer_size node) by (unfold buffer_size; lia).
    unfold ctcp_send_data_segment. cbv beta iota zeta.
    match goal with |- context [send_walk ?s rest] =>
      assert (IHs := IH s); destruct (send_walk s rest) as [state3 rest3] end.
    cbn [fst] in *. eapply sends_shaped_trans; [|apply IHs].
    + eexists. split; [reflexivity|]. constructor; [|constructor].
      apply data_segment_shape. fold (buffer_size node). lia.
    + exact Hw.
    + cbn. unfold sizeof_segment in Hw. rewrite wrap16_small; lia.
Qed.

Lemma ctcp_send_possible_shaped state :
  small_window state ->
  sends_shaped (conn state) (conn (ctcp_send_possible_data_segment state)).
Proof.
  intros Hw. unfold ctcp_send_possible_data_segment.
  match goal with |- context [send_walk ?s ?q] =>
    pose proof (send_walk_shaped q s Hw) as H;
    destruct (send_walk s q) as [state1 q1] end.
  apply H. cbn. lia.
Qed.

Lemma output_walk_shaped nodes : forall state,
  sends_shaped (conn state) (conn (fst (output_walk state nodes))).
Proof.
  induction nodes as [|node rest IH]; intros state.
  - apply sends_shaped_refl.
  - rewrite output_walk_cons.
    destruct (_ || _); [apply sends_shaped_refl|].
    match goal with |- context [conn_output ?c ?bs] =>
      pose proof (conn_output_same_log c bs) as E;
      destruct (conn_output c bs) as [n c1] end.
    cbn [snd] in E. cbv beta iota zeta. destruct (_ <=? 0).
    + eapply sends_shaped_trans; [|apply IH].
      eapply sends_shaped_trans;
        [|apply ctcp_send_flags_shaped; now left].
      now apply sends_shaped_same_log.
    + now apply sends_shaped_same_log.
Qed.

Lemma ctcp_output_shaped state :
  sends_shaped (conn state) (conn (ctcp_output state)).
Proof.
  unfold ctcp_output.
  pose proof (output_walk_shaped (rx_state state) state) as H.
  destruct (output_walk state (rx_state state)). exact H.
Qed.

Lemma read_loop_shaped fuel script : forall state state',
  read_loop fuel script state = Some state' ->
  sends_shaped (conn state) (conn state').
Proof.
  induction script as [|r script IH]; intros state state' H;
    cbn [read_loop] in H.
  - injection H as <-. apply sends_shaped_refl.
  - destruct r as [bs| |].
    + destruct bs as [|b bs].
      * injection H as <-. now apply sends_shaped_same_log.
      * destruct (is_truncate_message (b :: bs)).
        -- injection H as <-. now apply sends_shaped_same_log.
        -- apply IH in H. eapply sends_shaped_trans; [|exact H].
           now apply sends_shaped_same_log.
    + injection H as <-. now apply sends_shaped_same_log.
    + destruct (busy_wait fuel _); [|discriminate].
      destruct (busy_wait fuel _); [|discriminate].
      injection H as <-.
      change (conn (set_ack_state ?a ?s)) with (conn s).
      eapply sends_shaped_trans;
        [|apply ctcp_send_flags_shaped; now right].
      now apply sends_shaped_same_log.
Qed.

Lemma ctcp_receive_shaped fuel state segment r :
  ctcp_receive fuel state segment = Some r ->
  sends_shaped (conn state) (result_conn r).
Proof.
  unfold ctcp_receive. intros H.
  destruct (is_duplicate state segment).
  { injection H as <-. apply ctcp_send_flags_shaped. now left. }
  destruct (negb (received_len segment =? seg_len segment)).
  { injection H as <-. apply sends_shaped_refl. }
  destruct (negb (cksum_matches segment)).
  { injection H as <-. apply sends_shaped_refl. }
  destruct (segment_type segment).
  - injection H as <-. unfold ctcp_receive_data_segment.
    cbn [result_conn].
    eapply sends_shaped_trans; [|apply ctcp_output_shaped].
    destruct (fits_rcv_window state segment);
      now apply sends_shaped_same_log.
  - injection H as <-. apply sends_shaped_same_log.
    apply receive_ack_same_log.
  - injection H as <-.
    change (result_conn (ctcp_destroy ?s)) with (conn s).
    eapply sends_shaped_trans; [|apply ctcp_send_flags_shaped; now left].
    now apply sends_shaped_same_log.
  - unfold ctcp_receive_fin_with_no_ack in H.
    set (state1 := set_conn_state _ state) in H.
    assert (Hp : fin_passive_close fuel state1 = Some r ->
                 sends_shaped (conn state) (result_conn r)).
    { unfold fin_passive_close. intros Hf.
      destruct (busy_wait fuel _); [|discriminate]. injection Hf as <-.
      change (result_conn (Alive ?s)) with (conn s).
      change (conn (set_teardown ?t ?s)) with (conn s).
      change (conn (set_ack_state ?a ?s)) with (conn s).
      eapply sends_shaped_trans;
        [|apply ctcp_send_flags_shaped; now right].
      eapply sends_shaped_trans;
        [|apply ctcp_send_flags_shaped; now left].
      now apply sends_shaped_same_log. }
    destruct (segment_teardown state1); try exact (Hp H).
    injection H as <-.
    change (result_conn (ctcp_destroy ?s)) with (conn s).
    eapply sends_shaped_trans; [|apply ctcp_send_flags_shaped; now left].
    now apply sends_shaped_same_log.
Qed.

Lemma timer_body_shaped state :
  small_window state ->
  sends_shaped (conn state) (conn (fst (timer_body state)))
  /\ small_window (fst (timer_body state)).
Proof.
  intros Hw. unfold timer_body. destruct (time_out (ack_state state)).
  - destruct (_ =? _);
      [|split; [now apply sends_shaped_same_log|exact Hw]].
    destruct (_ =? 6); cbn [fst].
    + split; [|exact Hw].
      change (conn (set_teardown ?t ?s)) with (conn s).
      change (conn (set_ack_state ?a ?s)) with (conn s).
      eapply sends_shaped_trans;
        [|apply ctcp_send_flags_shaped; now right].
      now apply sends_shaped_same_log.
    + cbn [segment_teardown set_ack_state].
      destruct (segment_teardown state); cbn [fst].
      * split.
        -- eapply sends_shaped_trans;
             [|apply ctcp_send_possible_shaped; exact Hw].
           now apply sends_shaped_same_log.
        -- unfold small_window. now rewrite ctcp_send_possible_window.
      * split; [|exact Hw].
        eapply sends_shaped_trans;
          [|apply ctcp_send_flags_shaped; now right].
        now apply sends_shaped_same_log.
      * split; [|exact Hw].
        eapply sends_shaped_trans;
          [|apply ctcp_send_flags_shaped; now right].
        now apply sends_shaped_same_log.
  - assert (Hw1 : small_window (ctcp_send_possible_data_segment state)).
    { unfold small_window. now rewrite ctcp_send_possible_window. }
    destruct (0 <? _); cbn [fst].
    + split.
      * eapply sends_shaped_trans;
          [apply ctcp_send_possible_shaped; exact Hw
          |apply ctcp_output_shaped].
      * unfold small_window in *.
        destruct (ctcp_output_frame (ctcp_send_possible_data_segment state))
          as (_ & v & _ & -> & _).
        exact Hw1.
    + split; [now apply ctcp_send_possible_shaped|exact Hw1].
Qed.

Lemma timer_loop_shaped fuel : forall visited pending l,
  Forall small_window pending ->
  timer_loop fuel visited pending = Some l ->
  exists l2, l = visited ++ l2
    /\ Forall2 (fun s s' => sends_shaped (conn s) (conn s')) pending l2.
Proof.
  induction fuel as [|fuel IH]; intros visited pending l Hp H;
    cbn [timer_loop] in H; [discriminate|].
  destruct pending as [|cur rest].
  - injection H as <-. exists []. split; [now rewrite app_nil_r|constructor].
  - inversion Hp as [|? ? Hcur Hrest]; subst.
    destruct (timer_body_shaped cur Hcur) as [Hb Hw].
    destruct (timer_body cur) as [cur1 advance]. cbn [fst] in Hb, Hw.
    destruct advance.
    + apply IH in H as (l2 & -> & F); [|exact Hrest].
      exists (cur1 :: l2). split; [now rewrite <- app_assoc|].
      now constructor.
    + apply IH in H as (l2 & -> & F); [|now constructor].
      exists l2. split; [reflexivity|].
      inversion F; subst. constructor; [|assumption].
      eapply sends_shaped_trans; eassumption.
Qed.

(** * Calls that stay in a wait loop *)

Lemma busy_wait_step fuel length :
  busy_wait (S fuel) length = if 0 <? length then None else Some tt.
Proof.
  cbn [busy_wait]. destruct (Z.ltb_spec 0 length); [|reflexivity].
  now apply busy_wait_never_returns.
Qed.

(** The engine in the wait loop of the passive close: the end of stream
    has gone to the sink and the ACK is on the wire. *)
Lemma fin_passive_close_agrees fuel state :
  match fin_passive_close (S fuel) state with
  | Some r => fin_passive_close_outcome state = Returned r
  | None =>
      fin_passive_close_outcome state
      = Waiting
          (ctcp_send_flags
             (set_conn (snd (conn_output (conn state) [])) state)
             (ackno (conn_state state)) ACK)
  end.
Proof.
  unfold fin_passive_close, fin_passive_close_outcome.
  rewrite busy_wait_step. now destruct (0 <? _).
Qed.

Lemma ctcp_receive_agrees fuel state segment :
  match ctcp_receive (S fuel) state segment with
  | Some r => ctcp_receive_outcome state segment = Returned r
  | None =>
      exists state1,
        conn state1 = conn state
        /\ ctcp_receive_outcome state segment
           = Waiting
               (ctcp_send_flags
                  (set_conn (snd (conn_output (conn state1) [])) state1)
                  (ackno (conn_state state1)) ACK)
  end.
Proof.
  unfold ctcp_receive, ctcp_receive_outcome.
  destruct (is_duplicate state segment); [reflexivity|].
  destruct (negb (received_len segment =? seg_len segment)); [reflexivity|].
  destruct (negb (cksum_matches segment)); [reflexivity|].
  destruct (segment_type segment); try reflexivity.
  unfold ctcp_receive_fin_with_no_ack, ctcp_receive_fin_with_no_ack_outcome.
  cbv zeta.
  match goal with |- context [fin_passive_close _ ?s] =>
    set (state1 := s); pose proof (fin_passive_close_agrees fuel state1) as H
  end.
  destruct (segment_teardown state1); try reflexivity;
    (destruct (fin_passive_close (S fuel) state1); [exact H|];
     exists state1; split; [reflexivity|exact H]).
Qed.

Lemma read_loop_agrees fuel script : forall state,
  match read_loop (S fuel) script state with
  | Some state' => read_loop_outcome script state = Returned (Alive state')
  | None =>
      exists state',
        read_loop_outcome script state = Waiting state'
        /\ c_sent (conn state') = c_sent (conn state)
  end.
Proof.
  induction script as [|r script IH]; intros state; [reflexivity|].
  cbn [read_loop read_loop_outcome].
  destruct r as [[|b bs]| |]; try reflexivity.
  - destruct (is_truncate_message (b :: bs)); [reflexivity|].
    match goal with |- context [read_loop _ script ?s] =>
      specialize (IH s); destruct (read_loop (S fuel) script s) end;
      [exact IH|].
    destruct IH as (state' & E & L). exists state'. now split.
  - rewrite !busy_wait_step.
    destruct (0 <? _); [eexists; split; reflexivity|].
    destruct (0 <? _); [eexists; split; reflexivity|reflexivity].
Qed.

Lemma ctcp_read_agrees fuel state :
  match ctcp_read (S fuel) state with
  | Some state' => ctcp_read_outcome state = Returned (Alive state')
  | None =>
      exists state',
        ctcp_read_outcome state = Waiting state'
        /\ c_sent (conn state') = c_sent (conn state)
  end.
Proof.
  unfold ctcp_read, ctcp_read_outcome.
  pose proof (read_loop_agrees fuel (c_input (conn state)) state) as H.
  destruct (read_loop (S fuel) (c_input (conn state)) state).
  - now rewrite H.
  - destruct H as (state' & -> & L). now exists state'.
Qed.

Lemma ctcp_read_shaped fuel state state' :
  small_window state ->
  ctcp_read fuel state = Some state' ->
  sends_shaped (conn state) (conn state').
Proof.
  intros Hw H. unfold ctcp_read in H.
  destruct (read_loop fuel _ state) as [state1|] eqn:E; [|discriminate].
  injection H as <-.
  eapply sends_shaped_trans; [exact (read_loop_shaped _ _ _ _ E)|].
  apply ctcp_send_possible_shaped. unfold small_window in *.
  now rewrite (read_loop_conn_state _ _ _ _ E).
Qed.

(** C9: every datagram a handler hands to [conn_send] carries the checksum
    that is recomputed over its bytes with the checksum field zeroed.  For
    [ctcp_read], [ctcp_receive], [ctcp_output] and every engine of the
    registry walked by [ctcp_timer], the log of sent datagrams grows by
    segments that all verify.  This holds of the calls that return and of
    those that do not: a call of [ctcp_read] or [ctcp_receive] either
    returns, or stays in a wait loop with an engine whose log has grown
    by segments that verify, the ACK of the passive close among them; and
    [ctcp_timer] returns for every registry. *)
Theorem emitted_datagrams_carry_their_checksum :
  (forall fuel state state',
      ctcp_read fuel state = Some state' ->
      sends_verified (conn state) (conn state'))
  /\ (forall fuel state segment r,
      ctcp_receive fuel state segment = Some r ->
      sends_verified (conn state) (result_conn r))
  /\ (forall state, sends_verified (conn state) (conn (ctcp_output state)))
  /\ (forall fuel state_list state_list',
      ctcp_timer fuel state_list = Some state_list' ->
      Forall2 (fun s s' => sends_verified (conn s) (conn s'))
        state_list state_list')
  /\ (forall fuel state,
      match ctcp_read (S fuel) state with
      | Some state' => ctcp_read_outcome state = Returned (Alive state')
      | None =>
          exists state',
            ctcp_read_outcome state = Waiting state'
            /\ sends_verified (conn state) (conn state')
      end)
  /\ (forall fuel state segment,
      match ctcp_receive (S fuel) state segment with
      | Some r => ctcp_receive_outcome state segment = Returned r
      | None =>
          exists state',
            ctcp_receive_outcome state segment = Waiting state'
            /\ sends_verified (conn state) (conn state')
      end)
  /\ (forall state_list extra,
      exists state_list',
        ctcp_timer (S (2 * length state_list) + extra) state_list
        = Some state_list').
Proof.
  split; [|split; [|split; [|split; [|split; [|split]]]]].
  - apply ctcp_read_verified.
  - apply ctcp_receive_verified.
  - intros state. destruct (ctcp_output_verified state) as (new & E & F).
    exists new. auto.
  - intros fuel l l' H. apply timer_loop_verified in H as (l2 & -> & F).
    exact F.
  - intros fuel state. pose proof (ctcp_read_agrees fuel state) as H.
    destruct (ctcp_read (S fuel) state); [exact H|].
    destruct H as (state' & E & L). exists state'.
    split; [exact E|now apply sends_verified_same_log].
  - intros fuel state segment.
    pose proof (ctcp_receive_agrees fuel state segment) as H.
    destruct (ctcp_receive (S fuel) state segment); [exact H|].
    destruct H as (state1 & C & E). eexists. split; [exact E|].
    eapply sends_verified_trans; [|apply ctcp_send_flags_verified].
    apply sends_verified_same_log. cbn [conn set_conn].
    now rewrite conn_output_same_log, C.
  - intros state_list extra. unfold ctcp_timer.
    apply timer_loop_terminates. lia.
Qed.

(** X14: what the engine puts on the wire.  With a send window that leaves
    room for the header in the 16-bit length field, every datagram that
    [ctcp_read], [ctcp_receive], [ctcp_output] and [ctcp_timer] hand to
    [conn_send] is either a DATA segment without flags or a header-only
    segment with the ACK bit or the FIN bit alone, and it declares its own
    length and carries the checksum of its bytes: the length and checksum
    tests of [ctcp_receive] accept it.  No handler sends FIN together with
    ACK, and none sends a flag with a payload.  This holds of the calls
    that return and of those that do not: a call of [ctcp_read] or
    [ctcp_receive] either returns, or stays in a wait loop with an engine
    whose log has grown by datagrams of these two kinds, the ACK of the
    passive close among them; and [ctcp_timer] returns for every
    registry. *)
Theorem emitted_datagrams_pass_the_tests :
  (forall fuel state state',
      small_window state ->
      ctcp_read fuel state = Some state' ->
      sends_shaped (conn state) (conn state'))
  /\ (forall fuel state segment r,
      ctcp_receive fuel state segment = Some r ->
      sends_shaped (conn state) (result_conn r))
  /\ (forall state, sends_shaped (conn state) (conn (ctcp_output state)))
  /\ (forall fuel state_list state_list',
      Forall small_window state_list ->
      ctcp_timer fuel state_list = Some state_list' ->
      Forall2 (fun s s' => sends_shaped (conn s) (conn s'))
        state_list state_list')
  /\ (forall fuel state,
      match ctcp_read (S fuel) state with
      | Some state' => ctcp_read_outcome state = Returned (Alive state')
      | None =>
          exists state',
            ctcp_read_outcome state = Waiting state'
            /\ sends_shaped (conn state) (conn state')
      end)
  /\ (forall fuel state segment,
      match ctcp_receive (S fuel) state segment with
      | Some r => ctcp_receive_outcome state segment = Returned r
      | None =>
          exists state',
            ctcp_receive_outcome state segment = Waiting state'
            /\ sends_shaped (conn state) (conn state')
      end)
  /\ (forall state_list extra,
      exists state_list',
        ctcp_timer (S (2 * length state_list) + extra) state_list
        = Some state_list').
Proof.
  split; [|split; [|split; [|split; [|split; [|split]]]]].
  - apply ctcp_read_shaped.
  - apply ctcp_receive_shaped.
  - apply ctcp_output_shaped.
  - intros fuel l l' Hl H.
    apply timer_loop_shaped in H as (l2 & -> & F); assumption.
  - intros fuel state. pose proof (ctcp_read_agrees fuel state) as H.
    destruct (ctcp_read (S fuel) state); [exact H|].
    destruct H as (state' & E & L). exists state'.
    split; [exact E|now apply sends_shaped_same_log].
  - intros fuel state segment.
    pose proof (ctcp_receive_agrees fuel state segment) as H.
    destruct (ctcp_receive (S fuel) state segment); [exact H|].
    destruct H as (state1 & C & E). eexists. split; [exact E|].
    eapply sends_shaped_trans; [|apply ctcp_send_flags_shaped; now left].
    apply sends_shaped_same_log. cbn [conn set_conn].
    now rewrite conn_output_same_log, C.
  - intros state_list extra. unfold ctcp_timer.
    apply timer_loop_terminates. lia.
Qed.

End EngineProperties.

(** * The registry as a linked structure *)

Section RegistryProperties.

Context {sys : ctcp_sys}.

Lemma linked_frame h h' l : forall from p,
  (forall x, In x (map fst l) ->
             Registry.cell_at h' x = Registry.cell_at h x) ->
  Registry.linked h from p l -> Registry.linked h' from p l.
Proof.
  induction l as [|[a st] rest IH]; intros from p Hx H; [exact H|].
  destruct H as (Hp & c & Hc & Hprev & Heng & Hrest).
  split; [exact Hp|]. exists c. rewrite Hx by (now left).
  repeat split; try assumption.
  apply IH; [|exact Hrest]. intros x Hin. apply Hx. now right.
Qed.

Lemma linked_allocated h l : forall from p x,
  Registry.linked h from p l -> In x (map fst l) ->
  Registry.cell_at h x <> None.
Proof.
  induction l as [|[a st] rest IH]; intros from p x H Hin; [easy|].
  destruct H as (Hp & c & Hc & Hprev & Heng & Hrest).
  destruct Hin as [<-|Hin]; [cbn [fst]; congruence|].
  eapply IH; eassumption.
Qed.

Lemma linked_at h a st l2 : forall l1 from p,
  Registry.linked h from p (l1 ++ (a, st) :: l2) ->
  exists c,
    Registry.cell_at h a = Some c
    /\ Registry.prev c = Registry.end_slot from l1
    /\ Registry.engine c = st
    /\ Registry.linked h (Registry.Next_of a) (Registry.next c) l2.
Proof.
  induction l1 as [|[x sx] l1 IH]; intros from p H.
  - destruct H as (Hp & c & Hc & Hprev & Heng & Hrest). now exists c.
  - destruct H as (Hp & c & Hc & Hprev & Heng & Hrest).
    exact (IH _ _ Hrest).
Qed.

Lemma linked_first h from p l :
  Registry.linked h from p l -> p = hd_error (map fst l).
Proof. destruct l as [|[a st] rest]; [easy|]. now intros [-> _]. Qed.

Lemma end_slot_in : forall l from,
  l <> [] ->
  exists y, Registry.end_slot from l = Registry.Next_of y
            /\ In y (map fst l).
Proof.
  induction l as [|[a st] rest IH]; intros from Hl; [easy|].
  destruct rest as [|r rest'].
  - exists a. split; [reflexivity|now left].
  - destruct (IH (Registry.Next_of a)) as (y & E & Hin); [easy|].
    exists y. split; [exact E|now right].
Qed.

(** X15: the linking of [ctcp_init].  On a store that holds the registry
    and with [calloc] returning an address that is not in use, the new
    engine becomes the first of the registry and the engines that were
    there follow in their old order; [state_list] points at the new cell,
    whose [prev] points back at [state_list], and the [prev] of the old
    first cell now points at the [next] field of the new one.  No other
    cell changes.  The list that the list-level [ctcp_init] returns is the
    list of the engines of the new registry. *)
Theorem ctcp_init_links_at_head h l fresh c cfg :
  Registry.registry h l ->
  Registry.cell_at h fresh = None ->
  exists h',
    Registry.ctcp_init fresh (Some c) cfg h = Some (Some fresh, h')
    /\ Registry.registry h' ((fresh, new_engine c cfg) :: l)
    /\ (forall x, x <> fresh -> ~ In x (map fst l) ->
        Registry.cell_at h' x = Registry.cell_at h x)
    /\ snd (ctcp_init (Some c) cfg (map snd l))
       = map snd ((fresh, new_engine c cfg) :: l).
Proof.
  intros [Hl Hnd] Hfresh.
  assert (Hnew : ~ In fresh (map fst l)).
  { intros Hin. exact (linked_allocated _ _ _ _ _ Hl Hin Hfresh). }
  unfold Registry.ctcp_init. cbn [Registry.state_list Registry.store].
  destruct l as [|[b sb] rest].
  - cbn in Hl. rewrite Hl. eexists. split; [reflexivity|].
    split; [|split; [|reflexivity]].
    + split; [|constructor; [easy|constructor]].
      cbn. split; [reflexivity|]. rewrite Nat.eqb_refl.
      eexists. now repeat split.
    + intros x Hx _. cbn. apply Nat.eqb_neq in Hx. now rewrite Hx.
  - destruct Hl as (Hp & cb & Hcb & Hprev & Heng & Hrest). rewrite Hp.
    assert (Hbf : b <> fresh) by (intros ->; congruence).
    unfold Registry.set_prev. cbn [Registry.cell_at Registry.store].
    apply Nat.eqb_neq in Hbf as Ebf. rewrite Ebf, Hcb.
    eexists. split; [reflexivity|]. split; [|split; [|reflexivity]].
    + split; [|constructor; assumption].
      cbn [Registry.linked Registry.state_list]. split; [reflexivity|].
      cbn [Registry.cell_at Registry.store].
      assert (Efb : Nat.eqb fresh b = false) by (apply Nat.eqb_neq; congruence).
      rewrite Efb, Nat.eqb_refl. eexists.
      split; [reflexivity|]. split; [reflexivity|]. split; [reflexivity|].
      cbn [Registry.next]. split; [reflexivity|].
      rewrite Nat.eqb_refl. eexists.
      split; [reflexivity|]. split; [reflexivity|]. split; [exact Heng|].
      cbn [Registry.next]. revert Hrest. apply linked_frame.
      intros x Hin. cbn [Registry.cell_at].
      inversion Hnd as [|? ? Hb _]; subst.
      assert (Exb : Nat.eqb x b = false).
      { apply Nat.eqb_neq. intros ->. now apply Hb. }
      assert (Exf : Nat.eqb x fresh = false).
      { apply Nat.eqb_neq. intros ->. apply Hnew. now right. }
      now rewrite Exb, Exf.
    + intros x Hx Hin. cbn [Registry.cell_at Registry.store].
      assert (Exb : Nat.eqb x b = false).
      { apply Nat.eqb_neq. intros ->. apply Hin. now left. }
      apply Nat.eqb_neq in Hx. now rewrite Exb, Hx.
Qed.

(** Reading a cell of a store that was written to. *)
Ltac heap_cbn :=
  cbn [Registry.free Registry.cell_at Registry.state_list Registry.store
       Registry.write_slot Registry.next Registry.prev Registry.engine].

Ltac cell_cases :=
  heap_cbn;
  repeat match goal with
    | |- context [Nat.eqb ?u ?v] =>
        destruct (Nat.eqb_spec u v); [subst|]
    end;
  try contradiction.

Ltac other_cell :=
  repeat match goal with
    | H1 : Registry.cell_at ?h ?x = Some ?c1,
      H2 : Registry.cell_at ?h ?x = Some ?c2 |- _ =>
        rewrite H1 in H2; injection H2 as <-
    end;
  repeat match goal with
    | H : Registry.cell_at ?h ?x = Some _
      |- context [Registry.cell_at ?h ?x] => rewrite H
    end;
  eexists; (split; [reflexivity|]); heap_cbn;
  repeat split; try easy; intros; congruence.

Lemma destroy_result h a ca :
  Registry.cell_at h a = Some ca ->
  (forall n, Registry.next ca = Some n ->
             n <> a /\ Registry.cell_at h n <> None) ->
  (forall b, Registry.prev ca = Registry.Next_of b ->
             b <> a /\ Registry.cell_at h b <> None) ->
  exists h',
    Registry.ctcp_destroy a h = Some h'
    /\ Registry.cell_at h' a = None
    /\ (Registry.prev ca = Registry.Head ->
        Registry.state_list h' = Registry.next ca)
    /\ (Registry.prev ca <> Registry.Head ->
        Registry.state_list h' = Registry.state_list h)
    /\ (forall x cx,
          x <> a -> Registry.cell_at h x = Some cx ->
          exists cx',
            Registry.cell_at h' x = Some cx'
            /\ Registry.engine cx' = Registry.engine cx
            /\ (Registry.prev ca = Registry.Next_of x ->
                Registry.next cx' = Registry.next ca)
            /\ (Registry.prev ca <> Registry.Next_of x ->
                Registry.next cx' = Registry.next cx)
            /\ (Registry.next ca = Some x ->
                Registry.prev cx' = Registry.prev ca)
            /\ (Registry.next ca <> Some x ->
                Registry.prev cx' = Registry.prev cx)).
Proof.
  intros Ha Hn Hb. unfold Registry.ctcp_destroy. rewrite Ha.
  destruct (Registry.next ca) as [n|] eqn:En;
    destruct (Registry.prev ca) as [|b] eqn:Ep.
  - destruct (Hn n eq_refl) as [Hna Hnn].
    destruct (Registry.cell_at h n) as [cn|] eqn:Ecn; [|contradiction].
    unfold Registry.set_prev. rewrite Ecn. heap_cbn.
    assert (Ean : Nat.eqb a n = false) by (apply Nat.eqb_neq; congruence).
    rewrite Ean, Ha, Ep. heap_cbn. eexists. split; [reflexivity|].
    heap_cbn. rewrite Nat.eqb_refl.
    split; [reflexivity|]. split; [now rewrite En|]. split; [easy|].
    intros x cx Hx Hcx. cell_cases; other_cell.
  - destruct (Hn n eq_refl) as [Hna Hnn].
    destruct (Hb b eq_refl) as [Hba Hbb].
    destruct (Registry.cell_at h n) as [cn|] eqn:Ecn; [|contradiction].
    destruct (Registry.cell_at h b) as [cb|] eqn:Ecb; [|contradiction].
    unfold Registry.set_prev. rewrite Ecn. heap_cbn.
    assert (Ean : Nat.eqb a n = false) by (apply Nat.eqb_neq; congruence).
    rewrite Ean, Ha, Ep. heap_cbn.
    destruct (Nat.eqb_spec b n) as [->|Hbn].
    + eexists. split; [reflexivity|].
      heap_cbn. rewrite Nat.eqb_refl.
      split; [reflexivity|]. split; [easy|]. split; [reflexivity|].
      intros x cx Hx Hcx. cell_cases; other_cell.
    + rewrite Ecb. eexists. split; [reflexivity|].
      heap_cbn. rewrite Nat.eqb_refl.
      split; [reflexivity|]. split; [easy|]. split; [reflexivity|].
      intros x cx Hx Hcx. cell_cases; other_cell.
  - rewrite Ha, Ep. heap_cbn. eexists. split; [reflexivity|].
    heap_cbn. rewrite Nat.eqb_refl.
    split; [reflexivity|]. split; [now rewrite En|]. split; [easy|].
    intros x cx Hx Hcx. cell_cases; other_cell.
  - destruct (Hb b eq_refl) as [Hba Hbb].
    destruct (Registry.cell_at h b) as [cb|] eqn:Ecb; [|contradiction].
    rewrite Ha, Ep. heap_cbn. rewrite Ecb.
    eexists. split; [reflexivity|].
    heap_cbn. rewrite Nat.eqb_refl.
    split; [reflexivity|]. split; [easy|]. split; [reflexivity|].
    intros x cx Hx Hcx. cell_cases; other_cell.
Qed.

Lemma cell_eta (c c' : Registry.cell) :
  Registry.next c' = Registry.next c ->
  Registry.prev c' = Registry.prev c ->
  Registry.engine c' = Registry.engine c -> c' = c.
Proof. destruct c, c'. cbn. now intros -> -> ->. Qed.

Section Unlink.

Variables (h h' : Registry.heap) (a : Registry.addr) (ca : Registry.cell).
Variables (st : ctcp_state) (l2 : list (Registry.addr * ctcp_state)).

Hypothesis Hcells : forall x cx,
  x <> a -> Registry.cell_at h x = Some cx ->
  exists cx',
    Registry.cell_at h' x = Some cx'
    /\ Registry.engine cx' = Registry.engine cx
    /\ (Registry.prev ca = Registry.Next_of x ->
        Registry.next cx' = Registry.next ca)
    /\ (Registry.prev ca <> Registry.Next_of x ->
        Registry.next cx' = Registry.next cx)
    /\ (Registry.next ca = Some x -> Registry.prev cx' = Registry.prev ca)
    /\ (Registry.next ca <> Some x -> Registry.prev cx' = Registry.prev cx).

Hypothesis Hl2 : Registry.linked h (Registry.Next_of a) (Registry.next ca) l2.

Lemma unlink_rest l : forall from p,
  (forall x, In x (map fst l) ->
             x <> a /\ Registry.prev ca <> Registry.Next_of x
             /\ Registry.next ca <> Some x) ->
  Registry.linked h from p l -> Registry.linked h' from p l.
Proof.
  induction l as [|[x sx] rest IH]; intros from p Hx H; [exact H|].
  destruct H as (Hp & cx & Hcx & Hprev & Heng & Hrest).
  destruct (Hx x) as (Hxa & Hxp & Hxn); [now left|].
  destruct (Hcells x cx Hxa Hcx) as (cx' & Hcx' & E & _ & N & _ & P).
  split; [exact Hp|]. exists cx'.
  rewrite (cell_eta cx cx' (N Hxp) (P Hxn) E).
  repeat split; try assumption.
  - now rewrite <- (cell_eta cx cx' (N Hxp) (P Hxn) E).
  - apply IH; [|exact Hrest]. intros y Hin. apply Hx. now right.
Qed.

Lemma unlink_chain : forall l1 from p,
  NoDup (map fst (l1 ++ (a, st) :: l2)) ->
  (forall b, from = Registry.Next_of b ->
             ~ In b (map fst (l1 ++ (a, st) :: l2))) ->
  Registry.prev ca = Registry.end_slot from l1 ->
  Registry.linked h from p (l1 ++ (a, st) :: l2) ->
  Registry.linked h' from
    (match l1 with [] => Registry.next ca | _ => p end) (l1 ++ l2).
Proof.
  induction l1 as [|[x sx] l1 IH]; intros from p Hnd Hfrom Hprev H.
  - cbn [app Registry.end_slot] in *. clear H.
    inversion Hnd as [|? ? Ha Hnd2]; subst.
    destruct l2 as [|[n sn] l2'] eqn:El2; [exact Hl2|].
    destruct Hl2 as (Hn & cn & Hcn & Pn & En & Hrest).
    assert (Hna : n <> a) by (intros ->; apply Ha; now left).
    destruct (Hcells n cn Hna Hcn) as (cn' & Hcn' & E & _ & N & P & _).
    split; [exact Hn|]. exists cn'.
    split; [exact Hcn'|]. split; [now rewrite (P Hn)|].
    split; [now rewrite E|].
    rewrite N.
    2:{ intros E0. apply (Hfrom n E0). right. now left. }
    revert Hrest. apply unlink_rest. intros x Hin.
    inversion Hnd2 as [|? ? Hn2 _]; subst.
    split; [intros ->; apply Ha; now right|].
    split.
    + intros E0. apply (Hfrom x E0). right. now right.
    + rewrite Hn. intros E2. injection E2 as ->. now apply Hn2.
  - cbn [app map fst] in *.
    destruct H as (Hp & cx & Hcx & Px & Ex & Hrest).
    inversion Hnd as [|? ? Hx Hnd1]; subst.
    assert (Hxa : x <> a).
    { intros ->. apply Hx. rewrite map_app. apply in_or_app. right.
      now left. }
    destruct (Hcells x cx Hxa Hcx) as (cx' & Hcx' & E & N1 & N2 & _ & P).
    split; [reflexivity|]. exists cx'.
    split; [exact Hcx'|]. split.
    { rewrite P; [reflexivity|].
      rewrite (linked_first _ _ _ _ Hl2). intros E2.
      apply Hx. rewrite map_app. apply in_or_app. right. right.
      destruct l2 as [|[n sn] l2']; [discriminate|].
      injection E2 as ->. now left. }
    split; [now rewrite E|].
    cbn [Registry.end_slot] in Hprev.
    assert (IHx := IH (Registry.Next_of x) (Registry.next cx) Hnd1).
    destruct l1 as [|[y sy] l1'].
    + cbn [Registry.end_slot] in Hprev. rewrite (N1 Hprev).
      apply IHx; [|exact Hprev|exact Hrest].
      intros b Eb. injection Eb as <-. exact Hx.
    + destruct (end_slot_in ((y, sy) :: l1') (Registry.Next_of x))
        as (z & Ez & Hz); [easy|].
      rewrite N2.
      * apply IHx; [|exact Hprev|exact Hrest].
        intros b Eb. injection Eb as <-. exact Hx.
      * rewrite Hprev, Ez. intros E2. injection E2 as ->.
        apply Hx. rewrite map_app. apply in_or_app. now left.
Qed.

End Unlink.

(** X16: the unlinking of [ctcp_destroy].  On a store that holds the
    registry, destroying one of its engines reaches only allocated cells,
    frees the cell of that engine and leaves the registry of the other
    engines in their old order: the pointer that led to the cell now leads
    to the one after it, whose [prev] points back at that pointer. *)
Theorem ctcp_destroy_unlinks h l1 a st l2 :
  Registry.registry h (l1 ++ (a, st) :: l2) ->
  exists h',
    Registry.ctcp_destroy a h = Some h'
    /\ Registry.registry h' (l1 ++ l2)
    /\ Registry.cell_at h' a = None.
Proof.
  intros [Hl Hnd].
  destruct (linked_at _ _ _ _ _ _ _ Hl) as (ca & Ha & Hprev & Heng & Hl2).
  assert (Hmid : ~ In a (map fst l1) /\ ~ In a (map fst l2)).
  { rewrite map_app in Hnd. cbn [map fst] in Hnd.
    apply NoDup_remove_2 in Hnd. split; intros Hin; apply Hnd;
      apply in_or_app; [now left|now right]. }
  destruct (destroy_result h a ca Ha) as (h' & Hd & Hfree & Hh1 & Hh2 & Hc).
  { intros n Hn. rewrite (linked_first _ _ _ _ Hl2) in Hn.
    destruct l2 as [|[n' sn] l2']; [discriminate|]. injection Hn as ->.
    split; [intros ->; apply Hmid; now left|].
    eapply linked_allocated; [exact Hl2|now left]. }
  { intros b Hb. rewrite Hprev in Hb.
    destruct l1 as [|[y sy] l1']; [discriminate|].
    destruct (end_slot_in ((y, sy) :: l1') Registry.Head)
      as (z & Ez & Hz); [easy|].
    rewrite Ez in Hb. injection Hb as ->.
    split; [intros ->; now apply Hmid|].
    eapply linked_allocated; [exact Hl|].
    rewrite map_app. apply in_or_app. now left. }
  exists h'. split; [exact Hd|]. split; [|exact Hfree].
  split.
  - pose proof (unlink_chain h h' a ca st l2 Hc Hl2 l1 Registry.Head
                  (Registry.state_list h) Hnd) as U.
    assert (E : Registry.state_list h'
                = match l1 with
                  | [] => Registry.next ca
                  | _ => Registry.state_list h
                  end).
    { destruct l1 as [|[y sy] l1']; [now apply Hh1|].
      apply Hh2. rewrite Hprev.
      destruct (end_slot_in ((y, sy) :: l1') Registry.Head)
        as (z & Ez & Hz); [easy|].
      now rewrite Ez. }
    rewrite E. apply U; [easy|exact Hprev|exact Hl].
  - rewrite map_app in *. cbn [map fst] in Hnd.
    now apply NoDup_remove_1 in Hnd.
Qed.

Lemma combine_fst_snd {A B} (l : list (A * B)) :
  combine (map fst l) (map snd l) = l.
Proof.
  induction l as [|[x y] l IH]; [reflexivity|]. cbn. now rewrite IH.
Qed.

Lemma linked_update h a c cur1 st l2 : forall l1 from p,
  Registry.cell_at h a = Some c ->
  NoDup (map fst (l1 ++ (a, st) :: l2)) ->
  Registry.linked h from p (l1 ++ (a, st) :: l2) ->
  Registry.linked
    (Registry.store a
       (Registry.mk_cell (Registry.next c) (Registry.prev c) cur1) h)
    from p (l1 ++ (a, cur1) :: l2).
Proof.
  induction l1 as [|[x sx] l1 IH]; intros from p Hc Hnd H.
  - cbn [app] in *. destruct H as (Hp & c0 & Hc0 & Hprev & Heng & Hrest).
    assert (c0 = c) by congruence. subst c0.
    inversion Hnd as [|? ? Ha _]; subst.
    split; [reflexivity|]. eexists. heap_cbn. rewrite Nat.eqb_refl.
    split; [reflexivity|]. heap_cbn.
    split; [reflexivity|]. split; [reflexivity|].
    revert Hrest. apply linked_frame. intros x Hin. heap_cbn.
    destruct (Nat.eqb_spec x a) as [->|_]; [contradiction|reflexivity].
  - cbn [app map fst] in *.
    destruct H as (Hp & cx & Hcx & Hprev & Heng & Hrest).
    inversion Hnd as [|? ? Hx Hnd1]; subst.
    split; [reflexivity|]. exists cx. heap_cbn.
    destruct (Nat.eqb_spec x a) as [->|_].
    { exfalso. apply Hx. rewrite map_app. apply in_or_app. right.
      now left. }
    repeat split; try assumption. now apply IH.
Qed.

Lemma timer_refines fuel : forall lv lp h l',
  Registry.registry h (lv ++ lp) ->
  timer_loop fuel (map snd lv) (map snd lp) = Some l' ->
  exists h',
    Registry.ctcp_timer fuel (hd_error (map fst lp)) h = Some h'
    /\ Registry.registry h' (combine (map fst (lv ++ lp)) l').
Proof.
  induction fuel as [|fuel IH]; intros lv lp h l' Hr H; [discriminate|].
  cbn [timer_loop Registry.ctcp_timer] in *.
  destruct lp as [|[a cur] lp].
  - cbn [map hd_error] in *. injection H as <-. exists h.
    split; [reflexivity|]. rewrite app_nil_r in *.
    now rewrite combine_fst_snd.
  - cbn [map hd_error fst snd] in *. destruct Hr as [Hl Hnd].
    destruct (linked_at _ _ _ _ _ _ _ Hl) as (c & Hc & Hprev & Heng & Hrest).
    rewrite Hc, Heng.
    destruct (timer_body cur) as [cur1 advance].
    pose proof (linked_update h a c cur1 cur lp lv _ _ Hc Hnd Hl) as Hl1.
    assert (Hnd1 : NoDup (map fst (lv ++ (a, cur1) :: lp))).
    { rewrite map_app in *. exact Hnd. }
    assert (Ef : map fst (lv ++ (a, cur) :: lp)
                 = map fst (lv ++ (a, cur1) :: lp))
      by now rewrite !map_app.
    rewrite Ef. destruct advance.
    + rewrite (linked_first _ _ _ _ Hrest) in Hl1 |- *.
      replace (lv ++ (a, cur1) :: lp) with ((lv ++ [(a, cur1)]) ++ lp) in *
        by now rewrite <- app_assoc.
      apply IH.
      * split; assumption.
      * now rewrite map_app.
    + apply (IH lv ((a, cur1) :: lp)).
      * split; assumption.
      * exact H.
Qed.

(** X17: the cursor walk of [ctcp_timer] over the linked registry does what
    the walk over the list of its engines does.  On a store that holds the
    registry, whenever the list-level [ctcp_timer] returns for the engines
    of the registry, the walk that follows [next] from [state_list] with
    the same step budget reaches only allocated cells and returns; the
    store it leaves holds the registry of the same addresses in the same
    order, with the engines that the list-level walk returns. *)
Theorem ctcp_timer_walks_the_registry fuel h l l' :
  Registry.registry h l ->
  ctcp_timer fuel (map snd l) = Some l' ->
  exists h',
    Registry.ctcp_timer fuel (Registry.state_list h) h = Some h'
    /\ Registry.registry h' (combine (map fst l) l').
Proof.
  intros Hr H. pose proof Hr as [Hl _].
  rewrite (linked_first _ _ _ _ Hl).
  exact (timer_refines fuel [] l h l' Hr H).
Qed.

End RegistryProperties.

(** * The properties at concrete engines *)

#[local] Existing Instance spec_sys.

(** C5: the handlers do not all run to completion.  [ctcp_read] that reads
    "hello" and then the end of the input in one call waits for the send
    queue to empty, which nothing in the loop does: no step budget makes it
    return.  [ctcp_receive] of the peer's FIN at an engine that still holds a
    payload for a full sink waits for the receive queue in the same way. *)
Theorem wait_loops_never_return :
  (forall fuel,
      ctcp_read fuel (fresh_engine [In_bytes hello; In_eof] 4096) = None)
  /\ (forall fuel, ctcp_receive fuel holding_hello (flag_segment 6 1 FIN) = None).
Proof.
  split; intros fuel.
  - eapply ctcp_read_data_then_eof_spins; reflexivity.
  - unfold ctcp_receive.
    change (is_duplicate holding_hello (flag_segment 6 1 FIN)) with false.
    change (negb (received_len (flag_segment 6 1 FIN)
                  =? seg_len (flag_segment 6 1 FIN))) with false.
    change (negb (cksum_matches (flag_segment 6 1 FIN))) with false.
    change (segment_type (flag_segment 6 1 FIN)) with FIN_WITH_NO_ACK.
    cbv iota. unfold ctcp_receive_fin_with_no_ack.
    change (segment_teardown
              (set_conn_state ?c holding_hello)) with NO_CLOSE.
    cbv iota zeta. now apply fin_passive_close_spins.
Qed.

(** C8: on the tick of the sixth timeout the walk does not move on.  With a
    timeout of five ticks, an engine that has waited 29 ticks for the
    acknowledgement of "hello" is run a second time in the thirtieth call
    and [counter] ends at 1 instead of 0; with a timeout of one tick the
    second run of the sixth call counts a seventh timeout and sends a second
    FIN. *)
Theorem sixth_timeout_runs_the_engine_twice :
  (time_out (ack_state before_sixth_timeout) = true
   /\ counter (ack_state before_sixth_timeout) = 4
   /\ time_out_num (ack_state before_sixth_timeout) = 5
   /\ exists state' fin,
        ctcp_timer 3 [before_sixth_timeout] = Some [state']
        /\ c_sent (conn state')
           = c_sent (conn before_sixth_timeout) ++ [fin]
        /\ seg_flags fin = FIN
        /\ counter (ack_state state') = 1
        /\ time_out_num (ack_state state') = 6
        /\ segment_teardown state' = ACTIVE_CLOSE)
  /\ (time_out (ack_state before_sixth_timeout_fast) = true
      /\ time_out_num (ack_state before_sixth_timeout_fast) = 5
      /\ exists state' fin,
           ctcp_timer 3 [before_sixth_timeout_fast] = Some [state']
           /\ c_sent (conn state')
              = c_sent (conn before_sixth_timeout_fast) ++ [fin; fin]
           /\ seg_flags fin = FIN
           /\ time_out_num (ack_state state') = 7).
Proof.
  split.
  - split; [vm_compute; reflexivity|]. split; [vm_compute; reflexivity|].
    split; [vm_compute; reflexivity|].
    eexists. eexists. split; [vm_compute; reflexivity|].
    split; [vm_compute; reflexivity|]. vm_compute. repeat split.
  - split; [vm_compute; reflexivity|]. split; [vm_compute; reflexivity|].
    eexists. eexists. split; [vm_compute; reflexivity|].
    split; [vm_compute; reflexivity|]. vm_compute. repeat split.
Qed.

(** ** Inputs on which the claims as written fail *)

(** C2 fails as written, twice.  A copy of "hello" with a wrong checksum
    reaches an engine whose [last_ackno] is its sequence number: an ACK goes
    out.  A valid DATA segment that does not fit the receive window reaches
    an engine whose sink has room again: the queued payload is delivered, an
    ACK goes out and [rcv_window_used] drops to 0. *)
Lemma discarded_segments_can_emit :
  (well_received corrupt_hello = false
   /\ exists state' ack,
        ctcp_receive 1 got_hello corrupt_hello = Some (Alive state')
        /\ c_sent (conn state') = c_sent (conn got_hello) ++ [ack])
  /\ (fits_rcv_window holding_hello_sink_free (data_segment 6 1 big_payload)
      = false
      /\ exists state' ack,
           ctcp_receive 1 holding_hello_sink_free
             (data_segment 6 1 big_payload) = Some (Alive state')
           /\ c_sent (conn state')
              = c_sent (conn holding_hello_sink_free) ++ [ack]
           /\ rx_state holding_hello_sink_free <> rx_state state'
           /\ rcv_window_used (conn_state holding_hello_sink_free) = 5
           /\ rcv_window_used (conn_state state') = 0).
Proof.
  split; (split; [vm_compute; reflexivity|]).
  - eexists. eexists. split; [vm_compute; reflexivity|]. reflexivity.
  - eexists. eexists. split; [vm_compute; reflexivity|].
    repeat split. discriminate.
Qed.

(** C3 fails as written: a fresh engine expects sequence number 1 and queues
    a valid DATA segment with sequence number 500. *)
Lemma out_of_order_data_is_queued :
  ackno (conn_state (fresh_engine [] 0)) = 1
  /\ exists state',
       ctcp_receive 1 (fresh_engine [] 0) (data_segment 500 1 hello)
       = Some (Alive state')
       /\ rx_state state' = [mk_rx 0 5 hello]
       /\ ackno (conn_state state') = 505.
Proof.
  split; [reflexivity|]. eexists. split; [vm_compute; reflexivity|].
  split; reflexivity.
Qed.

(** C6 fails as written: an engine has waited three ticks for the
    acknowledgement of "hello" (tag 6) when a valid pure ACK with
    acknowledgement number 1 arrives.  Nothing is dropped, and [counter]
    stays at 3. *)
Lemma stale_ack_keeps_counter :
  pure_ack (flag_segment 1 1 ACK)
  /\ well_received (flag_segment 1 1 ACK) = true
  /\ segment_teardown sent_hello_waiting = NO_CLOSE
  /\ counter (ack_state sent_hello_waiting) = 3
  /\ exists state',
       ctcp_receive 1 sent_hello_waiting (flag_segment 1 1 ACK)
       = Some (Alive state')
       /\ counter (ack_state state') = 3.
Proof.
  split; [split; vm_compute; reflexivity|].
  split; [vm_compute; reflexivity|]. split; [vm_compute; reflexivity|].
  split; [vm_compute; reflexivity|].
  eexists. split; [vm_compute; reflexivity|]. vm_compute. reflexivity.
Qed.

(** C7 fails as written: "hello" was acknowledged by the first ACK of
    [got_hello_world]; replayed, it is taken as new data.  The sink gets it
    a second time, [ackno] falls from 11 to 6 and the ACK that goes out
    carries 6 while [last_ackno] was 6 and becomes 11. *)
Lemma replayed_old_segment_is_accepted :
  (exists ack, hd_error (c_sent (conn got_hello_world)) = Some ack
               /\ seg_ackno ack = 6)
  /\ ackno (conn_state got_hello_world) = 11
  /\ exists state',
       ctcp_receive 1 got_hello_world (data_segment 1 1 hello)
       = Some (Alive state')
       /\ ackno (conn_state state') = 6
       /\ last_ackno (conn_state state') = 11
       /\ c_output (conn state') = hello ++ world ++ hello.
Proof.
  split; [eexists; split; reflexivity|]. split; [reflexivity|].
  eexists. split; [vm_compute; reflexivity|]. repeat split.
Qed.

(** C4 fails as written, twice.  A valid DATA segment with a lower sequence
    number moves [ackno] back from 11 to 6 and leaves [last_ackno] at 11,
    above it.  A read of three kilobytes into a send window of two leaves
    the tags 1001, 2001, 0 in the send queue, which do not increase. *)
Lemma ackno_and_tags_are_not_ordered :
  (last_ackno (conn_state got_hello_world)
     <= ackno (conn_state got_hello_world)
   /\ exists state',
        ctcp_receive 1 got_hello_world (data_segment 1 1 hello)
        = Some (Alive state')
        /\ ackno (conn_state state') < ackno (conn_state got_hello_world)
        /\ ackno (conn_state state') < last_ackno (conn_state state'))
  /\ exists state',
       ctcp_read 1 (fresh_engine three_kilobytes 4096) = Some state'
       /\ seqno (conn_state state') = 1
       /\ map segment_next_seqno (tx_state state') = [1001; 2001; 0].
Proof.
  split; [split|].
  - vm_compute. discriminate.
  - eexists. split; [vm_compute; reflexivity|]. split; reflexivity.
  - eexists. split; [vm_compute; reflexivity|]. split; reflexivity.
Qed.

(** The truncation message: a stream of fifteen bytes that starts with it
    is read from the source and dropped by [ctcp_read].  The FIN handshake
    completes in the third round, both engines are destroyed, and the sink
    of side B is empty, however many more rounds the host is given. *)
Lemma truncation_message_never_arrives :
  source_bytes (paced_script [[truncate_stream]]) = truncate_stream
  /\ Z.of_nat (length truncate_stream) <= 2 ^ 31 - 1
  /\ forall extra,
       exists n ca cb,
         run 2 4 (3 + extra) 4096
           (connect (paced_script [[truncate_stream]]) 4096 scenario_cfg
              scenario_cfg) = Some n
         /\ side_a n = Destroyed ca
         /\ side_b n = Destroyed cb
         /\ c_output cb = []
         /\ c_output cb <> truncate_stream.
Proof.
  split; [reflexivity|]. split; [vm_compute; discriminate|].
  intros extra.
  assert (H : exists n ca cb,
             run 2 4 3 4096
               (connect (paced_script [[truncate_stream]]) 4096 scenario_cfg
                  scenario_cfg) = Some n
             /\ side_a n = Destroyed ca
             /\ side_b n = Destroyed cb
             /\ c_output cb = []).
  { eexists. eexists. eexists. split; [vm_compute; reflexivity|].
    repeat split. }
  destruct H as (n & ca & cb & Hrun & Ea & Eb & Eo).
  exists n, ca, cb. split.
  - apply run_more; [exact Hrun|now rewrite Ea|now rewrite Eb].
  - repeat split; try assumption. rewrite Eo. discriminate.
Qed.

(** C1: over a lossless, in-order carrier the FIN handshake does not always
    complete, and the sink of side B does not always end up with the stream
    of side A.

    "hello" followed by the end of the input in the same source event
    leaves [ctcp_read] in its wait for the send queue: the first round of
    the host never ends, whatever budget it is given.

    Four reads of 1000 bytes are there for the first source event and the
    send window is 2000.  Round 1 sends and delivers the first two.  In
    round 2 the tick finds the timer disarmed and sends the third and the
    fourth; the source event of the same round reads nothing and runs
    [ctcp_send_possible_data_segment] again, and these two go out a second
    time before an ACK has come back.  Side B takes all four datagrams:
    the third arrives again with its sequence number 2001 when [ackno] is
    4001 and [last_ackno] 3001, and passes the one test there is.  The
    handshake completes in round 3 and the sink holds 6000 bytes. *)
Theorem lossless_transfer_fails :
  (source_bytes [In_bytes hello; In_eof] = hello
   /\ forall fuel steps rounds,
        run fuel steps (S rounds) 4096
          (connect [In_bytes hello; In_eof] 4096 scenario_cfg scenario_cfg)
        = None)
  /\ (source_bytes four_reads_then_idle = ka ++ kb ++ kc ++ kd
      /\ Z.of_nat (length (source_bytes four_reads_then_idle)) <= 2 ^ 31 - 1
      /\ forall extra,
           exists n ca cb,
             run 2 8 (3 + extra) 4096
               (connect four_reads_then_idle 4096 scenario_cfg scenario_cfg)
             = Some n
             /\ side_a n = Destroyed ca
             /\ side_b n = Destroyed cb
             /\ c_output cb = ka ++ kb ++ kc ++ kd ++ kc ++ kd
             /\ c_output cb <> source_bytes four_reads_then_idle).
Proof.
  split.
  - split; [reflexivity|]. intros fuel steps rounds.
    cbn [run connect side_a side_b is_destroyed andb].
    destruct fuel as [|[|fuel]]; [reflexivity|reflexivity|].
    unfold round.
    replace (timer_at (S (S fuel))
               (drain_sink 4096
                  (side_a
                     (connect [In_bytes hello; In_eof] 4096 scenario_cfg
                        scenario_cfg))))
      with (Some (Alive (fresh_engine [In_bytes hello; In_eof] 4096)))
      by reflexivity.
    replace (timer_at (S (S fuel))
               (drain_sink 4096
                  (side_b
                     (connect [In_bytes hello; In_eof] 4096 scenario_cfg
                        scenario_cfg))))
      with (Some (Alive (fresh_engine [] 4096)))
      by reflexivity.
    change (read_at (S (S fuel))
              (Alive (fresh_engine [In_bytes hello; In_eof] 4096)))
      with (option_map Alive
              (ctcp_read (S (S fuel))
                 (fresh_engine [In_bytes hello; In_eof] 4096))).
    erewrite ctcp_read_data_then_eof_spins; reflexivity.
  - split; [reflexivity|]. split; [vm_compute; discriminate|].
    intros extra.
    assert (H : exists n ca cb,
               run 2 8 3 4096
                 (connect four_reads_then_idle 4096 scenario_cfg
                    scenario_cfg) = Some n
               /\ side_a n = Destroyed ca
               /\ side_b n = Destroyed cb
               /\ c_output cb = ka ++ kb ++ kc ++ kd ++ kc ++ kd).
    { eexists. eexists. eexists. split; [vm_compute; reflexivity|].
      split; [reflexivity|]. split; [reflexivity|].
      vm_compute. reflexivity. }
    destruct H as (n & ca & cb & Hrun & Ea & Eb & Eo).
    exists n, ca, cb. split.
    { apply run_more; [exact Hrun|now rewrite Ea|now rewrite Eb]. }
    repeat split; try assumption.
    rewrite Eo. intros E. apply (f_equal (@length byte)) in E.
    vm_compute in E. discriminate.
Qed.

(** ** The theorems applied *)

Lemma emitted_checksums_witness :
  sends_verified (conn (fresh_engine [In_bytes hello; In_none] 4096))
    (conn sent_hello)
  /\ exists state',
       ctcp_receive_outcome holding_hello (flag_segment 6 1 FIN)
       = Waiting state'
       /\ sends_verified (conn holding_hello) (conn state').
Proof.
  split.
  - apply (proj1 emitted_datagrams_carry_their_checksum 1%nat).
    vm_compute. reflexivity.
  - generalize
      (proj1 (proj2 (proj2 (proj2 (proj2 (proj2
         emitted_datagrams_carry_their_checksum)))))
         0%nat holding_hello (flag_segment 6 1 FIN)).
    replace (ctcp_receive 1 holding_hello (flag_segment 6 1 FIN))
      with (@None result) by (vm_compute; reflexivity).
    trivial.
Defined.

Lemma pure_ack_frame_witness :
  exists state',
    ctcp_receive 1 sent_hello (flag_segment 1 6 ACK) = Some (Alive state')
    /\ ackno (conn_state state') = ackno (conn_state sent_hello)
    /\ last_ackno (conn_state state') = last_ackno (conn_state sent_hello)
    /\ rcv_window_used (conn_state state')
       = rcv_window_used (conn_state sent_hello)
    /\ rx_state state' = rx_state sent_hello
    /\ (tx_state sent_hello = [] -> state' = sent_hello).
Proof.
  apply pure_ack_frame; [split; reflexivity|reflexivity].
Defined.

Lemma cumulative_ack_witness :
  match tx_state sent_hello with
  | [] =>
      ctcp_receive 1 sent_hello (flag_segment 1 6 ACK)
      = Some (Alive sent_hello)
  | front :: _ =>
      if segment_next_seqno front <=? seg_ackno (flag_segment 1 6 ACK)
      then
        exists dropped kept,
          tx_state sent_hello = dropped ++ kept
          /\ Forall (acked_by (seg_ackno (flag_segment 1 6 ACK))) dropped
          /\ drain_stops (seg_ackno (flag_segment 1 6 ACK)) kept
          /\ ctcp_receive 1 sent_hello (flag_segment 1 6 ACK)
             = Some (Alive
                 (set_ack_state
                    (set_time_out_num 0
                       (set_counter 0
                          (if seg_ackno (flag_segment 1 6 ACK)
                                =? next_seqno (conn_state sent_hello)
                           then set_time_out false (ack_state sent_hello)
                           else ack_state sent_hello)))
                    (set_tx_state kept
                       (set_conn_state
                          (drain_counters (conn_state sent_hello) dropped)
                          sent_hello))))
      else
        ctcp_receive 1 sent_hello (flag_segment 1 6 ACK)
        = Some (Alive sent_hello)
  end.
Proof.
  apply cumulative_ack_effect; [split; reflexivity|reflexivity|reflexivity].
Defined.

Lemma discarded_segment_witness :
  ctcp_receive 1 (fresh_engine [] 4096) corrupt_hello
  = Some (Alive (fresh_engine [] 4096)).
Proof.
  apply (proj1 (proj2 (discarded_segment_effect 1 (fresh_engine [] 4096)
                         corrupt_hello))); reflexivity.
Defined.

Lemma data_segment_acceptance_witness :
  if accepts_data (fresh_engine [] 0) (data_segment 500 1 hello)
  then
    ctcp_receive 1 (fresh_engine [] 0) (data_segment 500 1 hello)
    = Some (Alive (ctcp_output
                     (accept_data (fresh_engine [] 0)
                        (data_segment 500 1 hello))))
    /\ rx_state (accept_data (fresh_engine [] 0) (data_segment 500 1 hello))
       = rx_state (fresh_engine [] 0)
         ++ [mk_rx 0
               (Z.of_nat (length (seg_data (data_segment 500 1 hello))))
               (seg_data (data_segment 500 1 hello))]
    /\ ackno (conn_state
                (accept_data (fresh_engine [] 0) (data_segment 500 1 hello)))
       = wrap32 (seg_seqno (data_segment 500 1 hello)
                 + seg_len (data_segment 500 1 hello) - sizeof_segment)
  else
    exists state' delivered,
      ctcp_receive 1 (fresh_engine [] 0) (data_segment 500 1 hello)
      = Some (Alive state')
      /\ map rx_buffer (rx_state (fresh_engine [] 0))
         = delivered ++ map rx_buffer (rx_state state').
Proof.
  apply data_segment_acceptance. reflexivity.
Defined.

Lemma duplicate_replay_witness :
  exists ack state',
    ctcp_receive 1 got_hello (data_segment 1 1 hello) = Some (Alive state')
    /\ state' = set_conn (conn_send (conn got_hello) ack) got_hello
    /\ c_sent (conn state') = c_sent (conn got_hello) ++ [ack]
    /\ seg_ackno ack = last_ackno (conn_state got_hello)
    /\ seg_flags ack = ACK
    /\ seg_data ack = []
    /\ cksum_verifies ack.
Proof.
  apply duplicate_replay_effect; [reflexivity|discriminate|reflexivity].
Defined.

Lemma engine_inv_witness : engine_inv sent_hello.
Proof.
  apply (proj1 handlers_preserve_engine_inv 1%nat
           (fresh_engine [In_bytes hello; In_none] 4096)).
  - apply (ctcp_init_inv (host_conn [In_bytes hello; In_none] 4096)
             scenario_cfg []); [cbn; lia|cbn; lia|reflexivity].
  - reflexivity.
Defined.

Lemma paced_round_trip_witness :
  exists n ca cb,
    run 2 (4 + 2 * length (concat [[hello; world]; [hello]])) 3 4096
      (connect (paced_script [[hello; world]; [hello]]) 4096 scenario_cfg
         scenario_cfg)
    = Some n
    /\ side_a n = Destroyed ca
    /\ side_b n = Destroyed cb
    /\ c_output cb = source_bytes (paced_script [[hello; world]; [hello]])
    /\ c_eof cb = true
    /\ ticks n = 3%nat.
Proof.
  apply (paced_round_trip scenario_cfg scenario_cfg 4096 2000
           [[hello; world]; [hello]]).
  - repeat split; [discriminate|discriminate].
  - reflexivity.
  - reflexivity.
  - cbn; lia.
  - cbn; lia.
  - lia.
  - cbn; lia.
  - repeat constructor; try discriminate; try (cbn; lia);
      vm_compute; discriminate.
  - vm_compute. discriminate.
Defined.

(** * Further properties at concrete engines *)

Lemma window_burst_shape_witness :
  exists burst waiting,
    c_sent (conn (ctcp_send_possible_data_segment read_three_kilobytes))
    = c_sent (conn read_three_kilobytes) ++ burst
    /\ map tx_buffer (tx_state read_three_kilobytes)
       = map seg_data burst ++ waiting
    /\ data_chain (seqno (conn_state read_three_kilobytes)) burst
    /\ Forall
         (fun g => seg_ackno g = ackno (conn_state read_three_kilobytes))
         burst
    /\ carried burst <= send_window (conn_state read_three_kilobytes)
    /\ match waiting with
       | [] => True
       | w :: _ =>
           send_window (conn_state read_three_kilobytes)
           < Z.of_nat (length w) + carried burst
       end
    /\ send_window_used
         (conn_state (ctcp_send_possible_data_segment read_three_kilobytes))
       = carried burst
    /\ next_seqno
         (conn_state (ctcp_send_possible_data_segment read_three_kilobytes))
       = wrap32 (seqno (conn_state read_three_kilobytes) + carried burst).
Proof.
  apply (window_burst_shape read_three_kilobytes); vm_compute; easy.
Defined.

Lemma ctcp_output_delivers_witness :
  exists delivered acks,
    rx_state holding_hello_sink_free
    = delivered ++ rx_state (ctcp_output holding_hello_sink_free)
    /\ c_output (conn (ctcp_output holding_hello_sink_free))
       = c_output (conn holding_hello_sink_free)
         ++ concat (map rx_buffer delivered)
    /\ c_sent (conn (ctcp_output holding_hello_sink_free))
       = c_sent (conn holding_hello_sink_free) ++ acks
    /\ length acks = length delivered
    /\ Forall (bare_ack (ackno (conn_state holding_hello_sink_free))) acks
    /\ c_bufspace (conn (ctcp_output holding_hello_sink_free))
       = c_bufspace (conn holding_hello_sink_free) - held_total delivered
    /\ 0 <= c_bufspace (conn (ctcp_output holding_hello_sink_free))
    /\ c_eof (conn (ctcp_output holding_hello_sink_free))
       = c_eof (conn holding_hello_sink_free)
         || existsb (fun node => byte_left node =? 0) delivered
    /\ match rx_state (ctcp_output holding_hello_sink_free) with
       | [] => True
       | node :: _ =>
           c_bufspace (conn (ctcp_output holding_hello_sink_free)) = 0
           \/ c_bufspace (conn (ctcp_output holding_hello_sink_free))
              < byte_left node
       end.
Proof.
  apply (ctcp_output_delivers_in_order holding_hello_sink_free).
  - vm_compute. repeat constructor.
  - vm_compute. discriminate.
Defined.

Lemma ctcp_read_queues_reads_witness :
  map tx_buffer (tx_state read_three_kilobytes)
  = map tx_buffer (tx_state (fresh_engine three_kilobytes 4096))
    ++ reads_taken (c_input (conn (fresh_engine three_kilobytes 4096)))
  /\ c_input (conn read_three_kilobytes)
     = skipn
         (S (length
               (reads_taken
                  (c_input (conn (fresh_engine three_kilobytes 4096))))))
         (c_input (conn (fresh_engine three_kilobytes 4096)))
  /\ rx_state read_three_kilobytes
     = rx_state (fresh_engine three_kilobytes 4096)
  /\ c_output (conn read_three_kilobytes)
     = c_output (conn (fresh_engine three_kilobytes 4096)).
Proof.
  apply (ctcp_read_queues_reads 1 (fresh_engine three_kilobytes 4096)
           read_three_kilobytes).
  vm_compute. reflexivity.
Defined.

Lemma teardown_never_reopens_witness :
  closing (ctcp_output closing_engine).
Proof.
  apply (proj1 (proj2 (proj2 teardown_never_reopens)) closing_engine).
  vm_compute. discriminate.
Defined.

Lemma timer_overflow_covers_timeout_witness :
  cfg_rt_timeout scenario_cfg
  <= timer_overflow (ack_state (new_engine (host_conn [] 4096) scenario_cfg))
     * cfg_timer scenario_cfg
  < cfg_rt_timeout scenario_cfg + cfg_timer scenario_cfg.
Proof.
  apply (timer_overflow_covers_timeout (host_conn [] 4096) scenario_cfg);
    vm_compute; easy.
Defined.

Lemma retransmission_waits_witness :
  (exists l,
      timer_ticks 4%nat [sent_hello] = Some l
      /\ nth_error l 0%nat
         = Some (set_ack_state
                   (set_counter (Z.of_nat 4%nat) (ack_state sent_hello))
                   sent_hello))
  /\ (Z.of_nat 5%nat = timer_overflow (ack_state sent_hello) ->
      segment_teardown sent_hello = NO_CLOSE ->
      wrap8 (time_out_num (ack_state sent_hello) + 1) <> 6 ->
      exists l,
        timer_ticks 5%nat [sent_hello] = Some l
        /\ nth_error l 0%nat
           = Some (ctcp_send_possible_data_segment
                     (set_ack_state
                        (set_time_out_num
                           (wrap8 (time_out_num (ack_state sent_hello) + 1))
                           (ack_state sent_hello))
                        sent_hello))).
Proof.
  apply (retransmission_waits_for_overflow [sent_hello] 0%nat sent_hello
           4%nat);
    vm_compute; easy.
Defined.

Lemma flight_inv_witness : flight_inv sent_hello.
Proof.
  apply (proj1 handlers_preserve_flight_inv 1%nat
           (fresh_engine [In_bytes hello; In_none] 4096)).
  - apply (proj2 (proj2 (proj2 (proj2 handlers_preserve_flight_inv)))
             (host_conn [In_bytes hello; In_none] 4096) scenario_cfg);
      vm_compute; easy.
  - vm_compute. reflexivity.
Defined.


(** Reading off a chain of cells in a concrete store. *)
Ltac read_chain :=
  repeat (split; [reflexivity|]; eexists;
          split; [reflexivity|];
          split; [reflexivity|];
          split; [reflexivity|]);
  reflexivity.

Lemma one_engine_registry :
  Registry.registry one_engine [(1%nat, first_engine)].
Proof.
  split; [read_chain|]. repeat constructor. easy.
Qed.

Lemma two_engines_registry :
  Registry.registry two_engines
    [(2%nat, second_engine); (1%nat, first_engine)].
Proof.
  split; [read_chain|]. repeat constructor; cbn; intuition discriminate.
Qed.

Lemma ctcp_init_links_witness :
  exists h',
    Registry.ctcp_init 2%nat
      (Some (host_conn [In_bytes hello; In_none] 4096)) scenario_cfg
      one_engine
    = Some (Some 2%nat, h')
    /\ Registry.registry h'
         [(2%nat,
           new_engine (host_conn [In_bytes hello; In_none] 4096)
             scenario_cfg);
          (1%nat, first_engine)]
    /\ (forall x, x <> 2%nat -> ~ In x (map fst [(1%nat, first_engine)]) ->
        Registry.cell_at h' x = Registry.cell_at one_engine x)
    /\ snd (ctcp_init (Some (host_conn [In_bytes hello; In_none] 4096))
              scenario_cfg (map snd [(1%nat, first_engine)]))
       = map snd
           [(2%nat,
             new_engine (host_conn [In_bytes hello; In_none] 4096)
               scenario_cfg);
            (1%nat, first_engine)].
Proof.
  apply (ctcp_init_links_at_head one_engine [(1%nat, first_engine)] 2%nat
           (host_conn [In_bytes hello; In_none] 4096) scenario_cfg).
  - exact one_engine_registry.
  - reflexivity.
Defined.

Lemma ctcp_destroy_unlinks_witness :
  exists h',
    Registry.ctcp_destroy 1%nat two_engines = Some h'
    /\ Registry.registry h' ([(2%nat, second_engine)] ++ [])
    /\ Registry.cell_at h' 1%nat = None.
Proof.
  apply (ctcp_destroy_unlinks two_engines [(2%nat, second_engine)] 1%nat
           first_engine []).
  exact two_engines_registry.
Defined.

Lemma ctcp_timer_walks_witness :
  exists h',
    Registry.ctcp_timer 5%nat (Registry.state_list two_engines) two_engines
    = Some h'
    /\ Registry.registry h'
         (combine (map fst [(2%nat, second_engine); (1%nat, first_engine)])
            (map timer_pass [second_engine; first_engine])).
Proof.
  apply (ctcp_timer_walks_the_registry 5%nat two_engines
           [(2%nat, second_engine); (1%nat, first_engine)]
           (map timer_pass [second_engine; first_engine])).
  - exact two_engines_registry.
  - vm_compute. reflexivity.
Defined.

Lemma sent_hello_inv : engine_inv sent_hello.
Proof.
  apply (ctcp_read_inv 1 (fresh_engine [In_bytes hello; In_none] 4096)).
  - apply (ctcp_init_inv (host_conn [In_bytes hello; In_none] 4096)
             scenario_cfg []); [cbn; lia|cbn; lia|reflexivity].
  - vm_compute. reflexivity.
Qed.

Lemma full_ack_witness :
  exists state' sent,
    ctcp_receive 1 sent_hello (flag_segment 1 6 ACK) = Some (Alive state')
    /\ tx_state sent_hello = sent ++ tx_state state'
    /\ payload_total sent = send_window_used (conn_state sent_hello)
    /\ Forall untagged (tx_state state')
    /\ seqno (conn_state state') = next_seqno (conn_state sent_hello)
    /\ next_seqno (conn_state state') = next_seqno (conn_state sent_hello)
    /\ send_window_used (conn_state state') = 0
    /\ ack_state state'
       = mk_ack_state 0 0 (timer_overflow (ack_state sent_hello)) false
    /\ conn state' = conn sent_hello
    /\ rx_state state' = rx_state sent_hello.
Proof.
  apply (full_ack_clears_the_flight 1 sent_hello (flag_segment 1 6 ACK)).
  - split; [exact sent_hello_inv|]. vm_compute. easy.
  - split; vm_compute; reflexivity.
  - vm_compute. reflexivity.
  - vm_compute. discriminate.
  - vm_compute. reflexivity.
  - vm_compute. reflexivity.
  - vm_compute. discriminate.
Defined.

Lemma emitted_shapes_witness :
  sends_shaped (conn (fresh_engine [In_bytes hello; In_none] 4096))
    (conn sent_hello)
  /\ exists state',
       ctcp_receive_outcome holding_hello (flag_segment 6 1 FIN)
       = Waiting state'
       /\ sends_shaped (conn holding_hello) (conn state').
Proof.
  split.
  - apply (proj1 emitted_datagrams_pass_the_tests 1%nat
             (fresh_engine [In_bytes hello; In_none] 4096) sent_hello).
    + vm_compute. reflexivity.
    + vm_compute. reflexivity.
  - generalize
      (proj1 (proj2 (proj2 (proj2 (proj2 (proj2
         emitted_datagrams_pass_the_tests)))))
         0%nat holding_hello (flag_segment 6 1 FIN)).
    replace (ctcp_receive 1 holding_hello (flag_segment 6 1 FIN))
      with (@None result) by (vm_compute; reflexivity).
    trivial.
Defined.
